(** * focus-gui: the capture handler of the focusing aid

    A shallow embedding of [examples/focus-gui.py]: the [CameraHandler]
    object (its slots, its self-posted [do_next] event and the worker's
    event queue), the histogram rendering and the focus measurement.

    Conventions.
    - The floating-point arithmetic of the histogram loop is a parameter
      ([Metrics.Arith]): the properties of what the handler does and
      emits hold in every arithmetic, so also in binary floating point.
      [Metrics.exact] is the arithmetic of the real numbers; the
      properties of the bar-length formula are stated in it, and the
      concrete examples run in it.  The statistics of the focus
      measurement are taken in the real numbers.  Everything that is
      integer arithmetic in the script is kept in [Z] or [nat] and
      computes.
    - The camera, the image decoder and the GUI toolkit are outside the
      script.  The camera is an oracle giving the result of the n-th
      preview capture; the decoded picture is a raster per band; the
      toolkit's event queue is a list ordered by priority. *)

From Stdlib Require Import String Ascii.
From Stdlib Require Import ZArith List Bool Arith Lia.
From Stdlib Require Import Reals Lra.
From Stdlib Require DecimalString DecimalZ.
Import ListNotations.

Set Implicit Arguments.
Set Warnings "-register-all".

(* ================================================================== *)
(** * Strings: [str.lower] and the [in] operator *)

Module PyStr.

Definition lower_ascii (c : ascii) : ascii :=
  let n := nat_of_ascii c in
  if andb (65 <=? n) (n <=? 90) then ascii_of_nat (n + 32) else c.

Fixpoint lower (s : string) : string :=
  match s with
  | EmptyString => EmptyString
  | String c s' => String (lower_ascii c) (lower s')
  end.

(** [contains sub s] is Python's [sub in s]. *)
Fixpoint contains (sub s : string) : bool :=
  if String.prefix sub s then true
  else match s with
       | EmptyString => false
       | String _ s' => contains sub s'
       end.

End PyStr.

(* ================================================================== *)
(** * The camera library: result codes and the configuration tree *)

Module Gp.

Definition GP_OK : Z := 0.
Definition GP_ERROR_BAD_PARAMETERS : Z := -2.

(** A configuration widget: its name, its current value, the choices of
    a radio or menu widget, and its children. *)
Inductive CameraWidget : Type :=
| Widget (name : string) (value : string) (choices : list string)
         (children : list CameraWidget).

Definition widget_name (w : CameraWidget) : string :=
  match w with Widget n _ _ _ => n end.
Definition get_value (w : CameraWidget) : string :=
  match w with Widget _ v _ _ => v end.
Definition get_choice (w : CameraWidget) (i : nat) : option string :=
  match w with Widget _ _ cs _ => nth_error cs i end.

(** Depth-first search for the first widget called [n], the root
    included. *)
Fixpoint find_child (w : CameraWidget) (n : string) : option CameraWidget :=
  match w with
  | Widget nm _ _ ch =>
      if String.eqb nm n then Some w
      else (fix search (l : list CameraWidget) : option CameraWidget :=
              match l with
              | [] => None
              | c :: l' =>
                  match find_child c n with
                  | Some r => Some r
                  | None => search l'
                  end
              end) ch
  end.

(** [gp_widget_get_child_by_name] as the Python binding returns it: an
    error code and the widget. *)
Definition gp_widget_get_child_by_name (w : CameraWidget) (n : string)
  : Z * option CameraWidget :=
  match find_child w n with
  | Some c => (GP_OK, Some c)
  | None => (GP_ERROR_BAD_PARAMETERS, None)
  end.

(** [set_value] on the widget found by [find_child]: the widget is a
    node of the tree, so the tree itself changes.  [None] when no widget
    has that name. *)
Fixpoint set_child_value (w : CameraWidget) (n v : string)
  : option CameraWidget :=
  match w with
  | Widget nm old cs ch =>
      if String.eqb nm n then Some (Widget nm v cs ch)
      else
        match (fix update (l : list CameraWidget)
                 : option (list CameraWidget) :=
                 match l with
                 | [] => None
                 | c :: l' =>
                     match set_child_value c n v with
                     | Some c' => Some (c' :: l')
                     | None =>
                         match update l' with
                         | Some l'' => Some (c :: l'')
                         | None => None
                         end
                     end
                 end) ch with
        | Some ch' => Some (Widget nm old cs ch')
        | None => None
        end
  end.

End Gp.

(* ================================================================== *)
(** * The imaging library: rasters, histogram, offset, difference, crop,
      statistics *)

Module Pil.

(** The modes a decoded preview can have, and their numbers of bands. *)
Inductive Mode : Type := L | RGB | CMYK.

Definition mode_bands (m : Mode) : nat :=
  match m with L => 1 | RGB => 3 | CMYK => 4 end.

(** One band: [size_h] rows of [size_w] samples in 0..255. *)
Definition Band : Type := list (list Z).

Record Image : Type := mkImage {
  mode : Mode;
  size_w : nat;
  size_h : nat;
  bands : list Band
}.

Definition sample_ok (v : Z) : bool := ((0 <=? v) && (v <? 256))%Z.

Definition wf_band (w h : nat) (b : Band) : bool :=
  (length b =? h)
  && forallb (fun row => (length row =? w) && forallb sample_ok row) b.

Definition wf_image (im : Image) : bool :=
  (length (bands im) =? mode_bands (mode im))
  && forallb (wf_band (size_w im) (size_h im)) (bands im).

(** ** [Image.histogram]: 256 counts per band, the bands one after
    another. *)
Definition count_value (b : Band) (v : Z) : Z :=
  Z.of_nat (count_occ Z.eq_dec (concat b) v).

Definition band_histogram (b : Band) : list Z :=
  map (fun v => count_value b (Z.of_nat v)) (seq 0 256).

Definition histogram (im : Image) : list Z :=
  flat_map band_histogram (bands im).

(** ** [Image.tobytes('raw', 'RGB')]: the samples interleaved, pixel by
    pixel; only an RGB picture has a packer for it. *)
Fixpoint interleave3 (r g b : list Z) : list Z :=
  match r, g, b with
  | x :: r', y :: g', z :: b' => x :: y :: z :: interleave3 r' g' b'
  | _, _, _ => []
  end.

Definition tobytes_raw_RGB (im : Image) : option (list Z) :=
  match mode im, bands im with
  | RGB, [r; g; b] => Some (interleave3 (concat r) (concat g) (concat b))
  | _, _ => None
  end.

(** ** [ImageChops.offset]: the data moves by the given distances and
    wraps around the edges. *)
Definition rotate_right {A : Type} (k : nat) (l : list A) : list A :=
  let n := length l in
  skipn (n - k mod n) l ++ firstn (n - k mod n) l.

Definition offset_band (xoffset yoffset : nat) (b : Band) : Band :=
  rotate_right yoffset (map (rotate_right xoffset) b).

Definition offset (im : Image) (xoffset yoffset : nat) : Image :=
  mkImage (mode im) (size_w im) (size_h im)
          (map (offset_band xoffset yoffset) (bands im)).

(** ** [ImageChops.difference]: [abs (a - b)], sample by sample. *)
Definition absdiff (p : Z * Z) : Z := Z.abs (fst p - snd p).

Definition difference_row (p : list Z * list Z) : list Z :=
  map absdiff (combine (fst p) (snd p)).

Definition difference_band (p : Band * Band) : Band :=
  map difference_row (combine (fst p) (snd p)).

Definition difference (a b : Image) : Image :=
  mkImage (mode a) (size_w a) (size_h a)
          (map difference_band (combine (bands a) (bands b))).

(** ** [Image.crop] with a box (left, upper, right, lower) inside the
    picture. *)
Definition crop_list {A : Type} (lo hi : nat) (l : list A) : list A :=
  firstn (hi - lo) (skipn lo l).

Definition crop_band (box : nat * nat * nat * nat) (b : Band) : Band :=
  let '(x0, y0, x1, y1) := box in
  map (crop_list x0 x1) (crop_list y0 y1 b).

Definition crop (im : Image) (box : nat * nat * nat * nat) : Image :=
  let '(x0, y0, x1, y1) := box in
  mkImage (mode im) (x1 - x0) (y1 - y0)
          (map (crop_band box) (bands im)).

(** ** [ImageStat.Stat(...).rms]: per band, the square root of the mean
    of the squared samples; a picture without pixels divides by zero. *)
Definition sum2 (samples : list Z) : Z :=
  fold_right (fun v acc => v * v + acc)%Z 0%Z samples.

Definition count (samples : list Z) : Z := Z.of_nat (length samples).

Definition rms_of (samples : list Z) : R :=
  sqrt (IZR (sum2 samples) / IZR (count samples)).

Definition samples_rms (samples : list Z) : option R :=
  if (count samples =? 0)%Z then None else Some (rms_of samples).

Definition band_rms (b : Band) : option R := samples_rms (concat b).

Fixpoint traverse {A : Type} (l : list (option A)) : option (list A) :=
  match l with
  | [] => Some []
  | None :: _ => None
  | Some x :: l' =>
      match traverse l' with
      | Some xs => Some (x :: xs)
      | None => None
      end
  end.

Definition stat_rms (im : Image) : option (list R) :=
  traverse (map band_rms (bands im)).

End Pil.

(* ================================================================== *)
(** * The GUI toolkit: images and the posted-event queue *)

Module Qt.

Definition white : Z := 0xffffff.

(** A [QImage] in [Format_RGB888]: [q_height] rows of [q_width] pixels,
    each pixel a 24-bit colour. *)
Record QImage : Type := mkQImage {
  q_width : nat;
  q_height : nat;
  q_rows : list (list Z)
}.

(** [QImage(w, h, format)] followed by [fill(colour)]. *)
Definition filled (w h : nat) (colour : Z) : QImage :=
  mkQImage w h (repeat (repeat colour w) h).

Definition valid (q : QImage) (x y : Z) : bool :=
  ((0 <=? x) && (x <? Z.of_nat (q_width q))
   && (0 <=? y) && (y <? Z.of_nat (q_height q)))%Z.

Fixpoint set_nth {A : Type} (n : nat) (v : A) (l : list A) : list A :=
  match l, n with
  | [], _ => []
  | _ :: l', O => v :: l'
  | a :: l', S n' => a :: set_nth n' v l'
  end.

(** [setPixel]: coordinates outside the image are refused (the toolkit
    warns and leaves the image as it is). *)
Definition setPixel (q : QImage) (x y : Z) (colour : Z) : QImage :=
  if valid q x y then
    let row := nth (Z.to_nat y) (q_rows q) [] in
    mkQImage (q_width q) (q_height q)
             (set_nth (Z.to_nat y) (set_nth (Z.to_nat x) colour row)
                      (q_rows q))
  else q.

Definition pixel (q : QImage) (x y : Z) : Z :=
  nth (Z.to_nat x) (nth (Z.to_nat y) (q_rows q) []) 0%Z.

Definition wf_qimage (q : QImage) : bool :=
  (length (q_rows q) =? q_height q)
  && forallb (fun row => length row =? q_width q) (q_rows q).

(** What reaches the handler through its thread's event queue: the two
    slots, invoked through queued connections, and its own [do_next]
    event. *)
Inductive QEvent : Type := SlotOneShot | SlotContinuous | DoNext.

Definition NormalEventPriority : Z := 0.
Definition LowEventPriority : Z := -1.

(** [postEvent]: the queue is kept in descending priority, and events of
    equal priority stay in posting order. *)
Fixpoint postEvent (ev : QEvent) (priority : Z) (q : list (Z * QEvent))
  : list (Z * QEvent) :=
  match q with
  | [] => [(priority, ev)]
  | (p, e) :: q' =>
      if (p <? priority)%Z then (priority, ev) :: q
      else (p, e) :: postEvent ev priority q'
  end.

End Qt.

(* ================================================================== *)
(** * Histogram rendering and focus measurement (the arithmetic of
      [_do_capture]) *)

Module Metrics.
Import Pil Qt.

Definition log10 (x : R) : R := (ln x / ln 10)%R.

(** Lines 139-140 in exact arithmetic: the length of the bar of a bin
    holding [count] when the fullest bin of the band holds [max_count],
    as the formula gives it. *)
Definition bar_length (count max_count : Z) : R :=
  let max_value := IZR (1 + max_count) in
  let y := (IZR (1 + count) / max_value)%R in
  (98 * Rmax 0 (1 + log10 y / 5))%R.

(** Truncation towards zero, of a real number. *)
Definition to_int (r : R) : Z :=
  if Rle_dec 0 r then Int_part r else (- Int_part (- r))%Z.

(** Python's [max] of a list; the empty list raises. *)
Definition py_max (l : list Z) : option Z :=
  match l with
  | [] => None
  | a :: l' => Some (fold_left Z.max l' a)
  end.

(** The floating-point operations of lines 137-142.  The program
    computes in binary floating point, where every operation rounds its
    result; which values come out is left to the arithmetic: [of_int] is
    [float(n)] (and the literals [98.0], [0.0], [1.0], [5.0], which are
    integers), [flog10] is [math.log10], [fmax] is [max] of two floats,
    and [trunc] is the truncation of a float that is handed to an [int]
    parameter. *)
Class Arith : Type := mkArith {
  float : Type;
  of_int : Z -> float;
  fadd : float -> float -> float;
  fmul : float -> float -> float;
  fdiv : float -> float -> float;
  flog10 : float -> float;
  fmax : float -> float -> float;
  trunc : float -> Z
}.

(** Arithmetic without rounding: the real numbers. *)
Definition exact : Arith :=
  {| float := R; of_int := IZR; fadd := Rplus; fmul := Rmult;
     fdiv := Rdiv; flog10 := log10; fmax := Rmax; trunc := to_int |}.

Definition colours : list Z := [0xff0000; 0x00ff00; 0x0000ff]%Z.

(** The ratio [y] of line 139, in exact arithmetic. *)
Definition ratio (count max_count : Z) : R :=
  (IZR (1 + count) / IZR (1 + max_count))%R.

Section Drawing.
Context {FP : Arith}.

(** Lines 137, 139 and 140: the value of [y] for a bin holding [count]
    when the fullest bin of the band holds [max_count]. *)
Definition bar (count max_count : Z) : float :=
  let max_value := of_int (1 + max_count) in
  let y := fdiv (of_int (1 + count)) max_value in
  fmul (of_int 98)
       (fmax (of_int 0) (fadd (of_int 1) (fdiv (flog10 y) (of_int 5)))).

(** Lines 139-142: the body of the inner loop, for bin [x]. *)
Definition draw_bin (band_hist : list Z) (max_count : Z) (colour : Z)
           (q_image : QImage) (x : nat) : QImage :=
  let y := bar (nth x band_hist 0%Z) max_count in
  let q_image := setPixel q_image (trunc y) (Z.of_nat x) colour in
  setPixel q_image (trunc (fadd y (of_int 1))) (Z.of_nat x) colour.

(** Line 138: the inner loop, over the bins of one band. *)
Definition draw_bins (band_hist : list Z) (max_count : Z) (colour : Z)
           (q_image : QImage) : QImage :=
  fold_left (draw_bin band_hist max_count colour)
            (seq 0 (length band_hist)) q_image.

(** The two columns that the loop body sets in row [x]: is [k] one of
    them? *)
Definition marked (band_hist : list Z) (max_count : Z) (x : nat) (k : Z)
  : bool :=
  let y := bar (nth x band_hist 0%Z) max_count in
  ((trunc y =? k) || (trunc (fadd y (of_int 1)) =? k))%Z.

(** Lines 134-144: the loop over the three colours.  The state is the
    image, the clipping list and [start]; [None] is the exception that
    [max] raises on an empty slice. *)
Definition draw_colour (histogram : list Z)
           (st : option (QImage * list Z * nat)) (colour : Z)
  : option (QImage * list Z * nat) :=
  match st with
  | None => None
  | Some (q_image, clipping, start) =>
      let stop := start + 256 in
      let band_hist := firstn (stop - start) (skipn start histogram) in
      match py_max band_hist with
      | None => None
      | Some m =>
          Some (draw_bins band_hist m colour q_image,
                clipping ++ [last band_hist 0%Z],
                stop)
      end
  end.

(** Lines 129-144: the histogram image and the clipping counts. *)
Definition draw_histogram (histogram : list Z) : option (QImage * list Z) :=
  match fold_left (draw_colour histogram) colours
                  (Some (filled 100 256 white, [], 0)) with
  | Some (q_image, clipping, _) => Some (q_image, clipping)
  | None => None
  end.

End Drawing.

(** The 256 bins of channel [ch] in the histogram of a frame. *)
Definition channel_hist (histogram : list Z) (ch : nat) : list Z :=
  firstn 256 (skipn (256 * ch) histogram).

(** Channel [ch] is drawn as bars: in the row of every bin, every
    position from the start of the row up to the bar length has the
    colour of the channel (in exact arithmetic). *)
Definition drawn_as_bars (histogram : list Z) (ch : nat) : Prop :=
  forall q_image clipping colour m,
    draw_histogram (FP := exact) histogram = Some (q_image, clipping) ->
    nth_error colours ch = Some colour ->
    py_max (channel_hist histogram ch) = Some m ->
    forall (x : nat) (k : Z),
      (x < 256)%nat ->
      (0 <= IZR k <= bar_length (nth x (channel_hist histogram ch) 0%Z) m)%R ->
      pixel q_image k (Z.of_nat x) = colour.

(** Lines 156-157: [rms[n] += h_rms[n]] for every index of [rms]; both
    lists have one entry per band. *)
Definition add_into (rms h_rms : list R) : list R :=
  map (fun p => (fst p + snd p)%R) (combine rms h_rms).

(** Lines 148-157: the focus measurement; [None] is the division by
    zero of the statistics of a picture without pixels. *)
Definition focus_measure (image : Image) : option (list R) :=
  let w := size_w image in
  let h := size_h image in
  let shifted := offset image 1 0 in
  let diff := crop (difference image shifted) (1, 0, w, h) in
  match stat_rms diff with
  | None => None
  | Some h_rms =>
      let shifted := offset image 0 1 in
      let diff := crop (difference image shifted) (0, 1, w, h) in
      match stat_rms diff with
      | None => None
      | Some rms => Some (add_into rms h_rms)
      end
  end.

(** ** What offset, difference and crop leave: the differences between
    neighbouring samples, in the order of the library's lists.  (The
    score as the description words it, from pixel positions, is in
    [Description].) *)
Definition neighbour_diffs (row : list Z) : list Z :=
  map absdiff (combine (tl row) row).

Definition horizontal_diffs (b : Band) : list Z :=
  concat (map neighbour_diffs b).

Definition vertical_diffs (b : Band) : list Z :=
  concat (map difference_row (combine (tl b) b)).

Definition focus_score_band (b : Band) : R :=
  (rms_of (vertical_diffs b) + rms_of (horizontal_diffs b))%R.

Definition focus_score (image : Image) : list R :=
  map focus_score_band (bands image).

End Metrics.

(* ================================================================== *)
(** * [CameraHandler] *)

Module Handler.
Import Gp Pil Qt Metrics.

(** What the handler does to the outside: calls into the camera
    library, lines printed, signals emitted. *)
Inductive Effect : Type :=
| CameraInit
| CameraGetConfig
| CameraSetConfig (config : CameraWidget)
| CameraExit
| CapturePreview
| Printed (msg : string)
| NewImage (w h : nat) (data : list Z)
| NewHistogram (q_image : QImage)
| NewFocus (rms : list R)
| NewClipping (clipping : list Z).

Definition is_signal (e : Effect) : bool :=
  match e with
  | NewImage _ _ _ | NewHistogram _ | NewFocus _ | NewClipping _ => true
  | _ => false
  end.

Definition is_capture (e : Effect) : bool :=
  match e with CapturePreview => true | _ => false end.

(** The handler's attributes ([running], [config], [image_data]) and its
    surroundings: the number of preview captures made so far, the
    effects so far (oldest first) and the posted events of its thread. *)
Record World : Type := mkWorld {
  running : bool;
  config : CameraWidget;
  image_data : option (list Z);
  shots : nat;
  trace : list Effect;
  queue : list (Z * QEvent)
}.

(** The camera: the result of the n-th call of
    [gp_camera_capture_preview], as an error code and the decoded
    picture ([None]: data that does not decode). *)
Definition Camera : Type := nat -> Z * option Image.

Inductive Result (A : Type) : Type :=
| Ok (a : A) (w : World)
| Raise (exn : string) (w : World).
Arguments Raise {A} exn w.

Definition M (A : Type) : Type := World -> Result A.

Definition ret {A : Type} (a : A) : M A := fun w => Ok a w.

Definition bind {A B : Type} (m : M A) (f : A -> M B) : M B :=
  fun w =>
    match m w with
    | Ok a w' => f a w'
    | Raise exn w' => Raise exn w'
    end.

Definition raise {A : Type} (exn : string) : M A := fun w => Raise exn w.

Declare Scope handler_scope.
Delimit Scope handler_scope with handler.
Notation "x <- m ;; k" := (bind m (fun x => k))
  (at level 61, m at next level, right associativity) : handler_scope.
Notation "m ;; k" := (bind m (fun _ => k))
  (at level 61, right associativity) : handler_scope.
Local Open Scope handler_scope.

Definition world_of {A : Type} (r : Result A) : World :=
  match r with Ok _ w => w | Raise _ w => w end.

Definition get_running : M bool := fun w => Ok (running w) w.
Definition get_config : M CameraWidget := fun w => Ok (config w) w.

Definition set_running (b : bool) : M unit := fun w =>
  Ok tt (mkWorld b (config w) (image_data w) (shots w) (trace w) (queue w)).

Definition set_config (c : CameraWidget) : M unit := fun w =>
  Ok tt (mkWorld (running w) c (image_data w) (shots w) (trace w) (queue w)).

Definition set_image_data (d : list Z) : M unit := fun w =>
  Ok tt (mkWorld (running w) (config w) (Some d) (shots w) (trace w)
                 (queue w)).

Definition effect (e : Effect) : M unit := fun w =>
  Ok tt (mkWorld (running w) (config w) (image_data w) (shots w)
                 (trace w ++ [e]) (queue w)).

Definition post (ev : QEvent) (priority : Z) : M unit := fun w =>
  Ok tt (mkWorld (running w) (config w) (image_data w) (shots w) (trace w)
                 (postEvent ev priority (queue w))).

(** [gp_camera_capture_preview]: one more call to the camera. *)
Definition gp_camera_capture_preview (cam : Camera)
  : M (Z * option Image) := fun w =>
  Ok (cam (shots w))
     (mkWorld (running w) (config w) (image_data w) (S (shots w))
              (trace w ++ [CapturePreview]) (queue w)).

(** Lines 57-76.  [camera_config] is the tree that [get_config] gives. *)
Definition init (camera_config : CameraWidget) : Result unit :=
  (effect CameraInit ;;
   effect CameraGetConfig ;;
   let '(OK, capture_size_class) :=
     gp_widget_get_child_by_name camera_config "capturesizeclass" in
   if (OK >=? GP_OK)%Z then
     match capture_size_class with
     | Some widget =>
         match get_choice widget 2 with
         | Some value =>
             match set_child_value camera_config "capturesizeclass" value
             with
             | Some config' =>
                 set_config config' ;;
                 effect (CameraSetConfig config')
             | None => raise "GPhoto2Error"
             end
         | None => raise "GPhoto2Error"
         end
     | None => raise "AttributeError"
     end
   else ret tt)
    (mkWorld false camera_config None 0 [] []).

(** Lines 160-171. *)
Definition _check_config : M bool :=
  config <- get_config ;;
  let '(OK, image_format) :=
    gp_widget_get_child_by_name config "imageformat" in
  if (OK >=? GP_OK)%Z then
    match image_format with
    | Some widget =>
        let value := get_value widget in
        if PyStr.contains "raw" (PyStr.lower value) then
          effect (Printed "Cannot preview raw images") ;;
          ret false
        else ret true
    | None => raise "AttributeError"
    end
  else ret true.

(** What follows runs [_do_capture], in whatever arithmetic the
    histogram is drawn. *)
Section Program.
Context {FP : Arith}.

(** Lines 115-158. *)
Definition _do_capture (cam : Camera) : M unit :=
  r <- gp_camera_capture_preview cam ;;
  let '(OK, camera_file) := r in
  if (OK <? GP_OK)%Z then
    effect (Printed "Failed to capture") ;;
    set_running false ;;
    ret tt
  else
    match camera_file with
    | None => raise "IOError"
    | Some image =>
        match tobytes_raw_RGB image with
        | None => raise "ValueError"
        | Some data =>
            set_image_data data ;;
            effect (NewImage (size_w image) (size_h image) data) ;;
            match draw_histogram (histogram image) with
            | None => raise "ValueError"
            | Some (q_image, clipping) =>
                effect (NewHistogram q_image) ;;
                effect (NewClipping clipping) ;;
                match focus_measure image with
                | None => raise "ZeroDivisionError"
                | Some rms => effect (NewFocus rms)
                end
            end
        end
    end.

(** Lines 107-113. *)
Definition _do_continuous (cam : Camera) : M unit :=
  r <- get_running ;;
  if negb r then ret tt
  else
    _do_capture cam ;;
    post DoNext (LowEventPriority - 1).

(** Lines 78-84. *)
Definition one_shot (cam : Camera) : M unit :=
  r <- get_running ;;
  if r then ret tt
  else
    ok <- _check_config ;;
    if negb ok then ret tt
    else _do_capture cam.

(** Lines 86-94. *)
Definition continuous (cam : Camera) : M unit :=
  r <- get_running ;;
  if r then set_running false ;; ret tt
  else
    ok <- _check_config ;;
    if negb ok then ret tt
    else
      set_running true ;;
      _do_continuous cam.

(** Lines 96-98. *)
Definition shut_down : M unit :=
  set_running false ;;
  effect CameraExit.

(** Lines 100-105, for the events that reach the handler; a slot
    invocation is an event of the toolkit's own. *)
Definition event (cam : Camera) (ev : QEvent) : M unit :=
  match ev with
  | DoNext => _do_continuous cam
  | SlotOneShot => one_shot cam
  | SlotContinuous => continuous cam
  end.

(** A click on a button: the connected slot is queued for the handler's
    thread. *)
Definition click (ev : QEvent) (w : World) : World :=
  world_of (post ev NormalEventPriority w).

(** One turn of the event loop of the handler's thread: the first
    posted event is delivered.  An exception that leaves a slot is
    reported by the toolkit and the loop goes on. *)
Definition take (w : World) : option (QEvent * World) :=
  match queue w with
  | [] => None
  | (_, ev) :: q' =>
      Some (ev, mkWorld (running w) (config w) (image_data w) (shots w)
                        (trace w) q')
  end.

Definition step (cam : Camera) (w : World) : option World :=
  match take w with
  | None => None
  | Some (ev, w') => Some (world_of (event cam ev w'))
  end.

(** The loop, until the queue is empty or [fuel] turns are done. *)
Fixpoint run (cam : Camera) (fuel : nat) (w : World) : World :=
  match fuel with
  | O => w
  | S fuel' =>
      match step cam w with
      | None => w
      | Some w' => run cam fuel' w'
      end
  end.

(** The worlds the program can be in: after [init], clicks and turns of
    the event loop in any order. *)
Inductive reachable (cam : Camera) (w0 : World) : World -> Prop :=
| reach_start : reachable cam w0 w0
| reach_click : forall w ev,
    reachable cam w0 w -> ev <> DoNext -> reachable cam w0 (click ev w)
| reach_step : forall w w',
    reachable cam w0 w -> step cam w = Some w' -> reachable cam w0 w'.

End Program.

(** [w] with further effects at the end of its trace. *)
Definition logged (w : World) (es : list Effect) : World :=
  mkWorld (running w) (config w) (image_data w) (shots w) (trace w ++ es)
          (queue w).

(** The active image-format setting indicates RAW output: the tree has
    an [imageformat] item and its value mentions raw, in any case. *)
Definition raw_format (c : CameraWidget) : Prop :=
  exists widget,
    find_child c "imageformat" = Some widget
    /\ PyStr.contains "raw" (PyStr.lower (get_value widget)) = true.

(** The lookup of a setting fails. *)
Definition lookup_fails (c : CameraWidget) (name : string) : Prop :=
  (fst (gp_widget_get_child_by_name c name) < GP_OK)%Z.

(** The n-th preview capture fails. *)
Definition capture_fails (cam : Camera) (n : nat) : Prop :=
  (fst (cam n) < GP_OK)%Z.

(** [w] after a preview capture that failed: one more call, the
    message, and [running] cleared. *)
Definition failed (w : World) : World :=
  mkWorld false (config w) (image_data w) (S (shots w))
          (trace w ++ [CapturePreview; Printed "Failed to capture"])
          (queue w).

(** [w] with no event left in the queue. *)
Definition emptied (w : World) : World :=
  mkWorld (running w) (config w) (image_data w) (shots w) (trace w) [].

(** The signals emitted so far. *)
Definition signals (w : World) : list Effect := filter is_signal (trace w).

(** [n] pending [do_next] events and nothing else. *)
Definition pending (n : nat) : list (Z * QEvent) :=
  repeat ((LowEventPriority - 1)%Z, DoNext) n.

End Handler.

(* ================================================================== *)
(** * Concrete cameras, configurations and pictures *)

Module Examples.
Import Gp Pil Qt Handler.
Local Open Scope string_scope.

Definition size_class : CameraWidget :=
  Widget "capturesizeclass" "Full Image"
         ["Full Image"; "Thumbnail"; "Compatibility Mode"] [].

Definition format_jpeg : CameraWidget :=
  Widget "imageformat" "Large Fine JPEG" ["Large Fine JPEG"; "RAW"] [].

Definition format_raw : CameraWidget :=
  Widget "imageformat" "RAW" ["Large Fine JPEG"; "RAW"] [].

Definition jpeg_config : CameraWidget :=
  Widget "main" "" [] [Widget "settings" "" [] [size_class];
                       Widget "imgsettings" "" [] [format_jpeg]].

Definition raw_config : CameraWidget :=
  Widget "main" "" [] [Widget "settings" "" [] [size_class];
                       Widget "imgsettings" "" [] [format_raw]].

Definition bare_config : CameraWidget :=
  Widget "main" "" [] [Widget "settings" "" [] []].

(** A camera whose capture size class has only two choices. *)
Definition two_sizes : CameraWidget :=
  Widget "capturesizeclass" "Full Image" ["Full Image"; "Thumbnail"] [].

Definition two_sizes_config : CameraWidget :=
  Widget "main" "" [] [Widget "settings" "" [] [two_sizes]; format_jpeg].

(** A 3 x 2 picture. *)
Definition picture : Image :=
  mkImage RGB 3 2
          [ [[10; 13; 17]; [10; 10; 255]];
            [[0; 0; 0]; [200; 100; 0]];
            [[255; 255; 255]; [255; 254; 255]] ]%Z.

(** A single saturated pixel. *)
Definition white_pixel : Image :=
  mkImage RGB 1 1 [ [[255]]; [[255]]; [[255]] ]%Z.

Definition cam_ok : Camera := fun _ => (GP_OK, Some picture).
Definition cam_fail : Camera := fun _ => ((-1)%Z, None).
(** The first capture fails, the later ones succeed. *)
Definition cam_recovers : Camera :=
  fun n => match n with O => ((-1)%Z, None) | S _ => (GP_OK, Some picture) end.

(** The preview succeeds but its data does not decode. *)
Definition cam_garbage : Camera := fun _ => (GP_OK, None).

(** A picture one pixel wide. *)
Definition thin_picture : Image :=
  mkImage RGB 1 2 [ [[10]; [20]]; [[0]; [0]]; [[255]; [255]] ]%Z.

Definition cam_thin : Camera := fun _ => (GP_OK, Some thin_picture).

(** A picture without any detail. *)
Definition grey_picture : Image :=
  mkImage RGB 2 2 [ [[128; 128]; [128; 128]];
                    [[128; 128]; [128; 128]];
                    [[128; 128]; [128; 128]] ]%Z.

Definition idle (c : CameraWidget) : World := mkWorld false c None 0 [] [].

Definition busy (c : CameraWidget) (n : nat) : World :=
  mkWorld true c None 0 [] (repeat ((LowEventPriority - 1)%Z, DoNext) n).

End Examples.

(* ================================================================== *)
(** * The configuration tree, loop by loop *)

Module GpLoops.
Import Gp.

(** The loop of [find_child] over the children of a widget. *)
Fixpoint find_first (l : list CameraWidget) (n : string)
  : option CameraWidget :=
  match l with
  | [] => None
  | c :: l' =>
      match find_child c n with
      | Some r => Some r
      | None => find_first l' n
      end
  end.

(** The loop of [set_child_value] over the children of a widget. *)
Fixpoint set_first (l : list CameraWidget) (n v : string)
  : option (list CameraWidget) :=
  match l with
  | [] => None
  | c :: l' =>
      match set_child_value c n v with
      | Some c' => Some (c' :: l')
      | None =>
          match set_first l' n v with
          | Some l'' => Some (c :: l'')
          | None => None
          end
      end
  end.

(** What a lookup shows of a setting: its name, value and choices. *)
Definition setting (w : CameraWidget) : string * string * list string :=
  match w with Widget n v cs _ => (n, v, cs) end.

End GpLoops.

(* ================================================================== *)
(** * Frames and queues met in normal operation *)

Module Normal.
Import Gp Pil Qt Handler.

(** A frame that [_do_capture] takes to the end: RGB, every band of the
    stated size, and at least 2 x 2 pixels. *)
Definition good_frame (im : Image) : bool :=
  wf_image im && (length (bands im) =? 3)
  && (2 <=? size_w im) && (2 <=? size_h im).

(** A camera whose every preview succeeds with a good frame. *)
Definition steady (cam : Camera) : Prop :=
  forall n, exists OK im,
      cam n = (OK, Some im) /\ (GP_OK <= OK)%Z /\ good_frame im = true.

(** Neither a signal nor a call for a preview. *)
Definition quiet (e : Effect) : bool :=
  negb (is_signal e) && negb (is_capture e).

(** [w] with another flag and further effects. *)
Definition touched (w : World) (r : bool) (es : list Effect) : World :=
  mkWorld r (config w) (image_data w) (shots w) (trace w ++ es) (queue w).

Definition is_slot (ev : QEvent) : bool :=
  match ev with DoNext => false | _ => true end.

(** A queue of clicks, oldest first, followed by [n] [do_next] events. *)
Definition clicks_then_pending (slots : list QEvent) (n : nat)
  : list (Z * QEvent) :=
  map (fun ev => (NormalEventPriority, ev)) slots ++ pending n.

Section Signals.
Context {FP : Metrics.Arith}.

(** The signals that one run of [_do_capture] can add to the trace, by
    the point it reaches. *)
Inductive capture_signals (im : Image) : list Effect -> Prop :=
| signals_image : forall data,
    tobytes_raw_RGB im = Some data ->
    capture_signals im [NewImage (size_w im) (size_h im) data]
| signals_clipping : forall data q_image clipping,
    tobytes_raw_RGB im = Some data ->
    Metrics.draw_histogram (histogram im) = Some (q_image, clipping) ->
    capture_signals im [NewImage (size_w im) (size_h im) data;
                        NewHistogram q_image; NewClipping clipping]
| signals_all : forall data q_image clipping rms,
    tobytes_raw_RGB im = Some data ->
    Metrics.draw_histogram (histogram im) = Some (q_image, clipping) ->
    Metrics.focus_measure im = Some rms ->
    capture_signals im [NewImage (size_w im) (size_h im) data;
                        NewHistogram q_image; NewClipping clipping;
                        NewFocus rms].

End Signals.

End Normal.

(* ================================================================== *)
(** * Frames compared: still channels and brightness *)

Module Frames.
Import Pil Metrics.

(** No sample of the band differs from its left or upper neighbour. *)
Definition still (b : Band) : Prop :=
  Forall (fun d => d = 0%Z) (vertical_diffs b ++ horizontal_diffs b).

(** The range of a sample. *)
Definition byte (d : Z) : Prop := (0 <= d <= 255)%Z.

(** The same frame with [d] added to every sample. *)
Definition brighten_band (d : Z) (b : Band) : Band :=
  map (map (Z.add d)) b.

Definition brighten (d : Z) (im : Image) : Image :=
  mkImage (mode im) (size_w im) (size_h im)
          (map (brighten_band d) (bands im)).

End Frames.

(* ================================================================== *)
(** * [MainWindow]: the clipping label *)

Module MainWindow.
Local Open Scope string_scope.

(** ['{:d}'.format(x)]: the decimal digits, with a minus sign for a
    negative number. *)
Definition format_d (x : Z) : string :=
  DecimalString.NilZero.string_of_int (Z.to_int x).

(** [sep.join(items)]. *)
Fixpoint join (sep : string) (items : list string) : string :=
  match items with
  | [] => ""
  | [x] => x
  | x :: rest => x ++ sep ++ join sep rest
  end.

(** Lines 243-246: the text that the slot [new_clipping] sets on the
    label. *)
Definition new_clipping (clipping : list Z) : string :=
  join ", " (map format_d clipping).

(** ** Reading the label back *)

Definition push (c : ascii) (ts : list string) : list string :=
  match ts with
  | t :: ts' => String c t :: ts'
  | [] => [String c ""]
  end.

Definition prepend (x : string) (ts : list string) : list string :=
  match ts with
  | t :: ts' => (x ++ t) :: ts'
  | [] => [x]
  end.

(** The pieces of a text between the separators [", "]. *)
Fixpoint tokens (s : string) : list string :=
  match s with
  | "" => [""]
  | String c s' =>
      match s' with
      | String c' s'' =>
          if ((c =? ",") && (c' =? " "))%char then "" :: tokens s''
          else push c (tokens s')
      | "" => push c (tokens s')
      end
  end.

Definition parse_d (s : string) : option Z :=
  option_map Z.of_int (DecimalString.NilZero.int_of_string s).

Definition read_clipping (text : string) : option (list Z) :=
  match text with
  | "" => Some []
  | _ => Pil.traverse (map parse_d (tokens text))
  end.

Fixpoint comma_free (s : string) : Prop :=
  match s with
  | "" => True
  | String c s' => c <> ","%char /\ comma_free s'
  end.

End MainWindow.

(* ================================================================== *)
(** * The description's words: the focus score from pixel positions, and
      the coloured pixels of a row of the histogram image *)

Module Description.
Import Pil Qt.

(** Sample [(x, y)] of a channel. *)
Definition sample_at (b : Band) (x y : nat) : Z := nth x (nth y b []) 0%Z.

(** The absolute difference of two samples. *)
Definition abs_difference (p p' : Z) : Z :=
  if (p <? p')%Z then (p' - p)%Z else (p - p')%Z.

(** A copy shifted by [(dx, dy)] shows at [(x, y)] the pixel
    [(x - dx, y - dy)] of the picture; the two overlap where
    [dx <= x < w] and [dy <= y < h]. *)
Definition overlap (w h dx dy : nat) : list (nat * nat) :=
  flat_map (fun y => map (fun x => (x, y)) (seq dx (w - dx)))
           (seq dy (h - dy)).

(** The absolute differences between a channel and its shifted copy,
    over the overlap. *)
Definition shift_differences (w h : nat) (b : Band) (dx dy : nat)
  : list Z :=
  map (fun p => abs_difference (sample_at b (fst p) (snd p))
                               (sample_at b (fst p - dx) (snd p - dy)))
      (overlap w h dx dy).

Definition sum_of_squares (values : list Z) : R :=
  fold_right (fun v acc => (IZR v * IZR v + acc)%R) 0%R values.

Definition root_mean_square (values : list Z) : R :=
  sqrt (sum_of_squares values / INR (length values)).

(** The score of one channel: the horizontal value plus the vertical
    one. *)
Definition channel_score (w h : nat) (b : Band) : R :=
  (root_mean_square (shift_differences w h b 1 0)
   + root_mean_square (shift_differences w h b 0 1))%R.

Definition described_score (image : Image) : list R :=
  map (channel_score (size_w image) (size_h image)) (bands image).

(** The number of pixels in row [x] of an image that are not white. *)
Definition coloured (q : QImage) (x : nat) : nat :=
  length (filter (fun c => negb (c =? white)%Z) (nth x (q_rows q) [])).

End Description.

(* ================================================================== *)
(** * Properties of the handler *)

Unset Implicit Arguments.

Module HandlerFacts.
Import Gp Pil Qt Metrics Handler.

Ltac run_monad :=
  unfold one_shot, continuous, _do_continuous, _do_capture, _check_config,
    shut_down, bind, ret, raise, get_running, get_config, set_running,
    set_config, set_image_data, effect, post, gp_camera_capture_preview,
    world_of in *;
  simpl in *.

Section Arithmetic.
Context {FP : Metrics.Arith}.

Lemma lookup_fails_find c name :
  lookup_fails c name -> find_child c name = None.
Proof.
  unfold lookup_fails, gp_widget_get_child_by_name.
  destruct (find_child c name); simpl; unfold GP_OK; [lia | reflexivity].
Qed.

Lemma logged_nil w : logged w [] = w.
Proof. destruct w; unfold logged; simpl; now rewrite app_nil_r. Qed.

(** ** [_check_config] *)

Lemma check_config_raw w :
  raw_format (config w) ->
  _check_config w = Ok false (logged w [Printed "Cannot preview raw images"]).
Proof.
  intros (widget & Hf & Hraw). run_monad.
  unfold gp_widget_get_child_by_name. rewrite Hf. simpl.
  rewrite Hraw. reflexivity.
Qed.

Lemma check_config_missing w :
  lookup_fails (config w) "imageformat" -> _check_config w = Ok true w.
Proof.
  intros H. apply lookup_fails_find in H. run_monad.
  unfold gp_widget_get_child_by_name. rewrite H. reflexivity.
Qed.

(** [_check_config] answers, and touches nothing but the trace, where it
    can only print. *)
Lemma check_config_frame w :
  exists b es,
    _check_config w = Ok b (logged w es)
    /\ forallb (fun e => negb (is_signal e) && negb (is_capture e)) es
       = true.
Proof.
  run_monad. unfold gp_widget_get_child_by_name.
  destruct (find_child (config w) "imageformat") as [widget|]; simpl.
  - destruct (PyStr.contains "raw" (PyStr.lower (get_value widget))).
    + exists false, [Printed "Cannot preview raw images"]. now split.
    + exists true, []. split; [|reflexivity].
      now rewrite (logged_nil w).
  - exists true, []. split; [|reflexivity]. now rewrite (logged_nil w).
Qed.

(** ** [_do_capture] *)

Lemma do_capture_fail cam w :
  capture_fails cam (shots w) -> _do_capture cam w = Ok tt (failed w).
Proof.
  unfold capture_fails, failed. intros H. run_monad.
  destruct (cam (shots w)) as [OK camera_file]. simpl in H.
  apply Z.ltb_lt in H. rewrite H. simpl.
  rewrite <- app_assoc. reflexivity.
Qed.

(** Whatever the camera answers, [_do_capture] makes exactly one call
    to it, leaves the queue and the configuration alone, and clears
    [running] exactly when the call fails. *)
Lemma do_capture_frame cam w :
  let w' := world_of (_do_capture cam w) in
  shots w' = S (shots w)
  /\ queue w' = queue w
  /\ config w' = config w
  /\ running w' = (if (fst (cam (shots w)) <? GP_OK)%Z then false
                   else running w)
  /\ filter is_capture (trace w')
     = filter is_capture (trace w) ++ [CapturePreview].
Proof.
  assert (Hcap : forall (t es : list Effect),
             forallb (fun e => negb (is_capture e)) es = true ->
             filter is_capture ((t ++ [CapturePreview]) ++ es)
             = filter is_capture t ++ [CapturePreview]).
  { intros t es Hes. rewrite !filter_app. simpl.
    replace (filter is_capture es) with (@nil Effect);
      [now rewrite app_nil_r|].
    induction es as [|e es IH]; [reflexivity|]. simpl in *.
    apply andb_true_iff in Hes. destruct Hes as [He Hes].
    destruct (is_capture e); [discriminate|]. now apply IH. }
  run_monad. destruct (cam (shots w)) as [OK camera_file]. simpl.
  destruct (OK <? GP_OK)%Z; simpl.
  { repeat split. now apply (Hcap _ [Printed "Failed to capture"]). }
  destruct camera_file as [image|]; simpl.
  2:{ repeat split. now rewrite <- (Hcap (trace w) []), app_nil_r. }
  destruct (tobytes_raw_RGB image) as [data|]; simpl.
  2:{ repeat split. now rewrite <- (Hcap (trace w) []), app_nil_r. }
  destruct (draw_histogram (histogram image)) as [[q_image clipping]|];
    simpl.
  2:{ repeat split. now apply (Hcap _ [NewImage _ _ _]). }
  destruct (focus_measure image) as [rms|]; simpl; repeat split.
  - rewrite <- !app_assoc. rewrite app_assoc.
    now apply (Hcap _ [NewImage _ _ _; NewHistogram _; NewClipping _;
                       NewFocus _]).
  - rewrite <- !app_assoc. rewrite app_assoc.
    now apply (Hcap _ [NewImage _ _ _; NewHistogram _; NewClipping _]).
Qed.

Lemma quiet_no_signal es :
  forallb (fun e => negb (is_signal e) && negb (is_capture e)) es = true ->
  filter is_signal es = [].
Proof.
  induction es as [|e es IH]; simpl; [reflexivity|].
  intros H. apply andb_true_iff in H. destruct H as [He Hes].
  destruct (is_signal e); [discriminate|]. now apply IH.
Qed.

Lemma signals_failed w : signals (failed w) = signals w.
Proof.
  unfold signals, failed. simpl. rewrite filter_app. simpl.
  now rewrite app_nil_r.
Qed.

Lemma signals_logged w es :
  forallb (fun e => negb (is_signal e) && negb (is_capture e)) es = true ->
  signals (logged w es) = signals w.
Proof.
  intros H. unfold signals, logged. simpl.
  now rewrite filter_app, (quiet_no_signal es H), app_nil_r.
Qed.

(** ** [_do_continuous] and the slots *)

Lemma do_continuous_idle cam w :
  running w = false -> _do_continuous cam w = Ok tt w.
Proof. intros H. run_monad. now rewrite H. Qed.

Lemma do_continuous_running cam w :
  running w = true ->
  _do_continuous cam w
  = match _do_capture cam w with
    | Ok _ w' => post DoNext (LowEventPriority - 1) w'
    | Raise exn w' => Raise exn w'
    end.
Proof.
  intros H. unfold _do_continuous, bind, get_running. now rewrite H.
Qed.

Lemma one_shot_idle cam w :
  running w = false ->
  one_shot cam w
  = match _check_config w with
    | Ok true w' => _do_capture cam w'
    | Ok false w' => Ok tt w'
    | Raise exn w' => Raise exn w'
    end.
Proof.
  intros H. unfold one_shot, bind, get_running, ret. rewrite H.
  destruct (_check_config w) as [[|] w'|exn w']; reflexivity.
Qed.

Lemma continuous_idle cam w :
  running w = false ->
  continuous cam w
  = match _check_config w with
    | Ok true w' =>
        _do_continuous cam (world_of (set_running true w'))
    | Ok false w' => Ok tt w'
    | Raise exn w' => Raise exn w'
    end.
Proof.
  intros H. unfold continuous, bind, get_running, ret. rewrite H.
  destruct (_check_config w) as [[|] w'|exn w']; reflexivity.
Qed.

Lemma continuous_running cam w :
  running w = true ->
  continuous cam w
  = Ok tt (mkWorld false (config w) (image_data w) (shots w) (trace w)
                   (queue w)).
Proof. intros H. run_monad. now rewrite H. Qed.

Lemma one_shot_running cam w :
  running w = true -> one_shot cam w = Ok tt w.
Proof. intros H. run_monad. now rewrite H. Qed.

(** C9. While continuous mode is active ([running] is true), the
    single-shot slot does nothing: no configuration check, no capture,
    no signal, and the handler and its surroundings (trace, number of
    captures, event queue) are as before. *)
Theorem one_shot_ignored_while_running cam w :
  running w = true ->
  one_shot cam w = Ok tt w
  /\ world_of (event cam SlotOneShot w) = w.
Proof.
  intros H. cbn [event]. rewrite (one_shot_running cam w H).
  now split.
Qed.

(** C6. When the preview capture returns an error, [_do_capture] makes
    that one call, prints a message, clears [running] and returns
    normally; a single shot is just that; in continuous mode the event
    already due is still posted, and its delivery finds [running]
    cleared and captures nothing. *)
Theorem capture_error_non_fatal cam w :
  capture_fails cam (shots w) ->
  _do_capture cam w = Ok tt (failed w)
  /\ (running w = false -> _check_config w = Ok true w ->
      one_shot cam w = Ok tt (failed w))
  /\ (running w = true ->
      exists w',
        _do_continuous cam w = Ok tt w'
        /\ running w' = false
        /\ shots w' = S (shots w)
        /\ event cam DoNext w' = Ok tt w').
Proof.
  intros H. split; [now apply do_capture_fail|]. split.
  - intros Hr Hc. rewrite (one_shot_idle cam w Hr), Hc.
    now apply do_capture_fail.
  - intros Hr. rewrite (do_continuous_running cam w Hr).
    rewrite (do_capture_fail cam w H).
    eexists. split; [reflexivity|]. repeat split.
Qed.

(** C10. When the preview capture fails, none of the four signals
    ([new_image], [new_histogram], [new_focus], [new_clipping]) is
    emitted, by [_do_capture] or by whichever slot or event ran it. *)
Theorem capture_error_emits_nothing cam w ev :
  capture_fails cam (shots w) ->
  signals (world_of (_do_capture cam w)) = signals w
  /\ signals (world_of (event cam ev w)) = signals w.
Proof.
  intros H. split.
  { rewrite (do_capture_fail cam w H). apply signals_failed. }
  destruct (running w) eqn:Hr; destruct ev; simpl.
  - now rewrite (one_shot_running cam w Hr).
  - now rewrite (continuous_running cam w Hr).
  - rewrite (do_continuous_running cam w Hr), (do_capture_fail cam w H).
    apply signals_failed.
  - rewrite (one_shot_idle cam w Hr).
    destruct (check_config_frame w) as (b & es & Hc & Hes). rewrite Hc.
    destruct b; simpl; [|now apply signals_logged].
    rewrite (do_capture_fail cam (logged w es) H). simpl.
    now rewrite signals_failed, signals_logged.
  - rewrite (continuous_idle cam w Hr).
    destruct (check_config_frame w) as (b & es & Hc & Hes). rewrite Hc.
    destruct b; simpl; [|now apply signals_logged].
    rewrite do_continuous_running by reflexivity.
    rewrite do_capture_fail by exact H. simpl.
    unfold signals. simpl. rewrite !filter_app. simpl.
    now rewrite (quiet_no_signal es Hes), !app_nil_r.
  - now rewrite (do_continuous_idle cam w Hr).
Qed.

(** ** A RAW configuration *)

Lemma click_frame ev w :
  running (click ev w) = running w
  /\ config (click ev w) = config w
  /\ shots (click ev w) = shots w.
Proof. now repeat split. Qed.

Lemma step_raw cam w w' :
  running w = false -> raw_format (config w) -> step cam w = Some w' ->
  running w' = false /\ config w' = config w /\ shots w' = shots w.
Proof.
  intros Hr Hraw. unfold step, take.
  destruct (queue w) as [|[p ev] q']; [discriminate|].
  intros H. injection H as <-.
  set (w1 := mkWorld (running w) (config w) (image_data w) (shots w)
                     (trace w) q').
  assert (Hr1 : running w1 = false) by exact Hr.
  assert (Hraw1 : raw_format (config w1)) by exact Hraw.
  destruct ev; simpl.
  - rewrite (one_shot_idle cam w1 Hr1), (check_config_raw w1 Hraw1).
    simpl. now repeat split.
  - rewrite (continuous_idle cam w1 Hr1), (check_config_raw w1 Hraw1).
    simpl. now repeat split.
  - rewrite (do_continuous_idle cam w1 Hr1). simpl. now repeat split.
Qed.

(** With a RAW configuration the handler never starts running and the
    camera is never asked for a preview. *)
Lemma raw_never_runs cam w0 w :
  running w0 = false -> raw_format (config w0) -> reachable cam w0 w ->
  running w = false /\ config w = config w0 /\ shots w = shots w0.
Proof.
  intros Hr Hraw Hreach.
  induction Hreach as [|w ev Hreach IH Hev|w w' Hreach IH Hstep].
  - now repeat split.
  - destruct IH as (IH1 & IH2 & IH3). now repeat split.
  - destruct IH as (IH1 & IH2 & IH3).
    assert (Hraw' : raw_format (config w)) by now rewrite IH2.
    destruct (step_raw cam w w' IH1 Hraw' Hstep) as (A & B & C).
    repeat split; congruence.
Qed.

(** C4. With a configuration whose image-format setting indicates RAW,
    in every world the program can reach, the single-shot slot checks
    the format first, prints its message and returns: the camera is not
    asked for a preview (no call is added to the trace, and the number
    of captures made stays what it was at the start). *)
Theorem raw_format_blocks_one_shot cam w0 w :
  running w0 = false -> raw_format (config w0) -> reachable cam w0 w ->
  one_shot cam w = Ok tt (logged w [Printed "Cannot preview raw images"])
  /\ shots (world_of (one_shot cam w)) = shots w0.
Proof.
  intros Hr Hraw Hreach.
  destruct (raw_never_runs cam w0 w Hr Hraw Hreach) as (A & B & C).
  assert (Hraw' : raw_format (config w)) by now rewrite B.
  rewrite (one_shot_idle cam w A), (check_config_raw w Hraw').
  split; [reflexivity|exact C].
Qed.

(** ** Settings that the camera does not have *)

(** C8. A lookup that does not find its setting is skipped: without
    [capturesizeclass], [__init__] completes having only initialised
    the camera and fetched the tree (no value set, no [set_config]);
    without [imageformat], [_check_config] answers [True] with no
    effect, so that both slots go on to capture. *)
Theorem missing_setting_skipped cam c w :
  (lookup_fails c "capturesizeclass" ->
   init c = Ok tt (mkWorld false c None 0 [CameraInit; CameraGetConfig] []))
  /\ (lookup_fails (config w) "imageformat" ->
      _check_config w = Ok true w
      /\ (running w = false -> one_shot cam w = _do_capture cam w)
      /\ (running w = false ->
          continuous cam w
          = _do_continuous cam (world_of (set_running true w)))).
Proof.
  split.
  - intros H. apply lookup_fails_find in H.
    unfold init, gp_widget_get_child_by_name. rewrite H. reflexivity.
  - intros H. pose proof (check_config_missing w H) as Hc.
    split; [exact Hc|]. split; intros Hr.
    + now rewrite (one_shot_idle cam w Hr), Hc.
    + now rewrite (continuous_idle cam w Hr), Hc.
Qed.

(** ** Stopping continuous mode *)

Lemma post_pending n :
  postEvent DoNext (LowEventPriority - 1) (pending n) = pending (S n).
Proof.
  induction n as [|n IH]; [reflexivity|].
  change (pending (S n)) with (((LowEventPriority - 1)%Z, DoNext) :: pending n).
  cbn [postEvent]. rewrite Z.ltb_irrefl. now rewrite IH.
Qed.

Lemma click_pending ev n :
  postEvent ev NormalEventPriority (pending n)
  = (NormalEventPriority, ev) :: pending n.
Proof. destruct n; reflexivity. Qed.

Lemma step_head cam w p ev q :
  queue w = (p, ev) :: q ->
  step cam w
  = Some (world_of (event cam ev
                      (mkWorld (running w) (config w) (image_data w)
                               (shots w) (trace w) q))).
Proof. intros H. unfold step, take. now rewrite H. Qed.

(** Once [running] is cleared, the pending [do_next] events are
    delivered one by one and none of them captures or posts. *)
Lemma drain_idle cam n : forall w fuel,
  running w = false -> queue w = pending n -> n <= fuel ->
  run cam fuel w = emptied w.
Proof.
  induction n as [|n IH]; intros w fuel Hr Hq Hf.
  - destruct w as [r c d k t q]. simpl in *. subst q.
    destruct fuel; reflexivity.
  - destruct fuel as [|fuel]; [lia|].
    cbn [run]. rewrite (step_head cam w _ DoNext (pending n) Hq).
    cbn [event]. rewrite do_continuous_idle by exact Hr.
    cbn [world_of]. rewrite IH; [reflexivity|exact Hr|reflexivity|lia].
Qed.

(** A stop request at the head of the queue, with [n] events pending
    behind it. *)
Lemma stop_then_drain cam n w fuel :
  running w = true -> queue w = pending n -> S n <= fuel ->
  run cam fuel (click SlotContinuous w)
  = mkWorld false (config w) (image_data w) (shots w) (trace w) [].
Proof.
  intros Hr Hq Hf. destruct fuel as [|fuel]; [lia|].
  assert (Hq' : queue (click SlotContinuous w)
                = (NormalEventPriority, SlotContinuous) :: pending n).
  { unfold click, post. cbn [world_of queue]. rewrite Hq.
    apply click_pending. }
  cbn [run]. rewrite (step_head cam _ _ _ _ Hq').
  cbn [event]. rewrite continuous_running by exact Hr.
  cbn [world_of].
  rewrite (drain_idle cam n); [reflexivity|reflexivity|reflexivity|lia].
Qed.

(** The turn of a [do_next] event while [running] is set: one capture,
    [running] cleared exactly when the capture fails, and at most one
    more event pending. *)
Lemma in_flight_frame cam n w :
  running w = true -> queue w = pending n ->
  let w' := world_of (event cam DoNext w) in
  running w' = negb (fst (cam (shots w)) <? GP_OK)%Z
  /\ shots w' = S (shots w)
  /\ (queue w' = pending n \/ queue w' = pending (S n)).
Proof.
  intros Hr Hq. simpl. rewrite (do_continuous_running cam w Hr).
  destruct (do_capture_frame cam w) as (A & B & C & D & _).
  rewrite Hr in D.
  assert (D' : running (world_of (_do_capture cam w))
               = negb (fst (cam (shots w)) <? GP_OK)%Z)
    by (rewrite D; now destruct (fst (cam (shots w)) <? GP_OK)%Z).
  destruct (_do_capture cam w) as [[] w'|exn w']; simpl in *.
  - repeat split; try assumption. right. rewrite B, Hq. apply post_pending.
  - repeat split; try assumption. left. congruence.
Qed.

(** C5, as the code has it.  A stop request issued while [running] is
    set and [n] capture events are pending: when the queue has run
    empty, at most [n + 1] further captures have been made, provided
    that a capture in flight does not fail.  Three ways for the request
    to arrive: (1) the [continuous] slot is delivered between two turns;
    (2) a capture is in flight, completes, and then the slot is
    delivered (a capture that fails clears the flag itself; the slot
    then finds continuous mode stopped and is a request to start, not
    to stop); (3) a capture is in flight while [shut_down] clears the
    flag from the other thread ([_do_capture] never reads the flag, so
    the clearing may be placed after the turn).  In each the pending
    events capture nothing, so that the count is 0 or 1. *)
Theorem stop_bounds_captures cam n w fuel :
  running w = true -> queue w = pending n -> n + 2 <= fuel ->
  (let w' := run cam fuel (click SlotContinuous w) in
   queue w' = [] /\ running w' = false /\ shots w' <= shots w + (n + 1))
  /\ (~ capture_fails cam (shots w) ->
      let w' := run cam fuel
                    (click SlotContinuous (world_of (event cam DoNext w))) in
      queue w' = [] /\ running w' = false
      /\ shots w' <= shots w + (n + 1))
  /\ (let w' := run cam fuel
                    (world_of (shut_down (world_of (event cam DoNext w)))) in
      queue w' = [] /\ running w' = false
      /\ shots w' <= shots w + (n + 1)).
Proof.
  intros Hr Hq Hf. split; [|split].
  - rewrite (stop_then_drain cam n w fuel Hr Hq) by lia. simpl.
    repeat split. lia.
  - intros Hok.
    assert (Hlt : (fst (cam (shots w)) <? GP_OK)%Z = false).
    { apply Z.ltb_ge. unfold capture_fails in Hok. lia. }
    destruct (in_flight_frame cam n w Hr Hq) as (A & B & [C|C]);
      rewrite Hlt in A.
    + rewrite (stop_then_drain cam n _ fuel A C) by lia.
      cbn [queue running shots]. rewrite B. repeat split. lia.
    + rewrite (stop_then_drain cam (S n) _ fuel A C) by lia.
      cbn [queue running shots]. rewrite B. repeat split. lia.
  - destruct (in_flight_frame cam n w Hr Hq) as (_ & B & C).
    set (w1 := world_of (event cam DoNext w)) in *.
    assert (Hs : shots (world_of (shut_down w1)) = S (shots w))
      by exact B.
    destruct C as [C|C].
    + rewrite (drain_idle cam n); [|reflexivity|exact C|lia].
      unfold emptied. cbn [queue running shots]. rewrite Hs.
      repeat split. lia.
    + rewrite (drain_idle cam (S n)); [|reflexivity|exact C|lia].
      unfold emptied. cbn [queue running shots]. rewrite Hs.
      repeat split. lia.
Qed.

End Arithmetic.

(** ** The theorems at concrete inputs, in exact arithmetic *)

#[local] Existing Instance Metrics.exact.

Lemma one_shot_ignored_while_running_witness :
  running (Examples.busy Examples.jpeg_config 1) = true
  /\ one_shot Examples.cam_ok (Examples.busy Examples.jpeg_config 1)
     = Ok tt (Examples.busy Examples.jpeg_config 1).
Proof.
  split; [reflexivity|].
  exact (proj1 (one_shot_ignored_while_running Examples.cam_ok
                  (Examples.busy Examples.jpeg_config 1) eq_refl)).
Defined.

Lemma capture_error_non_fatal_witness :
  capture_fails Examples.cam_fail (shots (Examples.idle Examples.jpeg_config))
  /\ _do_capture Examples.cam_fail (Examples.idle Examples.jpeg_config)
     = Ok tt (failed (Examples.idle Examples.jpeg_config)).
Proof.
  assert (H : capture_fails Examples.cam_fail
                (shots (Examples.idle Examples.jpeg_config)))
    by reflexivity.
  split; [exact H|].
  exact (proj1 (capture_error_non_fatal Examples.cam_fail
                  (Examples.idle Examples.jpeg_config) H)).
Defined.

Lemma capture_error_emits_nothing_witness :
  capture_fails Examples.cam_fail (shots (Examples.idle Examples.jpeg_config))
  /\ signals (world_of (event Examples.cam_fail SlotOneShot
                              (Examples.idle Examples.jpeg_config)))
     = signals (Examples.idle Examples.jpeg_config).
Proof.
  assert (H : capture_fails Examples.cam_fail
                (shots (Examples.idle Examples.jpeg_config)))
    by reflexivity.
  split; [exact H|].
  exact (proj2 (capture_error_emits_nothing Examples.cam_fail
                  (Examples.idle Examples.jpeg_config) SlotOneShot H)).
Defined.

Lemma raw_format_blocks_one_shot_witness :
  running (Examples.idle Examples.raw_config) = false
  /\ raw_format (config (Examples.idle Examples.raw_config))
  /\ reachable Examples.cam_ok (Examples.idle Examples.raw_config)
               (click SlotContinuous (Examples.idle Examples.raw_config))
  /\ shots (world_of
              (one_shot Examples.cam_ok
                 (click SlotContinuous
                    (Examples.idle Examples.raw_config)))) = 0.
Proof.
  assert (Hraw : raw_format (config (Examples.idle Examples.raw_config))).
  { exists Examples.format_raw. split; reflexivity. }
  assert (Hreach : reachable Examples.cam_ok
                     (Examples.idle Examples.raw_config)
                     (click SlotContinuous
                        (Examples.idle Examples.raw_config))).
  { apply reach_click; [apply reach_start|discriminate]. }
  split; [reflexivity|]. split; [exact Hraw|]. split; [exact Hreach|].
  exact (proj2 (raw_format_blocks_one_shot Examples.cam_ok
                  (Examples.idle Examples.raw_config) _
                  eq_refl Hraw Hreach)).
Defined.

Lemma missing_setting_skipped_witness :
  lookup_fails Examples.bare_config "capturesizeclass"
  /\ lookup_fails (config (Examples.idle Examples.bare_config)) "imageformat"
  /\ init Examples.bare_config
     = Ok tt (mkWorld false Examples.bare_config None 0
                      [CameraInit; CameraGetConfig] [])
  /\ _check_config (Examples.idle Examples.bare_config)
     = Ok true (Examples.idle Examples.bare_config).
Proof.
  assert (H1 : lookup_fails Examples.bare_config "capturesizeclass")
    by reflexivity.
  assert (H2 : lookup_fails (config (Examples.idle Examples.bare_config))
                            "imageformat") by reflexivity.
  pose proof (missing_setting_skipped Examples.cam_ok Examples.bare_config
                (Examples.idle Examples.bare_config)) as [A B].
  split; [exact H1|]. split; [exact H2|].
  split; [exact (A H1)|exact (proj1 (B H2))].
Defined.

Lemma stop_bounds_captures_witness :
  running (Examples.busy Examples.jpeg_config 2) = true
  /\ queue (Examples.busy Examples.jpeg_config 2) = pending 2
  /\ 2 + 2 <= 4
  /\ shots (run Examples.cam_ok 4
                (click SlotContinuous
                   (Examples.busy Examples.jpeg_config 2)))
     <= shots (Examples.busy Examples.jpeg_config 2) + (2 + 1).
Proof.
  split; [reflexivity|]. split; [reflexivity|]. split; [lia|].
  exact (proj2 (proj2 (proj1
           (stop_bounds_captures Examples.cam_ok 2
              (Examples.busy Examples.jpeg_config 2) 4
              eq_refl eq_refl (le_n 4))))).
Defined.

(** C5, as it is worded, fails.  Continuous mode is running with no
    capture event pending and a capture in flight when the stop request
    is issued.  The capture fails and clears [running] itself, so that
    the request, a toggle, is delivered as a request to start: 20 turns
    later 21 captures have been made since the request, where the bound
    is 0 + 1, and continuous mode is still running. *)
Lemma stop_request_restarts_after_failure :
  let w := Examples.busy Examples.jpeg_config 0 in
  let w' := run Examples.cam_recovers 20
                (click SlotContinuous
                   (world_of (event Examples.cam_recovers DoNext w))) in
  running w = true /\ queue w = pending 0
  /\ capture_fails Examples.cam_recovers (shots w)
  /\ running w' = true /\ shots w' = shots w + 21
  /\ ~ shots w' <= shots w + (0 + 1).
Proof.
  cbv zeta. split; [reflexivity|]. split; [reflexivity|].
  split; [reflexivity|]. split; [reflexivity|]. split; [reflexivity|].
  intros H. change (21 <= 1) in H. lia.
Qed.

End HandlerFacts.

(* ================================================================== *)
(** * Properties of the histogram rendering *)

Module HistogramFacts.
Import Pil Qt Metrics.

(** ** Images: reading a pixel after [setPixel] *)

Lemma nth_set_nth {A : Type} (l : list A) : forall i j v d,
  nth i (set_nth j v l) d
  = if ((i =? j) && (j <? length l))%nat then v else nth i l d.
Proof.
  induction l as [|a l IH]; intros i j v d.
  - replace (j <? length (@nil A))%nat with false by now destruct j.
    rewrite andb_false_r. now destruct i, j.
  - destruct j as [|j], i as [|i]; simpl; try reflexivity.
    rewrite IH. reflexivity.
Qed.

Lemma length_set_nth {A : Type} (l : list A) : forall j v,
  length (set_nth j v l) = length l.
Proof.
  induction l as [|a l IH]; intros [|j] v; simpl; auto.
Qed.

Lemma forallb_set_nth {A : Type} (P : A -> bool) (l : list A) :
  forall j v,
    forallb P l = true -> P v = true -> forallb P (set_nth j v l) = true.
Proof.
  induction l as [|a l IH]; intros [|j] v Hl Hv; simpl in *; auto.
  - apply andb_true_iff in Hl. destruct Hl as [_ Hl]. now rewrite Hv.
  - apply andb_true_iff in Hl. destruct Hl as [Ha Hl].
    rewrite Ha. simpl. now apply IH.
Qed.

Lemma wf_qimage_spec q :
  wf_qimage q = true ->
  length (q_rows q) = q_height q
  /\ forall y, (y < q_height q)%nat ->
               length (nth y (q_rows q) []) = q_width q.
Proof.
  unfold wf_qimage. intros H. apply andb_true_iff in H.
  destruct H as [Hh Hw]. apply Nat.eqb_eq in Hh. split; [exact Hh|].
  intros y Hy. rewrite forallb_forall in Hw.
  apply Nat.eqb_eq, Hw, nth_In. lia.
Qed.

Lemma valid_spec q x y :
  valid q x y = true
  <-> (0 <= x < Z.of_nat (q_width q) /\ 0 <= y < Z.of_nat (q_height q))%Z.
Proof.
  unfold valid. rewrite !andb_true_iff, !Z.leb_le, !Z.ltb_lt. lia.
Qed.

Lemma wf_filled w h colour : wf_qimage (filled w h colour) = true.
Proof.
  unfold wf_qimage, filled. simpl. rewrite repeat_length, Nat.eqb_refl.
  simpl. apply forallb_forall. intros row Hrow.
  apply repeat_spec in Hrow. subst. rewrite repeat_length.
  apply Nat.eqb_refl.
Qed.

Lemma wf_setPixel q x y colour :
  wf_qimage q = true -> wf_qimage (setPixel q x y colour) = true.
Proof.
  intros Hwf. unfold setPixel. destruct (valid q x y) eqn:V; [|exact Hwf].
  destruct (wf_qimage_spec q Hwf) as [Hh Hw].
  apply valid_spec in V.
  unfold wf_qimage in *. simpl. rewrite length_set_nth.
  apply andb_true_iff in Hwf. destruct Hwf as [H1 H2]. rewrite H1. simpl.
  apply forallb_set_nth; [exact H2|].
  rewrite length_set_nth. apply Nat.eqb_eq, Hw. lia.
Qed.

Lemma pixel_setPixel q x y colour k r :
  wf_qimage q = true -> valid q k r = true ->
  pixel (setPixel q x y colour) k r
  = if ((x =? k) && (y =? r))%Z then colour else pixel q k r.
Proof.
  intros Hwf Hkr. destruct (wf_qimage_spec q Hwf) as [Hh Hw].
  apply valid_spec in Hkr. unfold setPixel.
  destruct (valid q x y) eqn:V.
  - apply valid_spec in V. unfold pixel. simpl.
    rewrite nth_set_nth.
    destruct (Nat.eqb_spec (Z.to_nat r) (Z.to_nat y)) as [E|E];
      destruct (Z.eqb_spec y r) as [E'|E']; try lia; simpl.
    + subst r.
      destruct (Nat.ltb_spec (Z.to_nat y) (length (q_rows q))); [|lia].
      rewrite nth_set_nth, Hw by lia.
      destruct (Nat.eqb_spec (Z.to_nat k) (Z.to_nat x));
        destruct (Z.eqb_spec x k); try lia; simpl.
      * destruct (Nat.ltb_spec (Z.to_nat x) (q_width q)); [reflexivity|lia].
      * reflexivity.
    + rewrite andb_false_r. reflexivity.
  - destruct (Z.eqb_spec x k); destruct (Z.eqb_spec y r); simpl;
      try reflexivity.
    subst. assert (valid q k r = true) by now apply valid_spec.
    congruence.
Qed.

Lemma valid_setPixel q x y colour k r :
  valid (setPixel q x y colour) k r = valid q k r.
Proof. unfold setPixel. now destruct (valid q x y). Qed.

Section Arithmetic.
Context {FP : Arith}.

(** ** The inner loop *)

Lemma existsb_seq r n : existsb (Nat.eqb r) (seq 0 n) = (r <? n)%nat.
Proof.
  assert (H : forall s, existsb (Nat.eqb r) (seq s n)
                        = ((s <=? r) && (r <? s + n))%nat).
  { induction n as [|n IH]; intros s0; simpl.
    - destruct (Nat.leb_spec s0 r), (Nat.ltb_spec r (s0 + 0)); simpl;
        try reflexivity; lia.
    - rewrite IH.
      destruct (Nat.eqb_spec r s0), (Nat.leb_spec s0 r),
        (Nat.leb_spec (S s0) r), (Nat.ltb_spec r (S s0 + n)),
        (Nat.ltb_spec r (s0 + S n)); simpl; try reflexivity; lia. }
  rewrite H. simpl. reflexivity.
Qed.

Lemma draw_bins_pixel band_hist m colour xs : forall q k r,
  wf_qimage q = true -> valid q k (Z.of_nat r) = true ->
  let q' := fold_left (draw_bin band_hist m colour) xs q in
  wf_qimage q' = true
  /\ valid q' k (Z.of_nat r) = true
  /\ pixel q' k (Z.of_nat r)
     = if existsb (Nat.eqb r) xs && marked band_hist m r k then colour
       else pixel q k (Z.of_nat r).
Proof.
  induction xs as [|a xs IH]; intros q k r Hwf Hv;
    cbn [fold_left existsb]; cbv zeta.
  - now repeat split.
  - pose (y := bar (nth a band_hist 0%Z) m).
    pose (q1 := setPixel q (trunc y) (Z.of_nat a) colour).
    pose (q2 := setPixel q1 (trunc (fadd y (of_int 1))) (Z.of_nat a) colour).
    change (draw_bin band_hist m colour q a) with q2.
    assert (Hwf1 : wf_qimage q1 = true) by now apply wf_setPixel.
    assert (Hwf2 : wf_qimage q2 = true) by now apply wf_setPixel.
    assert (Hv1 : valid q1 k (Z.of_nat r) = true)
      by (unfold q1; now rewrite valid_setPixel).
    assert (Hv2 : valid q2 k (Z.of_nat r) = true)
      by (unfold q2; now rewrite valid_setPixel).
    destruct (IH q2 k r Hwf2 Hv2) as (A & B & C).
    split; [exact A|]. split; [exact B|]. rewrite C.
    unfold q2. rewrite (pixel_setPixel q1 _ _ _ k _ Hwf1 Hv1).
    unfold q1. rewrite (pixel_setPixel q _ _ _ k _ Hwf Hv).
    unfold marked.
    destruct (Nat.eqb_spec r a) as [E|E].
    + subst a. fold y. rewrite Z.eqb_refl, !andb_true_r. simpl.
      destruct (existsb (Nat.eqb r) xs); simpl;
        destruct (trunc y =? k)%Z, (trunc (fadd y (of_int 1)) =? k)%Z;
        reflexivity.
    + destruct (Z.eqb_spec (Z.of_nat a) (Z.of_nat r)); [lia|].
      rewrite !andb_false_r. simpl. reflexivity.
Qed.

Lemma draw_bins_spec band_hist m colour q k r :
  wf_qimage q = true -> valid q k (Z.of_nat r) = true ->
  wf_qimage (draw_bins band_hist m colour q) = true
  /\ valid (draw_bins band_hist m colour q) k (Z.of_nat r) = true
  /\ pixel (draw_bins band_hist m colour q) k (Z.of_nat r)
     = if (r <? length band_hist)%nat && marked band_hist m r k
       then colour else pixel q k (Z.of_nat r).
Proof.
  intros Hwf Hv. rewrite <- existsb_seq.
  exact (draw_bins_pixel band_hist m colour (seq 0 (length band_hist))
           q k r Hwf Hv).
Qed.

(** ** The loop over the colours *)

Lemma py_max_some l : l <> [] -> exists m, py_max l = Some m.
Proof. destruct l; [congruence|]. intros _. eexists. reflexivity. Qed.

Lemma fold_max_ge l : forall a c,
  (c = a \/ In c l) -> (c <= fold_left Z.max l a)%Z.
Proof.
  induction l as [|b l IH]; intros a c H; simpl.
  - destruct H as [->|[]]. lia.
  - destruct H as [->|[->|H]].
    + transitivity (Z.max a b); [lia|]. apply IH. now left.
    + transitivity (Z.max a c); [lia|]. apply IH. now left.
    + apply IH. now right.
Qed.

Lemma py_max_ge l m c : py_max l = Some m -> In c l -> (c <= m)%Z.
Proof.
  destruct l as [|a l]; [discriminate|]. simpl. intros H Hc.
  injection H as <-. apply fold_max_ge. destruct Hc; auto.
Qed.

Lemma last_nth {A : Type} (l : list A) d :
  last l d = nth (length l - 1) l d.
Proof.
  induction l as [|a l IH]; [reflexivity|].
  destruct l as [|b l]; [reflexivity|].
  change (last (a :: b :: l) d) with (last (b :: l) d). rewrite IH.
  simpl. now rewrite Nat.sub_0_r.
Qed.

Lemma slice_at {A : Type} (pre a post : list A) start n :
  length pre = start -> length a = n ->
  firstn (start + n - start) (skipn start (pre ++ a ++ post)) = a.
Proof.
  intros <- <-. rewrite Nat.add_comm, Nat.add_sub.
  rewrite skipn_app, skipn_all, Nat.sub_diag. simpl.
  rewrite firstn_app, firstn_all, Nat.sub_diag. simpl.
  apply app_nil_r.
Qed.

Lemma draw_colour_slice hist pre a post q cl colour m start :
  hist = pre ++ a ++ post -> length pre = start -> length a = 256%nat ->
  py_max a = Some m ->
  draw_colour hist (Some (q, cl, start)) colour
  = Some (draw_bins a m colour q, cl ++ [last a 0%Z], (start + 256)%nat).
Proof.
  intros -> Hpre Ha Hm. unfold draw_colour.
  rewrite (slice_at pre a post start 256 Hpre Ha), Hm. reflexivity.
Qed.

Lemma nonempty_256 {A : Type} (l : list A) : length l = 256%nat -> l <> [].
Proof. now destruct l. Qed.

(** The histogram image and the clipping list of a histogram of three
    bands. *)
Lemma draw_histogram_rgb a b c ma mb mc :
  length a = 256%nat -> length b = 256%nat -> length c = 256%nat ->
  py_max a = Some ma -> py_max b = Some mb -> py_max c = Some mc ->
  draw_histogram (a ++ b ++ c)
  = Some (draw_bins c mc 0x0000ff
            (draw_bins b mb 0x00ff00
               (draw_bins a ma 0xff0000 (filled 100 256 white))),
          [nth 255 a 0; nth 255 b 0; nth 255 c 0]%Z).
Proof.
  intros Ha Hb Hc Hma Hmb Hmc. unfold draw_histogram, colours.
  cbn [fold_left].
  rewrite (draw_colour_slice (a ++ b ++ c) [] a (b ++ c) _ _ _ ma 0
             eq_refl eq_refl Ha Hma).
  rewrite (draw_colour_slice (a ++ b ++ c) a b c _ _ _ mb _
             eq_refl Ha Hb Hmb).
  rewrite (draw_colour_slice (a ++ b ++ c) (a ++ b) c [] _ _ _ mc _);
    [ | now rewrite app_nil_r, app_assoc
      | rewrite length_app, Ha, Hb; reflexivity
      | exact Hc | exact Hmc ].
  rewrite !last_nth, Ha, Hb, Hc. reflexivity.
Qed.

(** Entry [256 * ch + x] of three bands put one after another. *)
Lemma nth_three (a b c : list Z) ch x :
  length a = 256%nat -> length b = 256%nat -> (x < 256)%nat ->
  (ch < 3)%nat ->
  nth (256 * ch + x) (a ++ b ++ c) 0%Z
  = nth x (nth ch [a; b; c] []) 0%Z.
Proof.
  intros Ha Hb Hx Hch.
  destruct ch as [|[|[|ch]]]; [| | |lia]; cbn [nth].
  - rewrite app_nth1 by lia. reflexivity.
  - replace (256 * 1 + x)%nat with (length a + x)%nat by lia.
    rewrite app_nth2_plus. rewrite app_nth1 by lia. reflexivity.
  - replace (256 * 2 + x)%nat with (length a + (length b + x))%nat by lia.
    now rewrite !app_nth2_plus.
Qed.

Lemma length_band_histogram b : length (band_histogram b) = 256%nat.
Proof. unfold band_histogram. now rewrite length_map, length_seq. Qed.

Lemma histogram_rgb image r g b :
  bands image = [r; g; b] ->
  histogram image
  = band_histogram r ++ band_histogram g ++ band_histogram b.
Proof.
  intros H. unfold histogram. rewrite H. cbn [flat_map].
  now rewrite app_nil_r.
Qed.

Lemma nth_band_histogram b v :
  (v < 256)%nat ->
  nth v (band_histogram b) 0%Z = count_value b (Z.of_nat v).
Proof.
  intros Hv. unfold band_histogram.
  rewrite (nth_indep _ 0%Z (count_value b (Z.of_nat 0)))
    by (rewrite length_map, length_seq; exact Hv).
  rewrite (map_nth (fun v => count_value b (Z.of_nat v))).
  now rewrite seq_nth by exact Hv.
Qed.

(** For an RGB frame the clipping list holds, for each of the three
    channels, the raw count of bin 255 of that channel's 256-bin
    histogram (entries 255, 511 and 767 of the histogram of the frame),
    which is the number of samples of value 255 in the channel. *)
Lemma clipping_of_frame image r g b :
  bands image = [r; g; b] ->
  exists q_image clipping,
    draw_histogram (histogram image) = Some (q_image, clipping)
    /\ clipping = [nth 255 (band_histogram r) 0;
                   nth 255 (band_histogram g) 0;
                   nth 255 (band_histogram b) 0]%Z
    /\ clipping = [nth 255 (histogram image) 0;
                   nth 511 (histogram image) 0;
                   nth 767 (histogram image) 0]%Z
    /\ clipping = [count_value r 255; count_value g 255;
                   count_value b 255].
Proof.
  intros H. rewrite (histogram_rgb image r g b H).
  destruct (py_max_some (band_histogram r)) as [mr Hr];
    [apply nonempty_256, length_band_histogram|].
  destruct (py_max_some (band_histogram g)) as [mg Hg];
    [apply nonempty_256, length_band_histogram|].
  destruct (py_max_some (band_histogram b)) as [mb Hb];
    [apply nonempty_256, length_band_histogram|].
  eexists. eexists. split.
  - apply (draw_histogram_rgb _ _ _ mr mg mb);
      auto using length_band_histogram.
  - split; [reflexivity|]. split.
    + rewrite (nth_three _ _ _ 0%nat 255), (nth_three _ _ _ 1%nat 255),
        (nth_three _ _ _ 2%nat 255);
        auto using length_band_histogram; lia.
    + now rewrite !nth_band_histogram by lia.
Qed.

(** ** The histogram image, pixel by pixel *)

Lemma pixel_filled w h colour k r :
  valid (filled w h colour) k r = true ->
  pixel (filled w h colour) k r = colour.
Proof.
  intros H. apply valid_spec in H. simpl in H.
  unfold pixel, filled. simpl.
  rewrite (nth_repeat_lt _ (m := h)) by lia.
  apply nth_repeat_lt. lia.
Qed.

Lemma draw_histogram_pixel a b c ma mb mc :
  length a = 256%nat -> length b = 256%nat -> length c = 256%nat ->
  py_max a = Some ma -> py_max b = Some mb -> py_max c = Some mc ->
  exists q_image,
    draw_histogram (a ++ b ++ c)
    = Some (q_image, [nth 255 a 0; nth 255 b 0; nth 255 c 0]%Z)
    /\ forall (x : nat) (k : Z),
         (x < 256)%nat -> (0 <= k < 100)%Z ->
         pixel q_image k (Z.of_nat x)
         = if marked c mc x k then 0x0000ff%Z
           else if marked b mb x k then 0x00ff00%Z
           else if marked a ma x k then 0xff0000%Z
           else white.
Proof.
  intros Ha Hb Hc Hma Hmb Hmc. eexists. split.
  - exact (draw_histogram_rgb a b c ma mb mc Ha Hb Hc Hma Hmb Hmc).
  - intros x k Hx Hk.
    assert (Hv : valid (filled 100 256 white) k (Z.of_nat x) = true).
    { apply valid_spec. simpl q_width. simpl q_height.
      change (Z.of_nat 100) with 100%Z. change (Z.of_nat 256) with 256%Z.
      lia. }
    pose proof (wf_filled 100 256 white) as Hwf.
    destruct (draw_bins_spec a ma 0xff0000%Z _ k x Hwf Hv)
      as (Hwf1 & Hv1 & P1).
    destruct (draw_bins_spec b mb 0x00ff00%Z _ k x Hwf1 Hv1)
      as (Hwf2 & Hv2 & P2).
    destruct (draw_bins_spec c mc 0x0000ff%Z _ k x Hwf2 Hv2)
      as (_ & _ & P3).
    rewrite P3, P2, P1, Ha, Hb, Hc, (pixel_filled _ _ _ _ _ Hv).
    destruct (Nat.ltb_spec x 256); [|lia]. reflexivity.
Qed.

Lemma band_histogram_range b m x :
  py_max (band_histogram b) = Some m -> (x < 256)%nat ->
  (0 <= nth x (band_histogram b) 0 <= m)%Z.
Proof.
  intros Hm Hx. split.
  - rewrite nth_band_histogram by exact Hx. unfold count_value. lia.
  - apply (py_max_ge _ _ _ Hm), nth_In.
    now rewrite length_band_histogram.
Qed.

(** The histogram image of an RGB frame, pixel by pixel: in the row of
    bin [x], column [k] has the colour of the last channel (blue over
    green over red) whose loop body set it, and is white when none
    did. *)
Lemma histogram_of_frame image r g b :
  bands image = [r; g; b] ->
  exists q_image clipping mr mg mb,
    draw_histogram (histogram image) = Some (q_image, clipping)
    /\ py_max (band_histogram r) = Some mr
    /\ py_max (band_histogram g) = Some mg
    /\ py_max (band_histogram b) = Some mb
    /\ (forall (x : nat) (k : Z),
          (x < 256)%nat -> (0 <= k < 100)%Z ->
          pixel q_image k (Z.of_nat x)
          = if marked (band_histogram b) mb x k then 0x0000ff%Z
            else if marked (band_histogram g) mg x k then 0x00ff00%Z
            else if marked (band_histogram r) mr x k then 0xff0000%Z
            else white).
Proof.
  intros H. rewrite (histogram_rgb image r g b H).
  destruct (py_max_some (band_histogram r)) as [mr Hr];
    [apply nonempty_256, length_band_histogram|].
  destruct (py_max_some (band_histogram g)) as [mg Hg];
    [apply nonempty_256, length_band_histogram|].
  destruct (py_max_some (band_histogram b)) as [mb Hb];
    [apply nonempty_256, length_band_histogram|].
  destruct (draw_histogram_pixel _ _ _ mr mg mb
              (length_band_histogram r) (length_band_histogram g)
              (length_band_histogram b) Hr Hg Hb) as (q & Hq & Hpix).
  exists q. eexists. exists mr, mg, mb.
  split; [exact Hq|]. split; [exact Hr|]. split; [exact Hg|].
  split; [exact Hb|]. exact Hpix.
Qed.

(** ** The size of the histogram image, and its rows *)

Lemma size_setPixel q x y colour :
  q_width (setPixel q x y colour) = q_width q
  /\ q_height (setPixel q x y colour) = q_height q.
Proof. unfold setPixel. now destruct (valid q x y). Qed.

Lemma size_draw_bin band_hist m colour q x :
  wf_qimage q = true ->
  wf_qimage (draw_bin band_hist m colour q x) = true
  /\ q_width (draw_bin band_hist m colour q x) = q_width q
  /\ q_height (draw_bin band_hist m colour q x) = q_height q.
Proof.
  intros Hwf. unfold draw_bin. cbv zeta.
  split; [now apply wf_setPixel, wf_setPixel|].
  split.
  - rewrite (proj1 (size_setPixel _ _ _ _)). apply size_setPixel.
  - rewrite (proj2 (size_setPixel _ _ _ _)). apply size_setPixel.
Qed.

Lemma size_draw_bins band_hist m colour q :
  wf_qimage q = true ->
  wf_qimage (draw_bins band_hist m colour q) = true
  /\ q_width (draw_bins band_hist m colour q) = q_width q
  /\ q_height (draw_bins band_hist m colour q) = q_height q.
Proof.
  unfold draw_bins. generalize (seq 0 (length band_hist)). intros xs.
  revert q. induction xs as [|a xs IH]; intros q Hwf; cbn [fold_left].
  - now repeat split.
  - destruct (size_draw_bin band_hist m colour q a Hwf) as (W & X & Y).
    destruct (IH _ W) as (W' & X' & Y').
    split; [exact W'|]. split; congruence.
Qed.

Lemma row_pixels q x :
  wf_qimage q = true -> (x < q_height q)%nat ->
  nth x (q_rows q) []
  = map (fun k => pixel q (Z.of_nat k) (Z.of_nat x)) (seq 0 (q_width q)).
Proof.
  intros Hwf Hx. destruct (wf_qimage_spec q Hwf) as [_ Hw].
  specialize (Hw x Hx).
  apply (nth_ext _ _ 0%Z (pixel q (Z.of_nat 0) (Z.of_nat x))).
  - now rewrite length_map, length_seq.
  - intros n Hn. rewrite Hw in Hn.
    rewrite (map_nth (fun k => pixel q (Z.of_nat k) (Z.of_nat x))).
    rewrite seq_nth by exact Hn. unfold pixel. now rewrite !Nat2Z.id.
Qed.

Lemma NoDup_map_of_nat l : NoDup l -> NoDup (map Z.of_nat l).
Proof.
  induction 1 as [|a l Ha Hl IH]; cbn [map]; constructor; [|exact IH].
  rewrite in_map_iff. intros (y & E & Hy).
  apply Nat2Z.inj in E. subst y. contradiction.
Qed.

(** At most [length cols] of the numbers below [n] pass a test that
    only members of [cols] pass. *)
Lemma few_pass (P : nat -> bool) (cols : list Z) n :
  (forall k, (k < n)%nat -> P k = true -> In (Z.of_nat k) cols) ->
  (length (filter P (seq 0 n)) <= length cols)%nat.
Proof.
  intros H. rewrite <- (length_map Z.of_nat).
  apply NoDup_incl_length.
  - apply NoDup_map_of_nat, NoDup_filter, seq_NoDup.
  - intros z Hz. apply in_map_iff in Hz. destruct Hz as (k & <- & Hk).
    apply filter_In in Hk. destruct Hk as [Hk HP].
    apply in_seq in Hk. apply H; [lia|exact HP].
Qed.

Lemma length_filter_map {X Y : Type} (f : Y -> bool) (g : X -> Y) l :
  length (filter f (map g l)) = length (filter (fun a => f (g a)) l).
Proof.
  induction l as [|a l IH]; [reflexivity|]. cbn [map filter].
  destruct (f (g a)); cbn [length]; now rewrite IH.
Qed.

(** A row holds no more coloured pixels than there are columns that can
    be coloured. *)
Lemma coloured_le q x (cols : list Z) :
  wf_qimage q = true -> (x < q_height q)%nat ->
  (forall k, (k < q_width q)%nat ->
             pixel q (Z.of_nat k) (Z.of_nat x) <> white ->
             In (Z.of_nat k) cols) ->
  (Description.coloured q x <= length cols)%nat.
Proof.
  intros Hwf Hx H. unfold Description.coloured.
  rewrite (row_pixels q x Hwf Hx), length_filter_map.
  apply few_pass. intros k Hk HP. apply (H k Hk).
  intros E. rewrite E, Z.eqb_refl in HP. discriminate HP.
Qed.

Lemma marked_In band_hist m x k :
  marked band_hist m x k = true ->
  In k [trunc (bar (nth x band_hist 0%Z) m);
        trunc (fadd (bar (nth x band_hist 0%Z) m) (of_int 1))].
Proof.
  unfold marked. cbv zeta. intros H. apply orb_true_iff in H.
  destruct H as [H|H]; apply Z.eqb_eq in H; [now left|right; now left].
Qed.

(** The histogram image of an RGB frame: 100 columns, 256 rows, and in
    every row at most six pixels that are not white. *)
Lemma histogram_image_rows image r g b q_image clipping :
  bands image = [r; g; b] ->
  draw_histogram (histogram image) = Some (q_image, clipping) ->
  wf_qimage q_image = true
  /\ q_width q_image = 100%nat /\ q_height q_image = 256%nat
  /\ forall x, (x < 256)%nat -> (Description.coloured q_image x <= 6)%nat.
Proof.
  intros Hb Hq.
  destruct (histogram_of_frame image r g b Hb)
    as (q & cl & mr & mg & mb & Hq' & Hr & Hg & Hbl & Hpix).
  rewrite Hq in Hq'. injection Hq' as <- <-.
  pose proof Hq as Hd. rewrite (histogram_rgb image r g b Hb) in Hd.
  rewrite (draw_histogram_rgb _ _ _ mr mg mb) in Hd
    by auto using length_band_histogram.
  injection Hd as Hd _.
  pose proof (wf_filled 100 256 white) as W0.
  destruct (size_draw_bins (band_histogram r) mr 0xff0000%Z _ W0)
    as (W1 & X1 & Y1).
  destruct (size_draw_bins (band_histogram g) mg 0x00ff00%Z _ W1)
    as (W2 & X2 & Y2).
  destruct (size_draw_bins (band_histogram b) mb 0x0000ff%Z _ W2)
    as (W3 & X3 & Y3).
  rewrite Hd in W3, X3, Y3. rewrite X2, X1 in X3. rewrite Y2, Y1 in Y3.
  cbn [filled q_width q_height] in X3, Y3.
  split; [exact W3|]. split; [exact X3|]. split; [exact Y3|].
  intros x Hx.
  set (cols := fun band m =>
                [trunc (bar (nth x (band_histogram band) 0%Z) m);
                 trunc (fadd (bar (nth x (band_histogram band) 0%Z) m)
                             (of_int 1))]).
  apply (coloured_le q_image x (cols b mb ++ cols g mg ++ cols r mr) W3).
  - rewrite Y3. exact Hx.
  - intros k Hk Hne. rewrite X3 in Hk.
    rewrite (Hpix x (Z.of_nat k)) in Hne by lia.
    destruct (marked (band_histogram b) mb x (Z.of_nat k)) eqn:Eb.
    { apply in_or_app. left. now apply marked_In. }
    destruct (marked (band_histogram g) mg x (Z.of_nat k)) eqn:Eg.
    { apply in_or_app. right. apply in_or_app. left. now apply marked_In. }
    destruct (marked (band_histogram r) mr x (Z.of_nat k)) eqn:Er.
    { apply in_or_app. right. apply in_or_app. right.
      now apply marked_In. }
    now contradiction Hne.
Qed.

End Arithmetic.

(** ** Exact arithmetic: the bar length as the formula gives it *)

#[local] Existing Instance exact.

Local Open Scope R_scope.

(** In exact arithmetic [y] is the bar length of the formula. *)
Lemma bar_exact c m : bar c m = bar_length c m.
Proof. reflexivity. Qed.

Lemma marked_in_exact band_hist m x k :
  marked band_hist m x k
  = ((to_int (bar_length (nth x band_hist 0%Z) m) =? k)
     || (to_int (bar_length (nth x band_hist 0%Z) m + 1) =? k))%Z.
Proof. reflexivity. Qed.

Lemma ln_10_pos : 0 < ln 10.
Proof. rewrite <- ln_1. apply ln_increasing; lra. Qed.

Lemma ln_le_mono x y : 0 < x -> x <= y -> ln x <= ln y.
Proof.
  intros Hx [Hlt|Heq].
  - left. now apply ln_increasing.
  - subst. apply Rle_refl.
Qed.

Lemma log10_le_mono x y : 0 < x -> x <= y -> log10 x <= log10 y.
Proof.
  intros Hx Hxy. unfold log10, Rdiv.
  apply Rmult_le_compat_r.
  - left. apply Rinv_0_lt_compat, ln_10_pos.
  - now apply ln_le_mono.
Qed.

Lemma log10_1 : log10 1 = 0.
Proof. unfold log10. rewrite ln_1. unfold Rdiv. apply Rmult_0_l. Qed.

Lemma ratio_pos c m : (0 <= c)%Z -> (0 <= m)%Z -> 0 < ratio c m.
Proof.
  intros Hc Hm. unfold ratio.
  apply Rdiv_lt_0_compat; apply IZR_lt; lia.
Qed.

Lemma ratio_le_mono c1 c2 m :
  (c1 <= c2)%Z -> (0 <= m)%Z -> ratio c1 m <= ratio c2 m.
Proof.
  intros H Hm. unfold ratio, Rdiv. apply Rmult_le_compat_r.
  - left. apply Rinv_0_lt_compat, IZR_lt. lia.
  - apply IZR_le. lia.
Qed.

Lemma ratio_le_1 c m : (c <= m)%Z -> (0 <= m)%Z -> ratio c m <= 1.
Proof.
  intros H Hm. unfold ratio.
  assert (0 < IZR (1 + m)) by (apply IZR_lt; lia).
  apply (Rmult_le_reg_r (IZR (1 + m))); [assumption|].
  unfold Rdiv. rewrite Rmult_assoc, Rinv_l by lra.
  rewrite Rmult_1_r, Rmult_1_l. apply IZR_le. lia.
Qed.

Lemma ratio_full m : (0 <= m)%Z -> ratio m m = 1.
Proof.
  intros Hm. unfold ratio, Rdiv. apply Rinv_r.
  apply Rgt_not_eq, IZR_lt. lia.
Qed.

Lemma bar_length_ratio c m :
  bar_length c m = 98 * Rmax 0 (1 + log10 (ratio c m) / 5).
Proof. reflexivity. Qed.

Lemma bar_length_nonneg c m : 0 <= bar_length c m.
Proof.
  rewrite bar_length_ratio.
  pose proof (Rmax_l 0 (1 + log10 (ratio c m) / 5)). lra.
Qed.

Lemma bar_length_le_mono c1 c2 m :
  (0 <= c1)%Z -> (c1 <= c2)%Z -> (0 <= m)%Z ->
  bar_length c1 m <= bar_length c2 m.
Proof.
  intros H1 H12 Hm. rewrite !bar_length_ratio.
  apply Rmult_le_compat_l; [lra|].
  apply Rle_max_compat_l.
  pose proof (log10_le_mono (ratio c1 m) (ratio c2 m)
                (ratio_pos c1 m H1 Hm) (ratio_le_mono c1 c2 m H12 Hm)).
  lra.
Qed.

Lemma bar_length_le_98 c m :
  (0 <= c)%Z -> (c <= m)%Z -> bar_length c m <= 98.
Proof.
  intros Hc Hcm. rewrite bar_length_ratio.
  assert (Hm : (0 <= m)%Z) by lia.
  pose proof (log10_le_mono (ratio c m) 1 (ratio_pos c m Hc Hm)
                (ratio_le_1 c m Hcm Hm)) as H.
  rewrite log10_1 in H.
  assert (Rmax 0 (1 + log10 (ratio c m) / 5) <= 1)
    by (apply Rmax_lub; lra).
  lra.
Qed.

Lemma bar_length_full m : (0 <= m)%Z -> bar_length m m = 98.
Proof.
  intros Hm. rewrite bar_length_ratio, (ratio_full m Hm), log10_1.
  unfold Rdiv. rewrite Rmult_0_l, Rplus_0_r, Rmax_right; lra.
Qed.

(** ** Truncation *)

Lemma to_int_nonneg r : 0 <= r -> to_int r = Int_part r.
Proof. intros H. unfold to_int. destruct (Rle_dec 0 r); tauto. Qed.

Lemma to_int_succ r : 0 <= r -> (to_int (r + 1) = to_int r + 1)%Z.
Proof.
  intros H. rewrite !to_int_nonneg by lra. symmetry.
  apply Int_part_spec. rewrite plus_IZR.
  destruct (base_Int_part r). lra.
Qed.

Lemma to_int_IZR z : (0 <= z)%Z -> to_int (IZR z) = z.
Proof.
  intros H. rewrite to_int_nonneg by now apply IZR_le.
  symmetry. apply Int_part_spec. lra.
Qed.

Lemma to_int_range r (n : Z) :
  0 <= r <= IZR n -> (0 <= to_int r <= n)%Z.
Proof.
  intros [H0 Hn]. rewrite to_int_nonneg by exact H0.
  destruct (base_Int_part r) as [A B]. split.
  - apply le_IZR. 
    assert (-1 < IZR (Int_part r)) by lra.
    apply lt_IZR in H. apply IZR_le. lia.
  - apply le_IZR. lra.
Qed.

(** The two columns of a bin: the truncated bar length and the next
    one, both inside the 100 columns of the image. *)
Lemma marked_columns band_hist m x k :
  (0 <= nth x band_hist 0 <= m)%Z ->
  let col := to_int (bar_length (nth x band_hist 0%Z) m) in
  (0 <= col <= 98)%Z
  /\ marked band_hist m x k = ((col =? k) || (col + 1 =? k))%Z.
Proof.
  intros [H0 Hm]. simpl. split.
  - apply to_int_range. split.
    + apply bar_length_nonneg.
    + now apply bar_length_le_98.
  - rewrite marked_in_exact.
    now rewrite to_int_succ by apply bar_length_nonneg.
Qed.

Local Close Scope R_scope.

(** C7, as it is worded, fails: for the picture of one saturated pixel,
    bin 255 of the blue channel has the full bar length 98, yet the
    pixel at the start of its row is white. *)
Lemma bars_not_filled :
  ~ drawn_as_bars (histogram Examples.white_pixel) 2.
Proof.
  intros H.
  pose (bh := band_histogram [[255%Z]]).
  assert (Hh : histogram Examples.white_pixel = bh ++ bh ++ bh)
    by (apply (histogram_rgb Examples.white_pixel); reflexivity).
  assert (Hc : channel_hist (histogram Examples.white_pixel) 2 = bh)
    by (vm_compute; reflexivity).
  assert (Hm : py_max bh = Some 1%Z) by (vm_compute; reflexivity).
  assert (Hn : nth 255 bh 0%Z = 1%Z) by (vm_compute; reflexivity).
  assert (Hl : length bh = 256%nat) by apply length_band_histogram.
  destruct (draw_histogram_pixel bh bh bh 1 1 1 Hl Hl Hl Hm Hm Hm)
    as (q & Hq & Hpix).
  rewrite <- Hh in Hq.
  assert (Hlen : bar_length (nth 255 bh 0%Z) 1 = 98%R)
    by (rewrite Hn; apply bar_length_full; lia).
  assert (Hblue : pixel q 0 (Z.of_nat 255) = 0x0000ff%Z).
  { apply (H q _ 0x0000ff%Z 1%Z Hq eq_refl).
    - rewrite Hc. exact Hm.
    - lia.
    - rewrite Hc, Hlen. lra. }
  assert (Hmark : marked bh 1 255 0 = false).
  { destruct (marked_columns bh 1 255 0) as [_ E]; [rewrite Hn; lia|].
    rewrite E, Hlen. rewrite (to_int_IZR 98) by lia. reflexivity. }
  rewrite (Hpix 255%nat 0%Z) in Hblue by lia.
  rewrite Hmark in Hblue. discriminate Hblue.
Qed.

Local Open Scope R_scope.

(** C2. With the count of the fullest bin fixed, the bar length
    [98 * max(0, 1 + log10((1 + count) / (1 + max_count)) / 5)] does not
    decrease when the count grows, is never below 0, and for the counts
    of the band (none exceeds the fullest bin) never above 98. *)
Theorem bar_length_monotone c1 c2 m :
  (0 < c1)%Z -> (c1 <= c2)%Z -> (c2 <= m)%Z ->
  bar_length c1 m <= bar_length c2 m
  /\ 0 <= bar_length c1 m
  /\ bar_length c2 m <= 98.
Proof.
  intros H1 H12 H2. split; [|split].
  - apply bar_length_le_mono; lia.
  - apply bar_length_nonneg.
  - apply bar_length_le_98; lia.
Qed.

Lemma bar_length_monotone_witness :
  (0 < 3)%Z /\ (3 <= 40)%Z /\ (40 <= 1000)%Z
  /\ bar_length 3 1000 <= bar_length 40 1000.
Proof.
  split; [lia|]. split; [lia|]. split; [lia|].
  exact (proj1 (bar_length_monotone 3 40 1000 eq_refl
                  ltac:(discriminate) ltac:(discriminate))).
Defined.

End HistogramFacts.

(* ================================================================== *)
(** * Properties of the focus measurement *)

Module FocusFacts.
Import Pil Metrics.

(** ** Offset by one, difference, crop: what is left is the differences
    between neighbours *)

Lemma rotate_right_0 {A : Type} (l : list A) : rotate_right 0 l = l.
Proof.
  unfold rotate_right. destruct l as [|a l]; [reflexivity|].
  rewrite Nat.Div0.mod_0_l, Nat.sub_0_r, skipn_all, firstn_all.
  reflexivity.
Qed.

Lemma skipn_1_combine_rotate {A : Type} (l : list A) :
  skipn 1 (combine l (rotate_right 1 l)) = combine (tl l) l.
Proof.
  destruct l as [|a [|b l]]; [reflexivity|reflexivity|].
  unfold rotate_right. rewrite Nat.mod_1_l by (simpl; lia).
  remember (a :: b :: l) as abl eqn:E.
  assert (Hlen : length abl = S (S (length l))) by now subst.
  assert (Hs : length (skipn (length abl - 1) abl) = 1)
    by (rewrite length_skipn; lia).
  destruct (skipn (length abl - 1) abl) as [|x [|y t]];
    try discriminate Hs.
  rewrite E at 1. cbn [app combine skipn tl].
  rewrite E at 3. cbn [tl].
  replace (length abl - 1) with (length (b :: l)) by (simpl; lia).
  change (combine (b :: l) (firstn (length (b :: l)) abl)
          = combine (b :: l) abl).
  now rewrite <- combine_firstn_l.
Qed.

Lemma map_combine_map {A B C : Type} (f : A * B -> C) (g : A -> B) l :
  map f (combine l (map g l)) = map (fun x => f (x, g x)) l.
Proof. induction l as [|a l IH]; simpl; congruence. Qed.

Lemma wf_band_spec w h b :
  wf_band w h b = true ->
  length b = h /\ forall row, In row b -> length row = w.
Proof.
  unfold wf_band. intros H. apply andb_true_iff in H.
  destruct H as [Hh Hrows]. apply Nat.eqb_eq in Hh. split; [exact Hh|].
  intros row Hin. rewrite forallb_forall in Hrows.
  specialize (Hrows row Hin). apply andb_true_iff in Hrows.
  now apply Nat.eqb_eq.
Qed.

Lemma crop_row_diff w row :
  length row = w ->
  crop_list 1 w (difference_row (row, rotate_right 1 row))
  = neighbour_diffs row.
Proof.
  intros Hw. unfold crop_list, difference_row, neighbour_diffs.
  cbn [fst snd]. rewrite skipn_map, skipn_1_combine_rotate.
  apply firstn_all2.
  rewrite length_map, length_combine. destruct row; simpl in *; lia.
Qed.

(** The horizontal pass on one band. *)
Lemma horizontal_pass w h b :
  wf_band w h b = true ->
  crop_band (1, 0, w, h) (difference_band (b, offset_band 1 0 b))
  = map neighbour_diffs b.
Proof.
  intros Hwf. destruct (wf_band_spec w h b Hwf) as [Hh Hrows].
  unfold crop_band, difference_band, offset_band. cbn [fst snd].
  rewrite rotate_right_0, map_combine_map.
  unfold crop_list at 2. rewrite Nat.sub_0_r. cbn [skipn].
  rewrite firstn_all2 by (rewrite length_map; lia).
  rewrite map_map. apply map_ext_in. intros row Hin.
  apply crop_row_diff. now apply Hrows.
Qed.

(** The vertical pass on one band. *)
Lemma vertical_pass w h b :
  wf_band w h b = true ->
  crop_band (0, 1, w, h) (difference_band (b, offset_band 0 1 b))
  = map difference_row (combine (tl b) b).
Proof.
  intros Hwf. destruct (wf_band_spec w h b Hwf) as [Hh Hrows].
  unfold crop_band, difference_band, offset_band. cbn [fst snd].
  rewrite (map_ext _ (fun row => row) rotate_right_0), map_id.
  unfold crop_list at 2.
  rewrite skipn_map, skipn_1_combine_rotate.
  rewrite firstn_all2
    by (rewrite length_map, length_combine; destruct b; simpl in *; lia).
  rewrite map_map. apply map_ext_in. intros [r1 r0] Hin.
  unfold crop_list. rewrite Nat.sub_0_r. cbn [skipn].
  apply firstn_all2. unfold difference_row. cbn [fst snd].
  rewrite length_map, length_combine.
  assert (length r0 = w) by (apply Hrows; eapply in_combine_r; eauto).
  lia.
Qed.

Lemma wf_image_rgb image r g b :
  wf_image image = true -> bands image = [r; g; b] ->
  wf_band (size_w image) (size_h image) r = true
  /\ wf_band (size_w image) (size_h image) g = true
  /\ wf_band (size_w image) (size_h image) b = true.
Proof.
  unfold wf_image. intros H Hb. rewrite Hb in H.
  apply andb_true_iff in H. destruct H as [_ H]. simpl in H.
  rewrite !andb_true_iff in H. tauto.
Qed.

(** The measurement of an RGB frame, with the library calls replaced by
    what they leave. *)
Lemma focus_measure_rgb image r g b :
  wf_image image = true -> bands image = [r; g; b] ->
  focus_measure image
  = match traverse [samples_rms (horizontal_diffs r);
                    samples_rms (horizontal_diffs g);
                    samples_rms (horizontal_diffs b)] with
    | None => None
    | Some h_rms =>
        match traverse [samples_rms (vertical_diffs r);
                        samples_rms (vertical_diffs g);
                        samples_rms (vertical_diffs b)] with
        | None => None
        | Some rms => Some (add_into rms h_rms)
        end
    end.
Proof.
  intros Hwf Hb.
  destruct (wf_image_rgb image r g b Hwf Hb) as (Hr & Hg & Hbl).
  unfold focus_measure, stat_rms, crop, difference, offset.
  cbn [bands mode size_w size_h]. rewrite Hb.
  cbn [map combine]. unfold band_rms.
  rewrite !horizontal_pass, !vertical_pass by assumption.
  reflexivity.
Qed.

Lemma horizontal_nonempty w h b :
  wf_band w h b = true -> 2 <= w -> 1 <= h ->
  (count (horizontal_diffs b) =? 0)%Z = false.
Proof.
  intros Hwf Hw Hh. destruct (wf_band_spec w h b Hwf) as [Hlen Hrows].
  destruct b as [|row rest]; [simpl in Hlen; lia|].
  assert (Hrow : length row = w) by (apply Hrows; now left).
  destruct row as [|x [|y t]]; try (simpl in Hrow; lia).
  unfold horizontal_diffs, count. cbn [map concat].
  unfold neighbour_diffs at 1. cbn [tl combine map app length].
  apply Z.eqb_neq. lia.
Qed.

Lemma vertical_nonempty w h b :
  wf_band w h b = true -> 1 <= w -> 2 <= h ->
  (count (vertical_diffs b) =? 0)%Z = false.
Proof.
  intros Hwf Hw Hh. destruct (wf_band_spec w h b Hwf) as [Hlen Hrows].
  destruct b as [|r0 [|r1 rest]]; try (simpl in Hlen; lia).
  assert (H0 : length r0 = w) by (apply Hrows; now left).
  assert (H1 : length r1 = w) by (apply Hrows; right; now left).
  destruct r0 as [|x0 t0]; [simpl in H0; lia|].
  destruct r1 as [|x1 t1]; [simpl in H1; lia|].
  unfold vertical_diffs, count. cbn [tl combine map concat].
  unfold difference_row at 1. cbn [fst snd combine map app length].
  apply Z.eqb_neq. lia.
Qed.

(** For an RGB frame the measurement is, channel by channel, the root
    mean square of the differences between vertical neighbours plus
    that between horizontal neighbours; it has three entries.  A frame
    of at least 2 x 2 pixels always yields it. *)
Lemma focus_measure_is_neighbour_rms image r g b :
  wf_image image = true -> bands image = [r; g; b] ->
  (forall score,
      focus_measure image = Some score ->
      score = focus_score image
      /\ score = [ (rms_of (vertical_diffs r)
                    + rms_of (horizontal_diffs r))%R;
                   (rms_of (vertical_diffs g)
                    + rms_of (horizontal_diffs g))%R;
                   (rms_of (vertical_diffs b)
                    + rms_of (horizontal_diffs b))%R ]
      /\ length score = 3)
  /\ (2 <= size_w image -> 2 <= size_h image ->
      focus_measure image = Some (focus_score image)).
Proof.
  intros Hwf Hb. rewrite (focus_measure_rgb image r g b Hwf Hb).
  unfold focus_score. rewrite Hb. cbn [map]. unfold focus_score_band.
  split.
  - intros score. unfold samples_rms.
    destruct (count (horizontal_diffs r) =? 0)%Z,
      (count (horizontal_diffs g) =? 0)%Z,
      (count (horizontal_diffs b) =? 0)%Z,
      (count (vertical_diffs r) =? 0)%Z,
      (count (vertical_diffs g) =? 0)%Z,
      (count (vertical_diffs b) =? 0)%Z;
      cbn [traverse]; intros H; try discriminate H.
    injection H as <-. now repeat split.
  - intros Hw Hh.
    destruct (wf_image_rgb image r g b Hwf Hb) as (Hr & Hg & Hbl).
    unfold samples_rms.
    rewrite !(horizontal_nonempty (size_w image) (size_h image))
      by (assumption || lia).
    rewrite !(vertical_nonempty (size_w image) (size_h image))
      by (assumption || lia).
    reflexivity.
Qed.

End FocusFacts.

(* ================================================================== *)
(** * A successful capture, and the program run on small inputs *)

Module CaptureFacts.
Import Gp Pil Qt Metrics Handler.

Section Arithmetic.
Context {FP : Metrics.Arith}.

(** A capture that succeeds on an RGB frame emits the frame, the
    histogram image, the clipping counts and the focus measurement, in
    this order, and changes nothing else but [image_data]. *)
Lemma do_capture_emits cam w OK image data q_image clipping rms :
  cam (shots w) = (OK, Some image) -> (GP_OK <= OK)%Z ->
  tobytes_raw_RGB image = Some data ->
  draw_histogram (histogram image) = Some (q_image, clipping) ->
  focus_measure image = Some rms ->
  _do_capture cam w
  = Ok tt (mkWorld (running w) (config w) (Some data) (S (shots w))
                   (trace w
                    ++ [CapturePreview;
                        NewImage (size_w image) (size_h image) data;
                        NewHistogram q_image;
                        NewClipping clipping;
                        NewFocus rms])
                   (queue w)).
Proof.
  intros Hcam HOK Hdata Hhist Hfocus.
  unfold _do_capture, bind, gp_camera_capture_preview. rewrite Hcam.
  assert (Hlt : (OK <? GP_OK)%Z = false) by (apply Z.ltb_ge; exact HOK).
  rewrite Hlt, Hdata. unfold set_image_data, effect. cbn.
  rewrite Hhist. cbn. rewrite Hfocus. cbn.
  rewrite <- !app_assoc. reflexivity.
Qed.

(** The effects of a capture that succeeds on an RGB frame, whether or
    not the focus measurement can be taken. *)
Lemma do_capture_trace cam w OK image data q_image clipping :
  cam (shots w) = (OK, Some image) -> (GP_OK <= OK)%Z ->
  tobytes_raw_RGB image = Some data ->
  draw_histogram (histogram image) = Some (q_image, clipping) ->
  trace (world_of (_do_capture cam w))
  = trace w
    ++ [CapturePreview;
        NewImage (size_w image) (size_h image) data;
        NewHistogram q_image;
        NewClipping clipping]
    ++ match focus_measure image with
       | Some rms => [NewFocus rms]
       | None => []
       end.
Proof.
  intros Hcam HOK Hdata Hhist.
  unfold _do_capture, bind, gp_camera_capture_preview. rewrite Hcam.
  assert (Hlt : (OK <? GP_OK)%Z = false) by (apply Z.ltb_ge; exact HOK).
  rewrite Hlt, Hdata. unfold set_image_data, effect. cbn.
  rewrite Hhist. cbn.
  destruct (focus_measure image) as [rms|]; cbn;
    rewrite <- !app_assoc; reflexivity.
Qed.

End Arithmetic.

(** ** The theorems at concrete inputs, in exact arithmetic *)

#[local] Existing Instance Metrics.exact.

(** A failing camera: the start of continuous mode makes one attempt,
    and the event it posted finds [running] cleared. *)
Example continuous_with_failing_camera :
  run Examples.cam_fail 5
      (click SlotContinuous (Examples.idle Examples.jpeg_config))
  = mkWorld false Examples.jpeg_config None 1
            [CapturePreview; Printed "Failed to capture"] [].
Proof. reflexivity. Qed.

(** A RAW configuration: both buttons only print the message. *)
Example clicks_with_raw_format :
  run Examples.cam_ok 5
      (click SlotOneShot
         (click SlotContinuous (Examples.idle Examples.raw_config)))
  = mkWorld false Examples.raw_config None 0
            [Printed "Cannot preview raw images";
             Printed "Cannot preview raw images"] [].
Proof. reflexivity. Qed.

(** The toggle after a capture that failed in flight: the failure has
    cleared [running], so the slot starts continuous mode again, and each
    later turn captures. *)
Example toggle_after_failed_capture :
  let w1 := world_of (event Examples.cam_recovers DoNext
                            (Examples.busy Examples.jpeg_config 0)) in
  let w2 := run Examples.cam_recovers 3 (click SlotContinuous w1) in
  running w1 = false /\ shots w1 = 1
  /\ running w2 = true /\ shots w2 = 4 /\ queue w2 = pending 2.
Proof. cbv zeta. repeat split; reflexivity. Qed.

(** Initialisation selects the third capture size class. *)
Example init_sets_size_class :
  exists config',
    init Examples.jpeg_config
    = Ok tt (mkWorld false config' None 0
                     [CameraInit; CameraGetConfig; CameraSetConfig config']
                     [])
    /\ option_map get_value (find_child config' "capturesizeclass")
       = Some "Compatibility Mode"%string.
Proof. eexists. split; reflexivity. Qed.

End CaptureFacts.

(* ================================================================== *)
(** * What a capture emits: the clipping counts, the histogram image and
      the focus score *)

Module EmittedFacts.
Import Gp Pil Qt Metrics Handler Description.

(** ** The frame behind the signals *)

Lemma tobytes_rgb image data :
  tobytes_raw_RGB image = Some data ->
  mode image = RGB /\ exists r g b, bands image = [r; g; b].
Proof.
  unfold tobytes_raw_RGB.
  destruct (mode image); try discriminate.
  destruct (bands image) as [|r [|g [|b [|x l]]]]; try discriminate.
  intros _. split; [reflexivity|]. now exists r, g, b.
Qed.

Lemma rgb_bands image :
  mode image = RGB -> length (bands image) = 3 ->
  exists r g b, bands image = [r; g; b].
Proof.
  intros _ H.
  destruct (bands image) as [|r [|g [|b [|x l]]]]; try discriminate H.
  now exists r, g, b.
Qed.

Lemma firstn_skipn_app {X : Type} (pre a post : list X) :
  firstn (length a) (skipn (length pre) (pre ++ a ++ post)) = a.
Proof.
  rewrite skipn_app, skipn_all, Nat.sub_diag. cbn [skipn app].
  rewrite firstn_app, firstn_all, Nat.sub_diag. cbn [firstn].
  apply app_nil_r.
Qed.

(** The slice of [image.histogram()] that belongs to channel [ch] is
    the 256-bin histogram of that channel. *)
Lemma channel_hist_rgb image r g b ch :
  bands image = [r; g; b] -> ch < 3 ->
  channel_hist (histogram image) ch = band_histogram (nth ch [r; g; b] []).
Proof.
  intros Hb Hch. rewrite (HistogramFacts.histogram_rgb image r g b Hb).
  pose proof (HistogramFacts.length_band_histogram r) as Lr.
  pose proof (HistogramFacts.length_band_histogram g) as Lg.
  pose proof (HistogramFacts.length_band_histogram b) as Lb.
  unfold channel_hist.
  destruct ch as [|[|[|ch]]]; [| | |lia]; cbn [nth].
  - pose proof (firstn_skipn_app [] (band_histogram r)
                  (band_histogram g ++ band_histogram b)) as H.
    rewrite Lr in H. exact H.
  - pose proof (firstn_skipn_app (band_histogram r) (band_histogram g)
                  (band_histogram b)) as H.
    rewrite Lr, Lg in H. exact H.
  - pose proof (firstn_skipn_app (band_histogram r ++ band_histogram g)
                  (band_histogram b) []) as H.
    rewrite length_app, Lr, Lg, Lb, app_nil_r, <- app_assoc in H. exact H.
Qed.

(** ** The focus score, position by position *)

Lemma abs_difference_abs p p' : abs_difference p p' = Z.abs (p - p').
Proof. unfold abs_difference. destruct (Z.ltb_spec p p'); lia. Qed.

Lemma map_nth_all {X : Type} (l : list X) d :
  map (fun i => nth i l d) (seq 0 (length l)) = l.
Proof.
  induction l as [|a l IH]; [reflexivity|].
  cbn [length seq map nth]. rewrite <- seq_shift, map_map.
  cbn [nth]. now rewrite IH.
Qed.

(** Every element but the first, paired with the one before it. *)
Lemma combine_tl {X : Type} (l : list X) d :
  combine (tl l) l
  = map (fun i => (nth i l d, nth (i - 1) l d)) (seq 1 (length l - 1)).
Proof.
  induction l as [|a l IH]; [reflexivity|].
  destruct l as [|b l]; [reflexivity|].
  change (combine (tl (a :: b :: l)) (a :: b :: l))
    with ((b, a) :: combine (tl (b :: l)) (b :: l)).
  rewrite IH. cbn [length]. rewrite !Nat.sub_succ, !Nat.sub_0_r.
  change (seq 1 (S (length l))) with (1 :: seq 2 (length l)).
  cbn [map nth Nat.sub]. f_equal.
  rewrite <- (seq_shift (length l) 1), map_map. apply map_ext_in.
  intros i Hi. apply in_seq in Hi.
  destruct i as [|i]; [lia|]. cbn [nth Nat.sub]. now rewrite Nat.sub_0_r.
Qed.

Lemma combine_nth_all {X : Type} (l1 l2 : list X) d :
  length l1 = length l2 ->
  combine l1 l2
  = map (fun i => (nth i l1 d, nth i l2 d)) (seq 0 (length l1)).
Proof.
  revert l2. induction l1 as [|a l1 IH]; intros [|b l2] H;
    try discriminate H; [reflexivity|].
  cbn [combine length seq map nth]. f_equal.
  rewrite <- seq_shift, map_map. cbn [nth]. apply IH.
  now injection H.
Qed.

Lemma horizontal_described w h b :
  wf_band w h b = true ->
  horizontal_diffs b = shift_differences w h b 1 0.
Proof.
  intros Hwf. destruct (FocusFacts.wf_band_spec w h b Hwf) as [Hlen Hrows].
  unfold horizontal_diffs, shift_differences, overlap.
  rewrite flat_map_concat_map, concat_map, !map_map, Nat.sub_0_r.
  rewrite <- (map_nth_all b []) at 1. rewrite map_map, Hlen.
  f_equal. apply map_ext_in. intros y Hy. apply in_seq in Hy.
  assert (Hrow : length (nth y b []) = w)
    by (apply Hrows, nth_In; lia).
  unfold neighbour_diffs. rewrite (combine_tl _ 0%Z), !map_map, Hrow.
  apply map_ext. intros x. cbn [fst snd].
  unfold absdiff, sample_at. cbn [fst snd].
  now rewrite abs_difference_abs, Nat.sub_0_r.
Qed.

Lemma vertical_described w h b :
  wf_band w h b = true ->
  vertical_diffs b = shift_differences w h b 0 1.
Proof.
  intros Hwf. destruct (FocusFacts.wf_band_spec w h b Hwf) as [Hlen Hrows].
  unfold vertical_diffs, shift_differences, overlap.
  rewrite flat_map_concat_map, concat_map, !map_map, Nat.sub_0_r.
  rewrite (combine_tl b []), map_map, Hlen.
  f_equal. apply map_ext_in. intros y Hy. apply in_seq in Hy.
  assert (Hrow : length (nth y b []) = w)
    by (apply Hrows, nth_In; lia).
  assert (Hrow' : length (nth (y - 1) b []) = w)
    by (apply Hrows, nth_In; lia).
  unfold difference_row. cbn [fst snd].
  rewrite (combine_nth_all _ _ 0%Z) by congruence.
  rewrite !map_map, Hrow. apply map_ext. intros x. cbn [fst snd].
  unfold absdiff, sample_at. cbn [fst snd].
  now rewrite abs_difference_abs, Nat.sub_0_r.
Qed.

Lemma sum2_described l : IZR (sum2 l) = sum_of_squares l.
Proof.
  induction l as [|v l IH]; [reflexivity|].
  unfold sum2, sum_of_squares in *. cbn [fold_right].
  now rewrite plus_IZR, mult_IZR, IH.
Qed.

Lemma rms_described l : rms_of l = root_mean_square l.
Proof.
  unfold rms_of, root_mean_square, count.
  now rewrite sum2_described, <- INR_IZR_INZ.
Qed.

Lemma focus_score_described image r g b :
  wf_image image = true -> bands image = [r; g; b] ->
  focus_score image = described_score image.
Proof.
  intros Hwf Hb.
  destruct (FocusFacts.wf_image_rgb image r g b Hwf Hb) as (Wr & Wg & Wb).
  unfold focus_score, described_score. rewrite Hb. cbn [map].
  unfold focus_score_band, channel_score.
  rewrite !rms_described.
  rewrite (horizontal_described _ _ r Wr), (vertical_described _ _ r Wr).
  rewrite (horizontal_described _ _ g Wg), (vertical_described _ _ g Wg).
  rewrite (horizontal_described _ _ b Wb), (vertical_described _ _ b Wb).
  f_equal; [apply Rplus_comm|]. f_equal; [apply Rplus_comm|].
  f_equal. apply Rplus_comm.
Qed.

Section Arithmetic.
Context {FP : Arith}.

(** What one run of [_do_capture] adds to the trace, by the way the run
    ends: the capture fails; the frame has no packer for RGB; or the
    frame is RGB. *)
Lemma do_capture_added cam w OK image :
  cam (shots w) = (OK, Some image) ->
  exists added,
    trace (world_of (_do_capture cam w)) = trace w ++ added
    /\ ((OK < GP_OK)%Z
        /\ added = [CapturePreview; Printed "Failed to capture"%string]
        \/ (GP_OK <= OK)%Z /\ tobytes_raw_RGB image = None
           /\ added = [CapturePreview]
        \/ (GP_OK <= OK)%Z
           /\ exists data q_image clipping r g b,
                bands image = [r; g; b]
                /\ draw_histogram (histogram image)
                   = Some (q_image, clipping)
                /\ added
                   = [CapturePreview;
                      NewImage (size_w image) (size_h image) data;
                      NewHistogram q_image;
                      NewClipping clipping]
                     ++ match focus_measure image with
                        | Some rms => [NewFocus rms]
                        | None => []
                        end).
Proof.
  intros Hcam. destruct (Z.ltb_spec OK GP_OK) as [Hlt|Hge].
  - exists [CapturePreview; Printed "Failed to capture"%string].
    split; [|now left].
    rewrite HandlerFacts.do_capture_fail
      by (unfold capture_fails; now rewrite Hcam).
    reflexivity.
  - destruct (tobytes_raw_RGB image) as [data|] eqn:Hd.
    + destruct (tobytes_rgb image data Hd) as (Hmode & r & g & b & Hb).
      destruct (HistogramFacts.clipping_of_frame image r g b Hb)
        as (q & cl & Hh & _).
      eexists. split.
      * exact (CaptureFacts.do_capture_trace cam w OK image data q cl
                 Hcam Hge Hd Hh).
      * right. right. split; [exact Hge|].
        exists data, q, cl, r, g, b. now repeat split.
    + exists [CapturePreview]. split; [|right; left; now repeat split].
      unfold _do_capture, bind, gp_camera_capture_preview. rewrite Hcam.
      assert (Hlt : (OK <? GP_OK)%Z = false) by (apply Z.ltb_ge; exact Hge).
      rewrite Hlt, Hd. reflexivity.
Qed.

(** An RGB frame has a packer. *)
Lemma rgb_packs image :
  mode image = RGB -> length (bands image) = 3 ->
  tobytes_raw_RGB image <> None.
Proof.
  intros Hm Hl. destruct (rgb_bands image Hm Hl) as (r & g & b & Hb).
  unfold tobytes_raw_RGB. rewrite Hm, Hb. discriminate.
Qed.

(** An RGB frame that the camera delivers: the histogram image, the
    clipping counts and the measurement, if it can be taken, are
    emitted. *)
Lemma rgb_frame_emits cam w OK image r g b q_image clipping :
  cam (shots w) = (OK, Some image) -> (GP_OK <= OK)%Z ->
  mode image = RGB -> bands image = [r; g; b] ->
  draw_histogram (histogram image) = Some (q_image, clipping) ->
  In (NewHistogram q_image) (trace (world_of (_do_capture cam w)))
  /\ In (NewClipping clipping) (trace (world_of (_do_capture cam w)))
  /\ forall score,
       focus_measure image = Some score ->
       In (NewFocus score) (trace (world_of (_do_capture cam w))).
Proof.
  intros Hcam HOK Hm Hb Hh.
  assert (Hd : exists data, tobytes_raw_RGB image = Some data).
  { unfold tobytes_raw_RGB. rewrite Hm, Hb. eexists. reflexivity. }
  destruct Hd as [data Hd].
  rewrite (CaptureFacts.do_capture_trace cam w OK image data q_image
             clipping Hcam HOK Hd Hh).
  split; [|split].
  - apply in_or_app. right. apply in_or_app. left.
    right. right. now left.
  - apply in_or_app. right. apply in_or_app. left.
    right. right. right. now left.
  - intros score ->. apply in_or_app. right. apply in_or_app. right.
    now left.
Qed.

(** C3. Whenever [_do_capture] emits clipping counts for a captured
    frame, the list has three entries and the entry of each channel is
    exactly the raw count in bin 255, the top one, of that channel's
    256-bin histogram (the channel's slice of [image.histogram()]).  For
    every RGB frame that the camera delivers the counts are emitted,
    once, after the frame and the histogram image. *)
Theorem emitted_clipping_is_top_bin cam w OK image :
  cam (shots w) = (OK, Some image) ->
  exists added,
    trace (world_of (_do_capture cam w)) = trace w ++ added
    /\ (forall clipping,
          In (NewClipping clipping) added ->
          length clipping = 3
          /\ forall ch,
               ch < 3 ->
               channel_hist (histogram image) ch
               = band_histogram (nth ch (bands image) [])
               /\ length (channel_hist (histogram image) ch) = 256
               /\ nth ch clipping 0%Z
                  = nth 255 (channel_hist (histogram image) ch) 0%Z)
    /\ ((GP_OK <= OK)%Z -> mode image = RGB -> length (bands image) = 3 ->
        exists data q_image clipping rest,
          added = [CapturePreview;
                   NewImage (size_w image) (size_h image) data;
                   NewHistogram q_image;
                   NewClipping clipping] ++ rest
          /\ forall c, ~ In (NewClipping c) rest).
Proof.
  intros Hcam.
  destruct (do_capture_added cam w OK image Hcam)
    as (added & Ht & [(Hlt & ->)|[(Hge & Hd & ->)|(Hge & Hrgb)]]).
  - exists [CapturePreview; Printed "Failed to capture"%string].
    split; [exact Ht|]. split.
    + intros c [E|[E|[]]]; discriminate E.
    + intros Hge. lia.
  - exists [CapturePreview]. split; [exact Ht|]. split.
    + intros c [E|[]]. discriminate E.
    + intros _ Hm Hl. now destruct (rgb_packs image Hm Hl).
  - destruct Hrgb as (data & q & cl & r & g & b & Hb & Hh & ->).
    eexists. split; [exact Ht|].
    assert (Hrest : forall c,
               ~ In (NewClipping c)
                    match focus_measure image with
                    | Some rms => [NewFocus rms]
                    | None => []
                    end).
    { intros c. destruct (focus_measure image); [|intros []].
      intros [E|[]]. discriminate E. }
    split.
    + intros c Hin. apply in_app_or in Hin.
      destruct Hin as [Hin|Hin]; [|now destruct (Hrest c)].
      destruct Hin as [E|[E|[E|[E|[]]]]]; try discriminate E.
      injection E as <-.
      destruct (HistogramFacts.clipping_of_frame image r g b Hb)
        as (q' & cl' & Hh' & Hcl & _).
      rewrite Hh in Hh'. injection Hh' as _ <-.
      split; [now rewrite Hcl|].
      intros ch Hch. rewrite (channel_hist_rgb image r g b ch Hb Hch), Hb.
      split; [reflexivity|].
      split; [apply HistogramFacts.length_band_histogram|].
      rewrite Hcl.
      destruct ch as [|[|[|ch]]]; [reflexivity|reflexivity|reflexivity|lia].
    + intros _ _ _. exists data, q, cl. eexists. split; [reflexivity|].
      exact Hrest.
Qed.

(** C7, as the code has it.  Whenever [_do_capture] emits a histogram
    image for a captured frame, the image has 100 columns and 256 rows,
    and in the row of each bin the loop body has set two pixels per
    channel and no more: column [k] of row [x] has the colour of the
    last channel (blue over green over red) for which [k] is [int(y)] or
    [int(y + 1)], [y] being
    [98.0 * max(0.0, 1.0 + log10((1 + count) / (1 + max_count)) / 5.0)]
    as the arithmetic of the program gives it, and is white when there
    is none; so a row holds at most six pixels that are not white, and
    the positions before the bar length are not filled.  For every RGB
    frame that the camera delivers the image is emitted, once, after the
    frame. *)
Theorem emitted_histogram_rows_marked cam w OK image :
  cam (shots w) = (OK, Some image) ->
  exists added,
    trace (world_of (_do_capture cam w)) = trace w ++ added
    /\ (forall q_image,
          In (NewHistogram q_image) added ->
          exists r g b mr mg mb,
            bands image = [r; g; b]
            /\ py_max (band_histogram r) = Some mr
            /\ py_max (band_histogram g) = Some mg
            /\ py_max (band_histogram b) = Some mb
            /\ q_width q_image = 100 /\ q_height q_image = 256
            /\ (forall (x : nat) (k : Z),
                  x < 256 -> (0 <= k < 100)%Z ->
                  pixel q_image k (Z.of_nat x)
                  = if marked (band_histogram b) mb x k then 0x0000ff%Z
                    else if marked (band_histogram g) mg x k
                         then 0x00ff00%Z
                    else if marked (band_histogram r) mr x k
                         then 0xff0000%Z
                    else white)
            /\ (forall x, x < 256 -> coloured q_image x <= 6))
    /\ ((GP_OK <= OK)%Z -> mode image = RGB -> length (bands image) = 3 ->
        exists data q_image rest,
          added = [CapturePreview;
                   NewImage (size_w image) (size_h image) data;
                   NewHistogram q_image] ++ rest
          /\ forall q, ~ In (NewHistogram q) rest).
Proof.
  intros Hcam.
  destruct (do_capture_added cam w OK image Hcam)
    as (added & Ht & [(Hlt & ->)|[(Hge & Hd & ->)|(Hge & Hrgb)]]).
  - exists [CapturePreview; Printed "Failed to capture"%string].
    split; [exact Ht|]. split.
    + intros c [E|[E|[]]]; discriminate E.
    + intros Hge. lia.
  - exists [CapturePreview]. split; [exact Ht|]. split.
    + intros c [E|[]]. discriminate E.
    + intros _ Hm Hl. now destruct (rgb_packs image Hm Hl).
  - destruct Hrgb as (data & q & cl & r & g & b & Hb & Hh & ->).
    eexists. split; [exact Ht|].
    assert (Hrest : forall c,
               ~ In (NewHistogram c)
                    (NewClipping cl
                     :: match focus_measure image with
                        | Some rms => [NewFocus rms]
                        | None => []
                        end)).
    { intros c [E|Hin]; [discriminate E|].
      destruct (focus_measure image); [|destruct Hin].
      destruct Hin as [E|[]]. discriminate E. }
    split.
    + intros c Hin.
      destruct Hin as [E|[E|[E|Hin]]]; try discriminate E;
        [|now destruct (Hrest c)].
      injection E as <-.
      destruct (HistogramFacts.histogram_of_frame image r g b Hb)
        as (q' & cl' & mr & mg & mb & Hh' & Hr & Hg & Hbl & Hpix).
      rewrite Hh in Hh'. injection Hh' as <- <-.
      destruct (HistogramFacts.histogram_image_rows image r g b q cl Hb Hh)
        as (_ & Hw & Hht & Hrows).
      exists r, g, b, mr, mg, mb. now repeat split.
    + intros _ _ _. exists data, q. eexists. split; [reflexivity|].
      exact Hrest.
Qed.

(** C1. Whenever [_do_capture] emits a focus score for a decoded frame,
    the score is a list of three numbers, one per channel, and the
    number of a channel is the sum of two values: the root mean square
    of the absolute differences between the channel and its copy shifted
    horizontally by one pixel, over the positions where the two overlap,
    plus the same for a copy shifted vertically by one pixel.  For every
    RGB frame of at least 2 x 2 pixels that the camera delivers the score
    is emitted, once, as the last signal of the capture. *)
Theorem emitted_focus_is_neighbour_rms cam w OK image :
  cam (shots w) = (OK, Some image) -> wf_image image = true ->
  exists added,
    trace (world_of (_do_capture cam w)) = trace w ++ added
    /\ (forall rms,
          In (NewFocus rms) added ->
          rms = described_score image
          /\ length rms = 3
          /\ forall ch,
               ch < 3 ->
               nth ch rms 0%R
               = (root_mean_square
                    (shift_differences (size_w image) (size_h image)
                                       (nth ch (bands image) []) 1 0)
                  + root_mean_square
                      (shift_differences (size_w image) (size_h image)
                                         (nth ch (bands image) []) 0 1))%R)
    /\ ((GP_OK <= OK)%Z -> mode image = RGB ->
        2 <= size_w image -> 2 <= size_h image ->
        exists before,
          added = before ++ [NewFocus (described_score image)]
          /\ forall rms, ~ In (NewFocus rms) before).
Proof.
  intros Hcam Hwf.
  destruct (do_capture_added cam w OK image Hcam)
    as (added & Ht & [(Hlt & ->)|[(Hge & Hd & ->)|(Hge & Hrgb)]]).
  - exists [CapturePreview; Printed "Failed to capture"%string].
    split; [exact Ht|]. split.
    + intros c [E|[E|[]]]; discriminate E.
    + intros Hge. lia.
  - exists [CapturePreview]. split; [exact Ht|]. split.
    + intros c [E|[]]. discriminate E.
    + intros _ Hm _ _. exfalso. apply (rgb_packs image Hm); [|exact Hd].
      unfold wf_image in Hwf. apply andb_true_iff in Hwf.
      destruct Hwf as [Hl _]. apply Nat.eqb_eq in Hl.
      now rewrite Hl, Hm.
  - destruct Hrgb as (data & q & cl & r & g & b & Hb & Hh & ->).
    eexists. split; [exact Ht|].
    destruct (FocusFacts.focus_measure_is_neighbour_rms image r g b Hwf Hb)
      as (Hscore & Hgood).
    split.
    + intros rms Hin.
      destruct Hin as [E|[E|[E|[E|Hin]]]]; try discriminate E.
      destruct (focus_measure image) as [score|]; [|destruct Hin].
      destruct Hin as [E|[]]. injection E as ->.
      destruct (Hscore rms eq_refl) as (E & _ & _).
      rewrite (focus_score_described image r g b Hwf Hb) in E.
      split; [exact E|]. rewrite E. unfold described_score.
      rewrite Hb. split; [reflexivity|].
      intros ch Hch.
      destruct ch as [|[|[|ch]]]; [reflexivity|reflexivity|reflexivity|lia].
    + intros _ _ Hw Hhh. rewrite (Hgood Hw Hhh).
      rewrite (focus_score_described image r g b Hwf Hb).
      exists [CapturePreview;
              NewImage (size_w image) (size_h image) data;
              NewHistogram q; NewClipping cl].
      split; [reflexivity|].
      intros rms [E|[E|[E|[E|[]]]]]; discriminate E.
Qed.

End Arithmetic.

(** ** The theorems at concrete inputs, in exact arithmetic *)

#[local] Existing Instance exact.

Lemma emitted_focus_is_neighbour_rms_witness :
  Examples.cam_ok (shots (Examples.idle Examples.jpeg_config))
  = (GP_OK, Some Examples.picture)
  /\ wf_image Examples.picture = true
  /\ exists added,
       trace (world_of (_do_capture Examples.cam_ok
                          (Examples.idle Examples.jpeg_config)))
       = added
       /\ In (NewFocus (described_score Examples.picture)) added.
Proof.
  split; [reflexivity|]. split; [reflexivity|].
  destruct (emitted_focus_is_neighbour_rms Examples.cam_ok
              (Examples.idle Examples.jpeg_config) GP_OK Examples.picture
              eq_refl eq_refl) as (added & Ht & _ & Hgood).
  exists added. split; [exact Ht|].
  destruct (Hgood (Z.le_refl _) eq_refl (le_S _ _ (le_n 2)) (le_n 2))
    as (before & -> & _).
  apply in_or_app. right. now left.
Defined.

Lemma emitted_clipping_is_top_bin_witness :
  Examples.cam_ok (shots (Examples.idle Examples.jpeg_config))
  = (GP_OK, Some Examples.picture)
  /\ exists added clipping,
       trace (world_of (_do_capture Examples.cam_ok
                          (Examples.idle Examples.jpeg_config)))
       = added
       /\ In (NewClipping clipping) added
       /\ length clipping = 3
       /\ nth 2 clipping 0%Z = 5%Z.
Proof.
  split; [reflexivity|].
  destruct (emitted_clipping_is_top_bin Examples.cam_ok
              (Examples.idle Examples.jpeg_config) GP_OK Examples.picture
              eq_refl) as (added & Ht & Hin & Hemit).
  destruct (Hemit (Z.le_refl _) eq_refl eq_refl)
    as (data & q & cl & rest & -> & _).
  assert (Hcl : In (NewClipping cl)
                   ([CapturePreview;
                     NewImage (size_w Examples.picture)
                              (size_h Examples.picture) data;
                     NewHistogram q; NewClipping cl] ++ rest))
    by (right; right; right; now left).
  eexists. exists cl. split; [exact Ht|]. split; [exact Hcl|].
  destruct (Hin cl Hcl) as (Hl & Hch). split; [exact Hl|].
  destruct (Hch 2 (le_n 3)) as (_ & _ & E). rewrite E. reflexivity.
Defined.

Lemma emitted_histogram_rows_marked_witness :
  Examples.cam_ok (shots (Examples.idle Examples.jpeg_config))
  = (GP_OK, Some Examples.picture)
  /\ exists added q_image,
       trace (world_of (_do_capture Examples.cam_ok
                          (Examples.idle Examples.jpeg_config)))
       = added
       /\ In (NewHistogram q_image) added
       /\ q_width q_image = 100 /\ q_height q_image = 256
       /\ coloured q_image 255 <= 6.
Proof.
  split; [reflexivity|].
  destruct (emitted_histogram_rows_marked Examples.cam_ok
              (Examples.idle Examples.jpeg_config) GP_OK Examples.picture
              eq_refl) as (added & Ht & Hin & Hemit).
  destruct (Hemit (Z.le_refl _) eq_refl eq_refl)
    as (data & q & rest & -> & _).
  assert (Hq : In (NewHistogram q)
                  ([CapturePreview;
                    NewImage (size_w Examples.picture)
                             (size_h Examples.picture) data;
                    NewHistogram q] ++ rest))
    by (right; right; now left).
  eexists. exists q. split; [exact Ht|]. split; [exact Hq|].
  destruct (Hin q Hq)
    as (r & g & b & mr & mg & mb & _ & _ & _ & _ & Hw & Hh & _ & Hrows).
  split; [exact Hw|]. split; [exact Hh|]. apply Hrows. lia.
Defined.

End EmittedFacts.

(* ================================================================== *)
(** * Properties of the initialisation *)

Module InitFacts.
Import Gp GpLoops Pil Qt Metrics Handler.

(** Induction over a widget and, inside it, over its children. *)
Lemma widget_induction (P : CameraWidget -> Prop) :
  (forall n v cs ch, Forall P ch -> P (Widget n v cs ch)) ->
  forall w, P w.
Proof.
  intros H.
  exact (fix go (w : CameraWidget) : P w :=
           match w with
           | Widget n v cs ch =>
               H n v cs ch
                 ((fix all (l : list CameraWidget) : Forall P l :=
                     match l with
                     | [] => Forall_nil P
                     | c :: l' => Forall_cons c (go c) (all l')
                     end) ch)
           end).
Qed.

Lemma find_child_unfold nm v cs ch n :
  find_child (Widget nm v cs ch) n
  = if String.eqb nm n then Some (Widget nm v cs ch) else find_first ch n.
Proof.
  cbn [find_child]. destruct (String.eqb nm n); [reflexivity|].
  induction ch as [|c l IH]; [reflexivity|].
  cbn [find_first]. destruct (find_child c n); [reflexivity|exact IH].
Qed.

Lemma set_child_value_unfold nm old cs ch n v :
  set_child_value (Widget nm old cs ch) n v
  = if String.eqb nm n then Some (Widget nm v cs ch)
    else match set_first ch n v with
         | Some ch' => Some (Widget nm old cs ch')
         | None => None
         end.
Proof.
  cbn [set_child_value]. destruct (String.eqb nm n); [reflexivity|].
  match goal with
  | |- match ?f ch with _ => _ end = _ =>
      assert (E : f ch = set_first ch n v)
  end.
  { induction ch as [|c l IH]; [reflexivity|].
    cbn [set_first]. destruct (set_child_value c n v); [reflexivity|].
    rewrite IH. reflexivity. }
  rewrite E. reflexivity.
Qed.

(** [set_value] reaches a widget exactly when the lookup finds one, and
    then the lookup finds the same widget with the new value. *)
Lemma set_then_find n v : forall w,
  match find_child w n with
  | Some (Widget nm old cs ch) =>
      exists w', set_child_value w n v = Some w'
                 /\ find_child w' n = Some (Widget nm v cs ch)
  | None => set_child_value w n v = None
  end.
Proof.
  apply widget_induction. intros nm old cs ch IH.
  rewrite find_child_unfold, set_child_value_unfold.
  destruct (String.eqb nm n) eqn:E.
  - eexists. split; [reflexivity|].
    rewrite find_child_unfold, E. reflexivity.
  - induction IH as [|c l Hc Hl IHl]; [reflexivity|].
    cbn [find_first set_first].
    destruct (find_child c n) as [[nm1 old1 cs1 ch1]|] eqn:Ec.
    + destruct Hc as (c' & Hset & Hfind). rewrite Hset.
      eexists. split; [reflexivity|].
      rewrite find_child_unfold, E. cbn [find_first]. now rewrite Hfind.
    + rewrite Hc.
      destruct (find_first l n) as [[nm1 old1 cs1 ch1]|] eqn:El.
      * destruct IHl as (w' & Hset & Hfind).
        destruct (set_first l n v) as [l''|]; [|discriminate Hset].
        injection Hset as <-. eexists. split; [reflexivity|].
        rewrite find_child_unfold, E in Hfind |- *.
        cbn [find_first]. rewrite Hfind.
        (* the first child still has no widget of that name *)
        now rewrite Ec.
      * destruct (set_first l n v); [discriminate IHl|reflexivity].
Qed.

(** [set_value] on the setting called [n] leaves what a lookup shows of
    any other setting. *)
Lemma set_keeps_others n v m :
  m <> n ->
  forall w w',
    set_child_value w n v = Some w' ->
    option_map setting (find_child w' m) = option_map setting (find_child w m).
Proof.
  intros Hmn. apply (widget_induction
    (fun w => forall w', set_child_value w n v = Some w' ->
                         option_map setting (find_child w' m)
                         = option_map setting (find_child w m))).
  intros nm old cs ch IH w'.
  rewrite set_child_value_unfold.
  destruct (String.eqb nm n) eqn:E.
  - intros H. injection H as <-. rewrite !find_child_unfold.
    apply String.eqb_eq in E. subst nm.
    destruct (String.eqb_spec n m); [congruence|reflexivity].
  - destruct (set_first ch n v) as [ch'|] eqn:Es; [|discriminate].
    intros H. injection H as <-. rewrite !find_child_unfold.
    destruct (String.eqb nm m); [reflexivity|].
    clear E. revert ch' Es.
    induction IH as [|c l Hc Hl IHl]; intros ch' Es; [discriminate Es|].
    cbn [set_first] in Es.
    destruct (set_child_value c n v) as [c'|] eqn:Ec.
    + injection Es as <-. cbn [find_first].
      specialize (Hc c' eq_refl).
      destruct (find_child c' m), (find_child c m); cbn in Hc |- *;
        try discriminate Hc; [exact Hc|reflexivity].
    + destruct (set_first l n v) as [l''|] eqn:El; [|discriminate Es].
      injection Es as <-. cbn [find_first].
      destruct (find_child c m); [reflexivity|]. now apply IHl.
Qed.

Lemma lookup_found c name widget :
  find_child c name = Some widget ->
  gp_widget_get_child_by_name c name = (GP_OK, Some widget).
Proof. intros H. unfold gp_widget_get_child_by_name. now rewrite H. Qed.

(** X1. When the tree has a [capturesizeclass] item with at least three
    choices, [__init__] completes, hands the camera one tree through
    [set_config], keeps that tree as [self.config], and in it the lookup
    of [capturesizeclass] gives the same item with the third choice as
    its value. *)
Theorem init_selects_third_choice c nm old cs ch value :
  find_child c "capturesizeclass" = Some (Widget nm old cs ch) ->
  nth_error cs 2 = Some value ->
  exists config',
    init c = Ok tt (mkWorld false config' None 0
                            [CameraInit; CameraGetConfig;
                             CameraSetConfig config'] [])
    /\ find_child config' "capturesizeclass" = Some (Widget nm value cs ch).
Proof.
  intros Hfind Hchoice.
  pose proof (set_then_find "capturesizeclass" value c) as H.
  rewrite Hfind in H. destruct H as (config' & Hset & Hfind').
  exists config'. split; [|exact Hfind'].
  unfold init. rewrite (lookup_found c _ _ Hfind).
  cbn [get_choice]. rewrite Hchoice, Hset. reflexivity.
Qed.

Lemma init_selects_third_choice_witness :
  find_child Examples.jpeg_config "capturesizeclass"
  = Some Examples.size_class
  /\ exists config',
       init Examples.jpeg_config
       = Ok tt (mkWorld false config' None 0
                        [CameraInit; CameraGetConfig;
                         CameraSetConfig config'] [])
       /\ find_child config' "capturesizeclass"
          = Some (Widget "capturesizeclass" "Compatibility Mode"
                         ["Full Image"; "Thumbnail"; "Compatibility Mode"]%string
                         []).
Proof.
  split; [reflexivity|].
  exact (init_selects_third_choice Examples.jpeg_config _ _ _ _ _
           eq_refl eq_refl).
Defined.

Lemma init_settings c name :
  name <> "capturesizeclass"%string ->
  option_map setting (find_child (config (world_of (init c))) name)
  = option_map setting (find_child c name).
Proof.
  intros Hname. unfold init, gp_widget_get_child_by_name.
  destruct (find_child c "capturesizeclass") as [widget|]; [|reflexivity].
  cbn. destruct (get_choice widget 2) as [value|]; [|reflexivity].
  destruct (set_child_value c "capturesizeclass" value) as [config'|] eqn:E;
    [|reflexivity].
  cbn. exact (set_keeps_others _ _ name Hname c config' E).
Qed.

Lemma init_idle c :
  running (world_of (init c)) = false
  /\ shots (world_of (init c)) = 0
  /\ queue (world_of (init c)) = []
  /\ forallb (fun e => negb (is_signal e) && negb (is_capture e))
             (trace (world_of (init c))) = true.
Proof.
  unfold init, gp_widget_get_child_by_name.
  destruct (find_child c "capturesizeclass") as [widget|];
    [|now repeat split].
  cbn. destruct (get_choice widget 2) as [value|]; [|now repeat split].
  destruct (set_child_value c "capturesizeclass" value) as [config'|];
    now repeat split.
Qed.

(** X2. Whatever [__init__] does to the tree, whether it completes or
    raises, a lookup of any setting other than [capturesizeclass] in the
    tree it keeps shows the name, value and choices that the camera
    reported; and the handler starts idle, with no capture made and no
    event posted. *)
Theorem init_keeps_other_settings c name :
  name <> "capturesizeclass"%string ->
  option_map setting (find_child (config (world_of (init c))) name)
  = option_map setting (find_child c name)
  /\ running (world_of (init c)) = false
  /\ shots (world_of (init c)) = 0
  /\ queue (world_of (init c)) = [].
Proof.
  intros Hname. split; [now apply init_settings|].
  destruct (init_idle c) as (A & B & C & _). now repeat split.
Qed.

Lemma init_keeps_other_settings_witness :
  "imageformat"%string <> "capturesizeclass"%string
  /\ option_map setting
       (find_child (config (world_of (init Examples.raw_config)))
                   "imageformat")
     = Some ("imageformat", "RAW", ["Large Fine JPEG"; "RAW"])%string.
Proof.
  split; [discriminate|].
  exact (proj1 (init_keeps_other_settings Examples.raw_config "imageformat"
                  ltac:(discriminate))).
Defined.

(** X3. A [capturesizeclass] item with fewer than three choices makes
    [__init__] fail at [get_choice(2)]: nothing is set and [set_config]
    is not called. *)
Theorem init_raises_without_third_choice c widget :
  find_child c "capturesizeclass" = Some widget ->
  get_choice widget 2 = None ->
  init c = Raise "GPhoto2Error"
                 (mkWorld false c None 0 [CameraInit; CameraGetConfig] []).
Proof.
  intros Hfind Hchoice. unfold init.
  rewrite (lookup_found c _ _ Hfind), Hchoice. reflexivity.
Qed.

Lemma init_raises_without_third_choice_witness :
  find_child Examples.two_sizes_config "capturesizeclass"
  = Some Examples.two_sizes
  /\ get_choice Examples.two_sizes 2 = None
  /\ init Examples.two_sizes_config
     = Raise "GPhoto2Error"
             (mkWorld false Examples.two_sizes_config None 0
                      [CameraInit; CameraGetConfig] []).
Proof.
  split; [reflexivity|]. split; [reflexivity|].
  exact (init_raises_without_third_choice Examples.two_sizes_config
           Examples.two_sizes eq_refl eq_refl).
Defined.

End InitFacts.

(* ================================================================== *)
(** * Properties of the format guard *)

Module GuardFacts.
Import Gp GpLoops Pil Qt Metrics Handler Normal.
Local Open Scope string_scope.

Section Arithmetic.
Context {FP : Metrics.Arith}.

(** ** [in] on strings *)

Lemma prefix_iff a : forall b,
  String.prefix a b = true <-> exists post, b = a ++ post.
Proof.
  induction a as [|x a IH]; intros b.
  - split; [intros _; now exists b|now destruct b].
  - destruct b as [|y b]; cbn [String.prefix].
    + split; [discriminate|]. intros [post H]. discriminate H.
    + destruct (ascii_dec x y) as [->|Hxy].
      * rewrite IH. split; intros [post H]; exists post.
        -- cbn. now rewrite H.
        -- cbn in H. now injection H.
      * split; [discriminate|]. intros [post H]. cbn in H.
        injection H as H _. congruence.
Qed.

Lemma contains_iff sub : forall s,
  PyStr.contains sub s = true <-> exists pre post, s = pre ++ sub ++ post.
Proof.
  intros s. split.
  - induction s as [|c s IH]; cbn [PyStr.contains].
    + destruct (String.prefix sub "") eqn:E; [|discriminate].
      intros _. apply prefix_iff in E. destruct E as [post E].
      now exists "", post.
    + destruct (String.prefix sub (String c s)) eqn:E.
      * intros _. apply prefix_iff in E. destruct E as [post E].
        now exists "", post.
      * intros H. destruct (IH H) as (pre & post & E').
        exists (String c pre), post. cbn. now rewrite E'.
  - intros (pre & post & E). revert s E.
    induction pre as [|c pre IH]; intros s E.
    + assert (P : String.prefix sub s = true)
        by (apply prefix_iff; now exists post).
      destruct s; cbn [PyStr.contains]; now rewrite P.
    + subst s. cbn [append PyStr.contains].
      destruct (String.prefix sub (String c (pre ++ sub ++ post)));
        [reflexivity|]. now apply IH.
Qed.

(** X5. [_check_config] always answers.  It answers [False], after
    printing its message, exactly when the tree has an [imageformat] item
    whose value, put in lower case, has "raw" somewhere in it; otherwise
    it answers [True] and does nothing. *)
Theorem check_config_rejects_raw_only w :
  exists b : bool,
    _check_config w
    = Ok b (if b then w
            else logged w [Printed "Cannot preview raw images"])
    /\ (b = false <->
        exists widget pre post,
          find_child (config w) "imageformat" = Some widget
          /\ PyStr.lower (get_value widget) = pre ++ "raw" ++ post).
Proof.
  unfold _check_config, bind, get_config, ret, effect,
    gp_widget_get_child_by_name.
  destruct (find_child (config w) "imageformat") as [widget|] eqn:Hf.
  - cbn. destruct (PyStr.contains "raw" (PyStr.lower (get_value widget)))
      eqn:Hc.
    + exists false. split; [reflexivity|]. split; [|reflexivity].
      intros _. apply contains_iff in Hc. destruct Hc as (pre & post & E).
      now exists widget, pre, post.
    + exists true. split; [reflexivity|]. split; [discriminate|].
      intros (widget' & pre & post & E1 & E2). injection E1 as <-.
      assert (PyStr.contains "raw" (PyStr.lower (get_value widget)) = true)
        by (apply contains_iff; now exists pre, post).
      congruence.
  - cbn. exists true. split; [reflexivity|]. split; [discriminate|].
    intros (widget' & _ & _ & E1 & _). discriminate E1.
Qed.

(** ** A RAW format at start-up *)

Lemma raw_format_init c : raw_format c -> raw_format (config (world_of (init c))).
Proof.
  intros (widget & Hf & Hraw).
  pose proof (InitFacts.init_settings c "imageformat" ltac:(discriminate))
    as H.
  rewrite Hf in H. cbn [option_map] in H.
  destruct (find_child (config (world_of (init c))) "imageformat")
    as [widget'|] eqn:Hf'; [|discriminate H].
  exists widget'. split; [exact Hf'|].
  cbn [option_map] in H. injection H as H.
  destruct widget as [n v cs ch], widget' as [n' v' cs' ch'].
  cbn [setting get_value] in *. injection H as -> -> ->. exact Hraw.
Qed.

Lemma step_raw_quiet cam w w' :
  running w = false -> raw_format (config w) -> step cam w = Some w' ->
  forallb quiet (trace w) = true -> forallb quiet (trace w') = true.
Proof.
  intros Hr Hraw. unfold step, take.
  destruct (queue w) as [|[p ev] q']; [discriminate|].
  intros H Hq. injection H as <-.
  set (w1 := mkWorld (running w) (config w) (image_data w) (shots w)
                     (trace w) q').
  assert (Hr1 : running w1 = false) by exact Hr.
  assert (Hraw1 : raw_format (config w1)) by exact Hraw.
  destruct ev; cbn [event].
  - rewrite (HandlerFacts.one_shot_idle cam w1 Hr1),
      (HandlerFacts.check_config_raw w1 Hraw1).
    cbn. rewrite forallb_app, Hq. reflexivity.
  - rewrite (HandlerFacts.continuous_idle cam w1 Hr1),
      (HandlerFacts.check_config_raw w1 Hraw1).
    cbn. rewrite forallb_app, Hq. reflexivity.
  - rewrite (HandlerFacts.do_continuous_idle cam w1 Hr1). exact Hq.
Qed.

(** X4. When the camera reports a RAW image format at start-up, then
    after [__init__] (whether it completed or raised), whatever is
    clicked and however long the event loop runs, the camera is never
    asked for a preview, no signal is ever emitted and [running] is never
    set. *)
Theorem raw_at_startup_never_captures cam c w :
  raw_format c -> reachable cam (world_of (init c)) w ->
  shots w = 0
  /\ running w = false
  /\ filter is_capture (trace w) = []
  /\ signals w = [].
Proof.
  intros Hraw Hreach.
  pose proof (raw_format_init c Hraw) as Hraw0.
  destruct (InitFacts.init_idle c) as (Hr0 & Hs0 & _ & Ht0).
  assert (Hq : forallb quiet (trace w) = true).
  { induction Hreach as [|w ev Hreach IH Hev|w w' Hreach IH Hstep].
    - exact Ht0.
    - exact IH.
    - destruct (HandlerFacts.raw_never_runs cam _ w Hr0 Hraw0 Hreach)
        as (A & B & _).
      apply (step_raw_quiet cam w w' A); [now rewrite B|exact Hstep|exact IH]. }
  destruct (HandlerFacts.raw_never_runs cam _ w Hr0 Hraw0 Hreach)
    as (A & _ & C).
  split; [congruence|]. split; [exact A|].
  unfold signals. clear - Hq.
  induction (trace w) as [|e t IH]; [now split|].
  cbn in Hq. apply andb_true_iff in Hq. destruct Hq as [He Ht].
  destruct (IH Ht) as [I1 I2]. unfold quiet in He.
  apply andb_true_iff in He. destruct He as [E1 E2].
  cbn. destruct (is_signal e), (is_capture e); try discriminate.
  now split.
Qed.

End Arithmetic.

(** ** The theorems at concrete inputs, in exact arithmetic *)

#[local] Existing Instance Metrics.exact.

Lemma raw_at_startup_never_captures_witness :
  raw_format Examples.raw_config
  /\ reachable Examples.cam_ok (world_of (init Examples.raw_config))
               (click SlotOneShot (world_of (init Examples.raw_config)))
  /\ shots (click SlotOneShot (world_of (init Examples.raw_config))) = 0.
Proof.
  assert (Hraw : raw_format Examples.raw_config).
  { exists Examples.format_raw. split; reflexivity. }
  assert (Hreach : reachable Examples.cam_ok
                     (world_of (init Examples.raw_config))
                     (click SlotOneShot
                        (world_of (init Examples.raw_config)))).
  { apply reach_click; [apply reach_start|discriminate]. }
  split; [exact Hraw|]. split; [exact Hreach|].
  exact (proj1 (raw_at_startup_never_captures Examples.cam_ok
                  Examples.raw_config _ Hraw Hreach)).
Defined.

End GuardFacts.

(* ================================================================== *)
(** * Properties of the capture loop *)

Module LoopFacts.
Import Gp Pil Qt Metrics Handler Normal.

Section Arithmetic.
Context {FP : Metrics.Arith}.

(** ** What one capture emits *)

Lemma filter_signal_app t es :
  filter is_signal (t ++ es) = filter is_signal t ++ filter is_signal es.
Proof. apply filter_app. Qed.

Ltac signals_eq :=
  rewrite !filter_signal_app; cbn [filter is_signal];
  rewrite ?app_nil_r, <- ?app_assoc; cbn [app]; reflexivity.

Lemma do_capture_signals cam w :
  exists sigs,
    signals (world_of (_do_capture cam w)) = signals w ++ sigs
    /\ (sigs = []
        \/ exists OK im,
             cam (shots w) = (OK, Some im) /\ (GP_OK <= OK)%Z
             /\ capture_signals im sigs).
Proof.
  unfold signals, _do_capture, bind, gp_camera_capture_preview, ret, raise,
    effect, set_running, set_image_data.
  destruct (cam (shots w)) as [OK camera_file] eqn:Hcam.
  destruct (OK <? GP_OK)%Z eqn:Hlt; cbn.
  { exists []. split; [signals_eq|now left]. }
  apply Z.ltb_ge in Hlt.
  destruct camera_file as [im|]; cbn.
  2:{ exists []. split; [signals_eq|now left]. }
  destruct (tobytes_raw_RGB im) as [data|] eqn:Hdata; cbn.
  2:{ exists []. split; [signals_eq|now left]. }
  destruct (draw_histogram (histogram im)) as [[q_image clipping]|] eqn:Hh;
    cbn.
  2:{ exists [NewImage (size_w im) (size_h im) data].
      split; [signals_eq|]. right. exists OK, im.
      repeat split; try assumption. now apply signals_image. }
  destruct (focus_measure im) as [rms|] eqn:Hf; cbn.
  - exists [NewImage (size_w im) (size_h im) data; NewHistogram q_image;
            NewClipping clipping; NewFocus rms].
    split; [signals_eq|].
    right. exists OK, im. repeat split; try assumption.
    now apply signals_all.
  - exists [NewImage (size_w im) (size_h im) data; NewHistogram q_image;
            NewClipping clipping].
    split; [signals_eq|].
    right. exists OK, im. repeat split; try assumption.
    now apply signals_clipping.
Qed.

(** ** What one click or turn does *)

Lemma touched_self w : touched w (running w) [] = w.
Proof. destruct w. unfold touched. cbn. now rewrite app_nil_r. Qed.

Lemma logged_touched w es : logged w es = touched w (running w) es.
Proof. reflexivity. Qed.

(** The handler of an event either only touches the flag and prints, or
    runs [_do_capture] once, and then may post one [do_next]. *)
Lemma event_cases cam ev w :
  exists r es,
    forallb quiet es = true
    /\ (world_of (event cam ev w) = touched w r es
        \/ world_of (event cam ev w)
           = world_of (_do_capture cam (touched w r es))
        \/ (ev <> SlotOneShot
            /\ world_of (event cam ev w)
               = world_of (post DoNext (LowEventPriority - 1)
                             (world_of (_do_capture cam (touched w r es)))))).
Proof.
  destruct (running w) eqn:Hr; destruct ev; cbn [event].
  - exists (running w), []. split; [reflexivity|]. left.
    rewrite (HandlerFacts.one_shot_running cam w Hr). cbn.
    now rewrite touched_self.
  - exists false, []. split; [reflexivity|]. left.
    rewrite (HandlerFacts.continuous_running cam w Hr). cbn.
    unfold touched. now rewrite app_nil_r.
  - exists (running w), []. split; [reflexivity|]. rewrite touched_self.
    rewrite (HandlerFacts.do_continuous_running cam w Hr).
    destruct (_do_capture cam w) as [[] w'|exn w'].
    + right. right. split; [discriminate|reflexivity].
    + right. left. reflexivity.
  - rewrite (HandlerFacts.one_shot_idle cam w Hr).
    destruct (HandlerFacts.check_config_frame w) as (b & es & Hc & Hes).
    rewrite Hc. exists (running w), es. split; [exact Hes|].
    destruct b; [right; left|left]; reflexivity.
  - rewrite (HandlerFacts.continuous_idle cam w Hr).
    destruct (HandlerFacts.check_config_frame w) as (b & es & Hc & Hes).
    rewrite Hc. destruct b.
    + exists true, es. split; [exact Hes|].
      rewrite HandlerFacts.do_continuous_running by reflexivity.
      change (world_of (set_running true (logged w es)))
        with (touched w true es).
      destruct (_do_capture cam (touched w true es)) as [[] w'|exn w'].
      * right. right. split; [discriminate|reflexivity].
      * right. left. reflexivity.
    + exists (running w), es. split; [exact Hes|]. left. reflexivity.
  - exists (running w), []. split; [reflexivity|]. left.
    rewrite (HandlerFacts.do_continuous_idle cam w Hr). cbn.
    now rewrite touched_self.
Qed.

Lemma signals_touched w r es :
  forallb quiet es = true -> signals (touched w r es) = signals w.
Proof.
  intros H. unfold signals, touched. cbn. rewrite filter_app.
  rewrite (HandlerFacts.quiet_no_signal es H). apply app_nil_r.
Qed.

(** X6. Every click and every turn of the loop emits either nothing or,
    for the frame of the one capture it made, [new_image], then
    [new_histogram] and [new_clipping], then [new_focus], in this order
    and each at most once, up to the point the capture reached:
    [new_histogram] never comes without [new_clipping], and [new_focus]
    only after both. *)
Theorem event_emits_in_order cam ev w :
  exists sigs,
    signals (world_of (event cam ev w)) = signals w ++ sigs
    /\ (sigs = []
        \/ exists OK im,
             cam (shots w) = (OK, Some im) /\ (GP_OK <= OK)%Z
             /\ capture_signals im sigs).
Proof.
  destruct (event_cases cam ev w) as (r & es & Hes & [H|[H|[_ H]]]);
    rewrite H.
  - exists []. rewrite (signals_touched w r es Hes), app_nil_r.
    split; [reflexivity|now left].
  - destruct (do_capture_signals cam (touched w r es)) as (sigs & A & B).
    exists sigs. rewrite A, (signals_touched w r es Hes). now split.
  - destruct (do_capture_signals cam (touched w r es)) as (sigs & A & B).
    exists sigs.
    change (signals (world_of (post DoNext (LowEventPriority - 1)
                                 (world_of (_do_capture cam (touched w r es))))))
      with (signals (world_of (_do_capture cam (touched w r es)))).
    rewrite A, (signals_touched w r es Hes). now split.
Qed.

(** X7. The single-shot slot never posts an event and never sets
    [running]: it leaves the queue and the configuration as they are,
    makes at most one capture, and [running] can be set after it only if
    it was set before. *)
Theorem one_shot_never_schedules cam w :
  let w' := world_of (one_shot cam w) in
  queue w' = queue w
  /\ config w' = config w
  /\ (shots w' = shots w \/ shots w' = S (shots w))
  /\ (running w' = true -> running w = true).
Proof.
  cbv zeta. destruct (running w) eqn:Hr.
  { rewrite (HandlerFacts.one_shot_running cam w Hr). cbn.
    split; [reflexivity|]. split; [reflexivity|].
    split; [now left|]. reflexivity. }
  rewrite (HandlerFacts.one_shot_idle cam w Hr).
  destruct (HandlerFacts.check_config_frame w) as (b & es' & Hc & _).
  rewrite Hc. destruct b.
  - destruct (HandlerFacts.do_capture_frame cam (logged w es'))
      as (A & B & C & D & _).
    cbn [shots queue config running logged] in A, B, C, D.
    rewrite Hr in D.
    split; [exact B|]. split; [exact C|]. split; [now right|].
    rewrite D. now destruct (fst (cam (shots w)) <? GP_OK)%Z.
  - cbn. split; [reflexivity|]. split; [reflexivity|].
    split; [now left|]. intros H. congruence.
Qed.

(** ** A capture that raises in continuous mode *)

Lemma raise_not_failure cam w exn w' :
  _do_capture cam w = Raise exn w' ->
  (fst (cam (shots w)) <? GP_OK)%Z = false.
Proof.
  intros H. destruct (fst (cam (shots w)) <? GP_OK)%Z eqn:E; [|reflexivity].
  apply Z.ltb_lt in E.
  rewrite (HandlerFacts.do_capture_fail cam w E) in H. discriminate H.
Qed.

(** X8. When [_do_capture] raises in a turn of continuous mode (data
    that does not decode, a frame that is not RGB, a frame without
    neighbouring pixels), the exception leaves [_do_continuous] before
    the next event is posted while [running] stays set.  With nothing
    else queued the loop then stands still though the handler counts as
    running: single-shot clicks are ignored, and the next click on
    continuous only clears the flag, without a capture. *)
Theorem continuous_stalls_on_exception cam w exn w' :
  running w = true -> queue w = [] ->
  _do_capture cam w = Raise exn w' ->
  let w1 := world_of (event cam DoNext w) in
  w1 = w'
  /\ running w1 = true /\ queue w1 = [] /\ step cam w1 = None
  /\ one_shot cam w1 = Ok tt w1
  /\ running (world_of (continuous cam w1)) = false
  /\ shots (world_of (continuous cam w1)) = shots w1.
Proof.
  intros Hr Hq Hraise. cbv zeta. cbn [event].
  rewrite (HandlerFacts.do_continuous_running cam w Hr), Hraise.
  cbn [world_of].
  destruct (HandlerFacts.do_capture_frame cam w) as (_ & B & _ & D & _).
  rewrite Hraise in B, D. cbn [world_of] in B, D.
  rewrite (raise_not_failure cam w exn w' Hraise), Hr in D.
  rewrite Hq in B.
  split; [reflexivity|]. split; [exact D|]. split; [exact B|].
  split; [unfold step, take; now rewrite B|].
  split; [now apply HandlerFacts.one_shot_running|].
  now rewrite (HandlerFacts.continuous_running cam w' D).
Qed.

(** ** The order of the queue *)

Lemma post_click slots n ev :
  postEvent ev NormalEventPriority (clicks_then_pending slots n)
  = clicks_then_pending (slots ++ [ev]) n.
Proof.
  unfold clicks_then_pending.
  induction slots as [|s slots IH]; cbn [map app].
  - apply HandlerFacts.click_pending.
  - cbn [postEvent]. rewrite Z.ltb_irrefl. now rewrite IH.
Qed.

Lemma post_do_next slots n :
  postEvent DoNext (LowEventPriority - 1) (clicks_then_pending slots n)
  = clicks_then_pending slots (S n).
Proof.
  unfold clicks_then_pending.
  induction slots as [|s slots IH]; cbn [map app].
  - apply HandlerFacts.post_pending.
  - cbn [postEvent].
    replace (NormalEventPriority <? LowEventPriority - 1)%Z with false
      by reflexivity.
    now rewrite IH.
Qed.

Lemma event_queue cam ev w :
  queue (world_of (event cam ev w)) = queue w
  \/ queue (world_of (event cam ev w))
     = postEvent DoNext (LowEventPriority - 1) (queue w).
Proof.
  destruct (event_cases cam ev w) as (r & es & _ & [H|[H|[_ H]]]);
    rewrite H.
  - now left.
  - left. now destruct (HandlerFacts.do_capture_frame cam (touched w r es))
      as (_ & B & _).
  - right.
    destruct (HandlerFacts.do_capture_frame cam (touched w r es))
      as (_ & B & _).
    unfold post. cbn [world_of queue]. now rewrite B.
Qed.

Lemma pending_no_slot n :
  forallb (fun x : Z * QEvent => negb (is_slot (snd x))) (pending n) = true.
Proof. induction n as [|n IH]; [reflexivity|exact IH]. Qed.

(** X9. Starting from an empty queue, the queue of the handler's thread
    always holds the waiting clicks, in the order they were made,
    followed by the pending [do_next] events: a click is delivered
    before any capture that was scheduled earlier, and when the next
    event is a [do_next], no click is waiting. *)
Theorem clicks_before_captures cam w0 w :
  queue w0 = [] -> reachable cam w0 w ->
  exists slots n,
    queue w = clicks_then_pending slots n
    /\ forallb is_slot slots = true
    /\ (forall p q,
           queue w = (p, DoNext) :: q ->
           forallb (fun x => negb (is_slot (snd x))) q = true).
Proof.
  intros H0 Hreach.
  assert (Inv : exists slots n,
             queue w = clicks_then_pending slots n
             /\ forallb is_slot slots = true).
  { induction Hreach as [|w ev Hreach IH Hev|w w' Hreach IH Hstep].
    - exists [], 0. now rewrite H0.
    - destruct IH as (slots & n & Hq & Hs).
      exists (slots ++ [ev]), n. split.
      + unfold click, post. cbn [world_of queue]. rewrite Hq.
        apply post_click.
      + rewrite forallb_app, Hs. cbn. now destruct ev.
    - destruct IH as (slots & n & Hq & Hs).
      unfold step, take in Hstep.
      destruct (queue w) as [|[p ev] q'] eqn:Eq; [discriminate|].
      injection Hstep as <-.
      set (w1 := mkWorld (running w) (config w) (image_data w) (shots w)
                         (trace w) q').
      assert (Hq' : exists slots' n',
                 queue w1 = clicks_then_pending slots' n'
                 /\ forallb is_slot slots' = true).
      { cbn [w1 queue]. destruct slots as [|s slots].
        - destruct n as [|n]; [discriminate Hq|].
          injection Hq as _ _ ->. now exists [], n.
        - cbn in Hq, Hs. injection Hq as _ _ ->.
          apply andb_true_iff in Hs. now exists slots, n. }
      destruct Hq' as (slots' & n' & Hq' & Hs').
      destruct (event_queue cam ev w1) as [E|E]; rewrite E, Hq'.
      + now exists slots', n'.
      + exists slots', (S n'). split; [apply post_do_next|exact Hs']. }
  destruct Inv as (slots & n & Hq & Hs).
  exists slots, n. split; [exact Hq|]. split; [exact Hs|].
  intros p q E. rewrite Hq in E. destruct slots as [|s slots].
  - destruct n as [|n]; [discriminate E|].
    injection E as _ <-. apply pending_no_slot.
  - cbn in E, Hs. injection E as _ -> _. discriminate Hs.
Qed.

(** ** Continuous mode with a camera that works *)

Lemma good_frame_results im :
  good_frame im = true ->
  exists data q_image clipping rms,
    tobytes_raw_RGB im = Some data
    /\ draw_histogram (histogram im) = Some (q_image, clipping)
    /\ focus_measure im = Some rms.
Proof.
  unfold good_frame. rewrite !andb_true_iff.
  intros [[[Hwf Hlen] Hw] Hh].
  apply Nat.eqb_eq in Hlen. apply Nat.leb_le in Hw, Hh.
  destruct (bands im) as [|r [|g [|b [|x l]]]] eqn:Hb;
    try discriminate Hlen.
  assert (Hmode : mode im = RGB).
  { unfold wf_image in Hwf. rewrite Hb in Hwf.
    apply andb_true_iff in Hwf. destruct Hwf as [Hm _].
    now destruct (mode im). }
  destruct (HistogramFacts.py_max_some (band_histogram r)) as [mr Hr];
    [apply HistogramFacts.nonempty_256,
       HistogramFacts.length_band_histogram|].
  destruct (HistogramFacts.py_max_some (band_histogram g)) as [mg Hg];
    [apply HistogramFacts.nonempty_256,
       HistogramFacts.length_band_histogram|].
  destruct (HistogramFacts.py_max_some (band_histogram b)) as [mb Hbl];
    [apply HistogramFacts.nonempty_256,
       HistogramFacts.length_band_histogram|].
  destruct (FocusFacts.wf_image_rgb im r g b Hwf Hb) as (Wr & Wg & Wb).
  eexists. eexists. eexists. eexists. split; [|split].
  - unfold tobytes_raw_RGB. rewrite Hmode, Hb. reflexivity.
  - rewrite (HistogramFacts.histogram_rgb im r g b Hb).
    apply (HistogramFacts.draw_histogram_rgb _ _ _ mr mg mb);
      auto using HistogramFacts.length_band_histogram.
  - rewrite (FocusFacts.focus_measure_rgb im r g b Hwf Hb).
    unfold samples_rms.
    rewrite !(FocusFacts.horizontal_nonempty (size_w im) (size_h im))
      by (assumption || lia).
    rewrite !(FocusFacts.vertical_nonempty (size_w im) (size_h im))
      by (assumption || lia).
    reflexivity.
Qed.

Lemma steady_capture cam w :
  steady cam ->
  exists w',
    _do_capture cam w = Ok tt w'
    /\ running w' = running w /\ queue w' = queue w
    /\ config w' = config w /\ shots w' = S (shots w)
    /\ length (signals w') = length (signals w) + 4.
Proof.
  intros Hs. destruct (Hs (shots w)) as (OK & im & Hcam & HOK & Hgood).
  destruct (good_frame_results im Hgood)
    as (data & q_image & clipping & rms & Hd & Hh & Hf).
  eexists. split.
  - exact (CaptureFacts.do_capture_emits cam w OK im data q_image clipping
             rms Hcam HOK Hd Hh Hf).
  - cbn [running queue config shots]. repeat split.
    unfold signals. cbn [trace]. rewrite filter_app, length_app.
    reflexivity.
Qed.

Lemma steady_turn cam w :
  steady cam -> running w = true -> queue w = pending 1 ->
  exists w',
    step cam w = Some w'
    /\ running w' = true /\ queue w' = pending 1
    /\ config w' = config w /\ shots w' = S (shots w)
    /\ length (signals w') = length (signals w) + 4.
Proof.
  intros Hs Hr Hq.
  rewrite (HandlerFacts.step_head cam w _ DoNext [] Hq). cbn [event].
  set (w1 := mkWorld (running w) (config w) (image_data w) (shots w)
                     (trace w) []).
  rewrite (HandlerFacts.do_continuous_running cam w1 Hr).
  destruct (steady_capture cam w1 Hs) as (w' & Hc & A & B & C & D & E).
  rewrite Hc. eexists. split; [reflexivity|].
  split; [cbn; now rewrite A|].
  split; [cbn [post world_of queue]; now rewrite B|].
  split; [exact C|]. split; [exact D|exact E].
Qed.

Lemma steady_run cam :
  steady cam ->
  forall k w,
    running w = true -> queue w = pending 1 ->
    running (run cam k w) = true
    /\ queue (run cam k w) = pending 1
    /\ config (run cam k w) = config w
    /\ shots (run cam k w) = shots w + k
    /\ length (signals (run cam k w)) = length (signals w) + 4 * k.
Proof.
  intros Hs. induction k as [|k IH]; intros w Hr Hq.
  - cbn [run]. repeat split; try assumption; lia.
  - cbn [run].
    destruct (steady_turn cam w Hs Hr Hq) as (w' & Hstep & A & B & C & D & E).
    rewrite Hstep.
    destruct (IH w' A B) as (A' & B' & C' & D' & E').
    repeat split; try assumption; try congruence; lia.
Qed.

Lemma check_config_not_raw w :
  ~ raw_format (config w) -> _check_config w = Ok true w.
Proof.
  intros Hn. unfold _check_config, bind, get_config, ret, effect,
    gp_widget_get_child_by_name.
  destruct (find_child (config w) "imageformat") as [widget|] eqn:Hf;
    [|reflexivity].
  cbn. destruct (PyStr.contains "raw" (PyStr.lower (get_value widget)))
    eqn:Hc; [|reflexivity].
  exfalso. apply Hn. now exists widget.
Qed.

(** X10. With a camera whose every preview succeeds with an RGB frame of
    at least 2 x 2 pixels and a format that is not RAW, a click on
    continuous in the idle handler starts a loop that keeps itself
    going: after the click and [k] further turns exactly [k + 1]
    captures have been made, one after the other, each has emitted its
    four signals, [running] is set and exactly one [do_next] event is
    pending. *)
Theorem continuous_mode_steady cam w k :
  steady cam -> running w = false -> queue w = [] ->
  ~ raw_format (config w) ->
  let wk := run cam (S k) (click SlotContinuous w) in
  running wk = true
  /\ queue wk = pending 1
  /\ config wk = config w
  /\ shots wk = shots w + S k
  /\ length (signals wk) = length (signals w) + 4 * S k.
Proof.
  intros Hs Hr Hq Hraw. cbv zeta. cbn [run].
  assert (Hq' : queue (click SlotContinuous w)
                = [(NormalEventPriority, SlotContinuous)]).
  { unfold click, post. cbn [world_of queue]. now rewrite Hq. }
  rewrite (HandlerFacts.step_head cam _ _ _ _ Hq'). cbn [event].
  set (w1 := mkWorld (running (click SlotContinuous w))
                     (config (click SlotContinuous w))
                     (image_data (click SlotContinuous w))
                     (shots (click SlotContinuous w))
                     (trace (click SlotContinuous w)) []).
  assert (E1 : w1 = w).
  { destruct w as [r c d n t q]. cbn in Hq. subst q. reflexivity. }
  rewrite E1. clear w1 E1 Hq'.
  rewrite (HandlerFacts.continuous_idle cam w Hr),
    (check_config_not_raw w Hraw).
  set (w2 := world_of (set_running true w)).
  rewrite (HandlerFacts.do_continuous_running cam w2 eq_refl).
  destruct (steady_capture cam w2 Hs) as (w' & Hc & A & B & C & D & E).
  rewrite Hc.
  set (w3 := world_of (post DoNext (LowEventPriority - 1) w')).
  assert (R3 : running w3 = true) by (cbn; now rewrite A).
  assert (Q3 : queue w3 = pending 1).
  { unfold w3, post. cbn [world_of queue]. rewrite B.
    unfold w2, set_running. cbn [world_of queue]. now rewrite Hq. }
  assert (C3 : config w3 = config w) by exact C.
  assert (D3 : shots w3 = S (shots w)) by exact D.
  assert (E3 : length (signals w3) = length (signals w) + 4) by exact E.
  destruct (steady_run cam Hs k w3 R3 Q3) as (A' & B' & C' & D' & E').
  split; [exact A'|]. split; [exact B'|].
  split; [congruence|]. split; lia.
Qed.

End Arithmetic.

(** ** The theorems at concrete inputs, in exact arithmetic *)

#[local] Existing Instance Metrics.exact.

Lemma continuous_stalls_on_exception_witness :
  let w := mkWorld true Examples.jpeg_config None 0 [] [] in
  let w' := mkWorld true Examples.jpeg_config None 1 [CapturePreview] [] in
  running w = true /\ queue w = []
  /\ _do_capture Examples.cam_garbage w = Raise "IOError" w'
  /\ world_of (event Examples.cam_garbage DoNext w) = w'.
Proof.
  cbv zeta. split; [reflexivity|]. split; [reflexivity|].
  split; [reflexivity|].
  exact (proj1 (continuous_stalls_on_exception Examples.cam_garbage
                  (mkWorld true Examples.jpeg_config None 0 [] [])
                  "IOError"
                  (mkWorld true Examples.jpeg_config None 1
                           [CapturePreview] [])
                  eq_refl eq_refl eq_refl)).
Defined.

Lemma clicks_before_captures_witness :
  let w0 := Examples.busy Examples.jpeg_config 0 in
  queue w0 = []
  /\ reachable Examples.cam_fail w0 (click SlotOneShot w0)
  /\ exists slots n,
       queue (click SlotOneShot w0) = clicks_then_pending slots n
       /\ forallb is_slot slots = true.
Proof.
  cbv zeta.
  assert (Hreach : reachable Examples.cam_fail
                     (Examples.busy Examples.jpeg_config 0)
                     (click SlotOneShot
                        (Examples.busy Examples.jpeg_config 0))).
  { apply reach_click; [apply reach_start|discriminate]. }
  split; [reflexivity|]. split; [exact Hreach|].
  destruct (clicks_before_captures Examples.cam_fail
              (Examples.busy Examples.jpeg_config 0)
              (click SlotOneShot (Examples.busy Examples.jpeg_config 0))
              eq_refl Hreach)
    as (slots & n & A & B & _).
  now exists slots, n.
Defined.

Lemma continuous_mode_steady_witness :
  steady Examples.cam_ok
  /\ ~ raw_format (config (Examples.idle Examples.jpeg_config))
  /\ shots (run Examples.cam_ok 3
                (click SlotContinuous (Examples.idle Examples.jpeg_config)))
     = 3.
Proof.
  assert (Hs : steady Examples.cam_ok).
  { intros n. exists GP_OK, Examples.picture.
    split; [reflexivity|]. split; [discriminate|reflexivity]. }
  assert (Hraw : ~ raw_format (config (Examples.idle Examples.jpeg_config))).
  { intros (widget & Hf & Hc). cbn in Hf. injection Hf as <-.
    discriminate Hc. }
  split; [exact Hs|]. split; [exact Hraw|].
  destruct (continuous_mode_steady Examples.cam_ok
              (Examples.idle Examples.jpeg_config) 2 Hs eq_refl eq_refl Hraw)
    as (_ & _ & _ & H & _).
  exact H.
Defined.

End LoopFacts.

(* ================================================================== *)
(** * Properties of the columns of the histogram image *)

Module ColumnFacts.
Import Pil Qt Metrics.

Section Arithmetic.
Context {FP : Arith}.

(** ** Histograms that are too short *)

Lemma slice_empty_iff (l : list Z) start :
  firstn (start + 256 - start) (skipn start l) = [] <-> length l <= start.
Proof.
  rewrite Nat.add_comm, Nat.add_sub.
  pose proof (length_skipn start l) as Hlen.
  destruct (skipn start l) as [|a t]; cbn in Hlen |- *.
  - split; [lia|reflexivity].
  - split; [discriminate|lia].
Qed.

Lemma draw_colour_short hist q cl start colour :
  length hist <= start ->
  draw_colour hist (Some (q, cl, start)) colour = None.
Proof.
  intros H. unfold draw_colour.
  now rewrite (proj2 (slice_empty_iff hist start) H).
Qed.

Lemma draw_colour_long hist q cl start colour :
  start < length hist ->
  exists q' c,
    draw_colour hist (Some (q, cl, start)) colour
    = Some (q', cl ++ [c], start + 256).
Proof.
  intros H. unfold draw_colour.
  destruct (firstn (start + 256 - start) (skipn start hist)) as [|a t] eqn:E.
  - apply slice_empty_iff in E. lia.
  - cbn [py_max]. eexists. eexists. reflexivity.
Qed.

(** X16. The loop over the three colours raises (at [max] of an empty
    slice) exactly when the histogram has no entry for one of the three
    bands, that is when it has at most 512 entries; with more entries it
    completes with a clipping list of three counts (a last band of fewer
    than 256 bins is drawn as far as it goes). *)
Theorem draw_histogram_needs_three_bands hist :
  (length hist <= 512 -> draw_histogram hist = None)
  /\ (512 < length hist ->
      exists q_image clipping,
        draw_histogram hist = Some (q_image, clipping)
        /\ length clipping = 3).
Proof.
  unfold draw_histogram, colours. cbn [fold_left].
  destruct (Nat.le_gt_cases (length hist) 0) as [H0|H0].
  { rewrite (draw_colour_short hist _ _ 0 _ H0). cbn.
    split; [reflexivity|lia]. }
  destruct (draw_colour_long hist (filled 100 256 white) [] 0 0xff0000%Z H0)
    as (q1 & c1 & E1).
  rewrite E1.
  destruct (Nat.le_gt_cases (length hist) (0 + 256)) as [H1|H1].
  { rewrite (draw_colour_short hist _ _ _ _ H1). cbn.
    split; [reflexivity|cbn in H1; lia]. }
  destruct (draw_colour_long hist q1 ([] ++ [c1]) _ 0x00ff00%Z H1)
    as (q2 & c2 & E2).
  rewrite E2.
  destruct (Nat.le_gt_cases (length hist) (0 + 256 + 256)) as [H2|H2].
  { rewrite (draw_colour_short hist _ _ _ _ H2).
    split; [reflexivity|cbn in H2; lia]. }
  destruct (draw_colour_long hist q2 (([] ++ [c1]) ++ [c2]) _ 0x0000ff%Z H2)
    as (q3 & c3 & E3).
  rewrite E3. split; [cbn in H2; lia|].
  intros _. exists q3. eexists. split; reflexivity.
Qed.

End Arithmetic.

(** ** Exact arithmetic *)

#[local] Existing Instance exact.

Lemma draw_histogram_needs_three_bands_witness :
  length (band_histogram [[7%Z]]) <= 512
  /\ draw_histogram (band_histogram [[7%Z]]) = None.
Proof.
  assert (H : length (band_histogram [[7%Z]]) <= 512).
  { rewrite HistogramFacts.length_band_histogram.
    do 256 apply le_S. apply le_n. }
  split; [exact H|].
  exact (proj1 (draw_histogram_needs_three_bands _) H).
Defined.

Local Open Scope R_scope.

(** ** Truncation and order *)

Lemma Int_part_le r1 r2 : r1 <= r2 -> (Int_part r1 <= Int_part r2)%Z.
Proof.
  intros H. destruct (base_Int_part r1) as [A _].
  destruct (base_Int_part r2) as [_ B].
  assert (Hlt : IZR (Int_part r1) < IZR (Int_part r2 + 1))
    by (rewrite plus_IZR; lra).
  apply lt_IZR in Hlt. lia.
Qed.

(** X11. With the fullest bin fixed, the column at which a bin is marked
    never moves to the left when the count of the bin grows. *)
Theorem column_monotone c1 c2 m :
  (0 <= c1)%Z -> (c1 <= c2)%Z -> (0 <= m)%Z ->
  (to_int (bar_length c1 m) <= to_int (bar_length c2 m))%Z.
Proof.
  intros H1 H12 Hm.
  rewrite !HistogramFacts.to_int_nonneg
    by apply HistogramFacts.bar_length_nonneg.
  apply Int_part_le. now apply HistogramFacts.bar_length_le_mono.
Qed.

Lemma column_monotone_witness :
  (0 <= 3)%Z /\ (3 <= 40)%Z /\ (0 <= 1000)%Z
  /\ (to_int (bar_length 3 1000) <= to_int (bar_length 40 1000))%Z.
Proof.
  split; [lia|]. split; [lia|]. split; [lia|].
  exact (column_monotone 3 40 1000 ltac:(discriminate) ltac:(discriminate)
           ltac:(discriminate)).
Defined.

(** ** The fullest bin *)

Lemma fold_max_in l : forall a, In (fold_left Z.max l a) (a :: l).
Proof.
  induction l as [|b l IH]; intros a; cbn [fold_left].
  - now left.
  - destruct (IH (Z.max a b)) as [E|E].
    + rewrite <- E. destruct (Z.max_spec a b) as [[_ ->]|[_ ->]].
      * right. now left.
      * now left.
    + right. now right.
Qed.

Lemma py_max_attained l m :
  py_max l = Some m -> exists x, (x < length l)%nat /\ nth x l 0%Z = m.
Proof.
  destruct l as [|a l]; [discriminate|]. cbn [py_max].
  intros H. injection H as <-.
  apply In_nth. apply fold_max_in.
Qed.

Lemma marked_full band_hist m x k :
  nth x band_hist 0%Z = m -> (0 <= m)%Z ->
  marked band_hist m x k = ((98 =? k) || (99 =? k))%Z.
Proof.
  intros Hx Hm. rewrite HistogramFacts.marked_in_exact, Hx.
  rewrite HistogramFacts.to_int_succ
    by apply HistogramFacts.bar_length_nonneg.
  rewrite (HistogramFacts.bar_length_full m Hm).
  rewrite (HistogramFacts.to_int_IZR 98) by lia. reflexivity.
Qed.

(** X12. In the histogram image of an RGB frame every channel has a
    fullest bin, and a fullest bin is marked at the two rightmost columns
    used, 98 and 99, and nowhere else; for the blue channel, drawn last,
    these two pixels are blue in the image, which is the one that
    [_do_capture] emits for the frame. *)
Theorem fullest_bin_at_right_edge image r g b :
  bands image = [r; g; b] ->
  exists q_image clipping,
    draw_histogram (histogram image) = Some (q_image, clipping)
    /\ (forall band, In band [r; g; b] ->
          exists m x,
            py_max (band_histogram band) = Some m /\ (x < 256)%nat
            /\ nth x (band_histogram band) 0%Z = m
            /\ forall k, marked (band_histogram band) m x k
                         = ((98 =? k) || (99 =? k))%Z)
    /\ (exists x, (x < 256)%nat
                  /\ pixel q_image 98 (Z.of_nat x) = 0x0000ff%Z
                  /\ pixel q_image 99 (Z.of_nat x) = 0x0000ff%Z)
    /\ (forall cam w OK,
          cam (Handler.shots w) = (OK, Some image) -> (Gp.GP_OK <= OK)%Z ->
          mode image = RGB ->
          In (Handler.NewHistogram q_image)
             (Handler.trace (Handler.world_of (Handler._do_capture cam w)))).
Proof.
  intros H. rewrite (HistogramFacts.histogram_rgb image r g b H).
  assert (Hband : forall band,
             exists m x,
               py_max (band_histogram band) = Some m /\ (x < 256)%nat
               /\ nth x (band_histogram band) 0%Z = m
               /\ forall k, marked (band_histogram band) m x k
                            = ((98 =? k) || (99 =? k))%Z).
  { intros band.
    destruct (HistogramFacts.py_max_some (band_histogram band)) as [m Hm];
      [apply HistogramFacts.nonempty_256,
         HistogramFacts.length_band_histogram|].
    destruct (py_max_attained _ _ Hm) as (x & Hx & Hn).
    rewrite HistogramFacts.length_band_histogram in Hx.
    exists m, x. repeat split; try assumption.
    intros k. apply marked_full; [exact Hn|].
    rewrite <- Hn, HistogramFacts.nth_band_histogram by exact Hx.
    unfold count_value. lia. }
  destruct (Hband r) as (mr & _ & Hr & _).
  destruct (Hband g) as (mg & _ & Hg & _).
  destruct (Hband b) as (mb & x & Hb & Hx & Hn & Hmark).
  destruct (HistogramFacts.draw_histogram_pixel _ _ _ mr mg mb
              (HistogramFacts.length_band_histogram r)
              (HistogramFacts.length_band_histogram g)
              (HistogramFacts.length_band_histogram b) Hr Hg Hb)
    as (q & Hq & Hpix).
  exists q. eexists. split; [exact Hq|]. split; [|split].
  - intros band _. apply Hband.
  - exists x. split; [exact Hx|].
    rewrite !Hpix by (assumption || lia). rewrite !Hmark. now split.
  - intros cam w OK Hcam HOK Hmode.
    rewrite <- (HistogramFacts.histogram_rgb image r g b H) in Hq.
    exact (proj1 (EmittedFacts.rgb_frame_emits cam w OK image r g b q _
                    Hcam HOK Hmode H Hq)).
Qed.

Lemma fullest_bin_at_right_edge_witness :
  bands Examples.white_pixel = [ [[255]]; [[255]]; [[255]] ]%Z
  /\ exists q_image x,
       (x < 256)%nat /\ pixel q_image 98 (Z.of_nat x) = 0x0000ff%Z.
Proof.
  split; [reflexivity|].
  destruct (fullest_bin_at_right_edge Examples.white_pixel _ _ _ eq_refl)
    as (q_image & _ & _ & _ & (x & Hx & H98 & _) & _).
  now exists q_image, x.
Defined.

(** ** Thresholds of the logarithm *)

Lemma ln_le_iff a b : 0 < a -> 0 < b -> (ln a <= ln b <-> a <= b).
Proof.
  intros Ha Hb. split.
  - intros H. apply Rnot_lt_le. intros Hlt.
    pose proof (ln_increasing b a Hb Hlt). lra.
  - now apply HistogramFacts.ln_le_mono.
Qed.

Lemma ln_scaled z n :
  0 < z -> ln (z * 10 ^ n) = log10 z * ln 10 + INR n * ln 10.
Proof.
  intros Hz. assert (Hp : 0 < 10 ^ n) by (apply pow_lt; lra).
  rewrite ln_mult, ln_pow by (assumption || lra).
  unfold log10. field. pose proof HistogramFacts.ln_10_pos. lra.
Qed.

Lemma log10_at_least z n :
  0 < z -> (- INR n <= log10 z <-> 1 <= z * 10 ^ n).
Proof.
  intros Hz. pose proof HistogramFacts.ln_10_pos as H10.
  assert (Hp : 0 < 10 ^ n) by (apply pow_lt; lra).
  assert (Hzp : 0 < z * 10 ^ n) by (apply Rmult_lt_0_compat; assumption).
  rewrite <- (ln_le_iff 1 (z * 10 ^ n)) by lra.
  rewrite ln_1, (ln_scaled z n Hz). split; intros H; nra.
Qed.

Lemma log10_at_most z n :
  0 < z -> (log10 z <= - INR n <-> z * 10 ^ n <= 1).
Proof.
  intros Hz. pose proof HistogramFacts.ln_10_pos as H10.
  assert (Hp : 0 < 10 ^ n) by (apply pow_lt; lra).
  assert (Hzp : 0 < z * 10 ^ n) by (apply Rmult_lt_0_compat; assumption).
  rewrite <- (ln_le_iff (z * 10 ^ n) 1) by lra.
  rewrite ln_1, (ln_scaled z n Hz). split; intros H; nra.
Qed.

Lemma log10_pow y n : 0 < y -> log10 (y ^ n) = INR n * log10 y.
Proof.
  intros Hy. unfold log10. rewrite ln_pow by exact Hy.
  field. pose proof HistogramFacts.ln_10_pos. lra.
Qed.

Lemma bar_length_zero_iff c m :
  (0 <= c)%Z -> (0 <= m)%Z ->
  (bar_length c m = 0 <-> ((1 + c) * 100000 <= 1 + m)%Z).
Proof.
  intros Hc Hm.
  assert (Hy : 0 < ratio c m) by now apply HistogramFacts.ratio_pos.
  assert (Ha : 0 < IZR (1 + c)) by (apply IZR_lt; lia).
  assert (Hb : 0 < IZR (1 + m)) by (apply IZR_lt; lia).
  assert (E5 : INR 5 = 5) by (simpl; lra).
  assert (Ey : ratio c m * IZR (1 + m) = IZR (1 + c))
    by (unfold ratio; field; lra).
  assert (Hthr : log10 (ratio c m) <= -5
                 <-> ((1 + c) * 100000 <= 1 + m)%Z).
  { replace (-5) with (- INR 5) by lra.
    rewrite (log10_at_most _ 5 Hy).
    replace (10 ^ 5) with 100000 by (simpl; lra). split; intros H.
    - apply le_IZR. rewrite mult_IZR. nra.
    - apply IZR_le in H. rewrite mult_IZR in H. nra. }
  rewrite <- Hthr, HistogramFacts.bar_length_ratio.
  split; intros H.
  - destruct (Rle_dec (1 + log10 (ratio c m) / 5) 0) as [Hle|Hgt]; [lra|].
    rewrite Rmax_right in H by lra. lra.
  - rewrite Rmax_left by lra. lra.
Qed.

(** X13. A bin is clamped to bar length 0, and then marked at columns 0
    and 1, exactly when the fullest bin is at least five decades above
    it: [(1 + count) * 100000 <= 1 + max_count]. *)
Theorem bar_clamped_below_five_decades band_hist m x :
  (0 <= nth x band_hist 0)%Z -> (0 <= m)%Z ->
  (bar_length (nth x band_hist 0%Z) m = 0
   <-> ((1 + nth x band_hist 0) * 100000 <= 1 + m)%Z)
  /\ (((1 + nth x band_hist 0) * 100000 <= 1 + m)%Z ->
      forall k, marked band_hist m x k = ((0 =? k) || (1 =? k))%Z).
Proof.
  intros Hc Hm. split; [now apply bar_length_zero_iff|].
  intros H k. apply (bar_length_zero_iff _ m Hc Hm) in H.
  rewrite HistogramFacts.marked_in_exact, H, Rplus_0_l.
  rewrite (HistogramFacts.to_int_IZR 0), (HistogramFacts.to_int_IZR 1)
    by lia.
  reflexivity.
Qed.

Lemma bar_clamped_below_five_decades_witness :
  (0 <= nth 0 [0; 99999] 0)%Z /\ (0 <= 99999)%Z
  /\ bar_length (nth 0 [0; 99999]%Z 0%Z) 99999 = 0.
Proof.
  split; [discriminate|]. split; [discriminate|].
  apply (proj1 (bar_clamped_below_five_decades [0; 99999]%Z 99999 0
                  ltac:(discriminate) ltac:(discriminate))).
  discriminate.
Defined.

End ColumnFacts.

(* ================================================================== *)
(** * Further properties of the focus measurement *)

Module SharpnessFacts.
Import Pil Metrics Frames.
Local Open Scope R_scope.

(** ** When the measurement is zero *)

Lemma sum2_nonneg l : (0 <= sum2 l)%Z.
Proof.
  induction l as [|v l IH]; cbn [sum2 fold_right]; [lia|].
  fold (sum2 l). nia.
Qed.

Lemma sum2_zero_iff l : sum2 l = 0%Z <-> Forall (fun d => d = 0%Z) l.
Proof.
  induction l as [|v l IH]; cbn [sum2 fold_right].
  - split; [constructor|reflexivity].
  - fold (sum2 l). pose proof (sum2_nonneg l) as Hs. split.
    + intros H. assert (Hv : (v = 0)%Z) by nia.
      assert (Hl : (sum2 l = 0)%Z) by nia.
      constructor; [assumption|now apply IH].
    + intros H. inversion H as [|? ? Hv Hl]; subst.
      apply IH in Hl. rewrite Hl. reflexivity.
Qed.

Lemma rms_nonneg l : 0 <= rms_of l.
Proof. apply sqrt_pos. Qed.

Lemma rms_zero_iff l :
  l <> [] -> (rms_of l = 0 <-> Forall (fun d => d = 0%Z) l).
Proof.
  intros Hl. rewrite <- sum2_zero_iff. unfold rms_of, count.
  assert (Hn : 0 < IZR (Z.of_nat (length l))).
  { apply IZR_lt. destruct l; [congruence|cbn [length]; lia]. }
  assert (Hs : 0 <= IZR (sum2 l)) by (apply IZR_le, sum2_nonneg).
  split; intros H.
  - apply sqrt_eq_0 in H.
    + apply eq_IZR.
      apply (Rmult_eq_reg_r (/ IZR (Z.of_nat (length l)))).
      * unfold Rdiv in H. rewrite H. lra.
      * apply Rgt_not_eq, Rinv_0_lt_compat, Hn.
    + apply Rmult_le_pos; [exact Hs|]. left. now apply Rinv_0_lt_compat.
  - rewrite H. unfold Rdiv. rewrite Rmult_0_l. apply sqrt_0.
Qed.

Lemma nonempty_of_count l : (count l =? 0)%Z = false -> l <> [].
Proof. intros H E. subst. discriminate H. Qed.

Lemma band_score_zero_iff w h b :
  wf_band w h b = true -> (2 <= w)%nat -> (2 <= h)%nat ->
  (focus_score_band b = 0 <-> still b).
Proof.
  intros Hwf Hw Hh. unfold focus_score_band, still.
  pose proof (rms_nonneg (vertical_diffs b)) as Hv.
  pose proof (rms_nonneg (horizontal_diffs b)) as Hhz.
  assert (Nv : vertical_diffs b <> [])
    by (apply nonempty_of_count,
          (FocusFacts.vertical_nonempty w h b Hwf); lia).
  assert (Nh : horizontal_diffs b <> [])
    by (apply nonempty_of_count,
          (FocusFacts.horizontal_nonempty w h b Hwf); lia).
  rewrite Forall_app, <- (rms_zero_iff _ Nv), <- (rms_zero_iff _ Nh).
  split; [intros H; split; lra|intros [A B]; lra].
Qed.

Lemma focus_measure_good image r g b :
  wf_image image = true -> bands image = [r; g; b] ->
  (2 <= size_w image)%nat -> (2 <= size_h image)%nat ->
  focus_measure image
  = Some [focus_score_band r; focus_score_band g; focus_score_band b].
Proof.
  intros Hwf Hb Hw Hh.
  destruct (FocusFacts.wf_image_rgb image r g b Hwf Hb) as (Wr & Wg & Wb).
  rewrite (FocusFacts.focus_measure_rgb image r g b Hwf Hb).
  unfold samples_rms.
  rewrite !(FocusFacts.horizontal_nonempty (size_w image) (size_h image))
    by (assumption || lia).
  rewrite !(FocusFacts.vertical_nonempty (size_w image) (size_h image))
    by (assumption || lia).
  reflexivity.
Qed.

(** X17. For an RGB frame of at least 2 x 2 pixels, the focus value of a
    channel is 0 exactly when no sample of the channel differs from its
    left or upper neighbour; any detail in the channel gives a positive
    value. *)
Theorem focus_zero_iff_still image r g b :
  wf_image image = true -> bands image = [r; g; b] ->
  (2 <= size_w image)%nat -> (2 <= size_h image)%nat ->
  exists sr sg sb,
    focus_measure image = Some [sr; sg; sb]
    /\ (sr = 0 <-> still r) /\ (sg = 0 <-> still g) /\ (sb = 0 <-> still b)
    /\ 0 <= sr /\ 0 <= sg /\ 0 <= sb.
Proof.
  intros Hwf Hb Hw Hh.
  destruct (FocusFacts.wf_image_rgb image r g b Hwf Hb) as (Wr & Wg & Wb).
  exists (focus_score_band r), (focus_score_band g), (focus_score_band b).
  split; [now apply focus_measure_good|].
  split; [exact (band_score_zero_iff _ _ r Wr Hw Hh)|].
  split; [exact (band_score_zero_iff _ _ g Wg Hw Hh)|].
  split; [exact (band_score_zero_iff _ _ b Wb Hw Hh)|].
  unfold focus_score_band.
  repeat split;
    match goal with
    | |- 0 <= rms_of ?a + rms_of ?b =>
        pose proof (rms_nonneg a); pose proof (rms_nonneg b); lra
    end.
Qed.

Lemma focus_zero_iff_still_witness :
  wf_image Examples.grey_picture = true
  /\ exists sr sg sb,
       focus_measure Examples.grey_picture = Some [sr; sg; sb] /\ sr = 0.
Proof.
  split; [reflexivity|].
  destruct (focus_zero_iff_still Examples.grey_picture _ _ _
              eq_refl eq_refl (le_n 2) (le_n 2))
    as (sr & sg & sb & H & Hr & _).
  exists sr, sg, sb. split; [exact H|].
  apply Hr. unfold still. cbn. repeat constructor.
Defined.

(** ** Brightness *)

Lemma rotate_right_map {A B : Type} (f : A -> B) k l :
  rotate_right k (map f l) = map f (rotate_right k l).
Proof.
  unfold rotate_right. rewrite length_map, skipn_map, firstn_map.
  now rewrite map_app.
Qed.

Lemma combine_map_both {A B C D : Type} (f : A -> C) (g : B -> D) l :
  forall l',
    combine (map f l) (map g l')
    = map (fun p => (f (fst p), g (snd p))) (combine l l').
Proof.
  induction l as [|a l IH]; intros [|b l']; cbn; try reflexivity.
  now rewrite IH.
Qed.

Lemma offset_band_brighten d x y b :
  offset_band x y (brighten_band d b)
  = brighten_band d (offset_band x y b).
Proof.
  unfold offset_band, brighten_band.
  rewrite map_map.
  rewrite (map_ext (fun row => rotate_right x (map (Z.add d) row))
                   (fun row => map (Z.add d) (rotate_right x row)))
    by (intros row; apply rotate_right_map).
  rewrite <- (map_map (rotate_right x) (map (Z.add d))).
  apply rotate_right_map.
Qed.

Lemma difference_row_shift d r1 r2 :
  difference_row (map (Z.add d) r1, map (Z.add d) r2)
  = difference_row (r1, r2).
Proof.
  unfold difference_row. cbn [fst snd].
  rewrite combine_map_both, map_map. apply map_ext.
  intros [a b]. unfold absdiff. cbn [fst snd]. f_equal. lia.
Qed.

Lemma difference_band_shift d b1 b2 :
  difference_band (brighten_band d b1, brighten_band d b2)
  = difference_band (b1, b2).
Proof.
  unfold difference_band, brighten_band. cbn [fst snd].
  rewrite combine_map_both, map_map. apply map_ext.
  intros [r1 r2]. cbn [fst snd]. apply difference_row_shift.
Qed.

Lemma difference_offset_brighten d im x y :
  difference (brighten d im) (offset (brighten d im) x y)
  = difference im (offset im x y).
Proof.
  unfold difference, offset, brighten. cbn [mode size_w size_h bands].
  assert (E : map difference_band
                (combine (map (brighten_band d) (bands im))
                   (map (offset_band x y)
                      (map (brighten_band d) (bands im))))
              = map difference_band
                  (combine (bands im) (map (offset_band x y) (bands im)))).
  { induction (bands im) as [|b l IH]; [reflexivity|].
    cbn [map combine]. rewrite IH.
    now rewrite offset_band_brighten, difference_band_shift. }
  now rewrite E.
Qed.

(** X18. The focus measurement does not see brightness: adding the same
    amount to every sample of a frame leaves it unchanged, whether it
    yields a list or raises. *)
Theorem focus_ignores_brightness d image :
  focus_measure (brighten d image) = focus_measure image.
Proof.
  unfold focus_measure.
  rewrite !difference_offset_brighten. reflexivity.
Qed.

(** ** Bounds *)

Lemma wf_band_bytes w h b :
  wf_band w h b = true -> Forall (Forall byte) b.
Proof.
  unfold wf_band. intros H. apply andb_true_iff in H. destruct H as [_ H].
  rewrite forallb_forall in H. apply Forall_forall. intros row Hin.
  specialize (H row Hin). apply andb_true_iff in H. destruct H as [_ H].
  rewrite forallb_forall in H. apply Forall_forall. intros v Hv.
  specialize (H v Hv). unfold sample_ok in H.
  apply andb_true_iff in H. destruct H as [A B].
  apply Z.leb_le in A. apply Z.ltb_lt in B. unfold byte. lia.
Qed.

Lemma difference_row_bytes r1 r2 :
  Forall byte r1 -> Forall byte r2 -> Forall byte (difference_row (r1, r2)).
Proof.
  intros H1. revert r2. unfold difference_row. cbn [fst snd].
  induction H1 as [|a l Ha Hl IH]; intros r2 H2; [constructor|].
  destruct H2 as [|b l' Hb Hl']; [constructor|].
  cbn [combine map]. constructor; [|now apply IH].
  unfold absdiff, byte in *. cbn [fst snd]. lia.
Qed.

Lemma Forall_tl {A : Type} (P : A -> Prop) l : Forall P l -> Forall P (tl l).
Proof. intros H. destruct H; [constructor|assumption]. Qed.

Lemma horizontal_bytes b :
  Forall (Forall byte) b -> Forall byte (horizontal_diffs b).
Proof.
  intros H. unfold horizontal_diffs.
  induction H as [|row l Hrow Hl IH]; [constructor|].
  cbn [map concat]. apply Forall_app. split; [|exact IH].
  apply (difference_row_bytes (tl row) row); [now apply Forall_tl|exact Hrow].
Qed.

Lemma vertical_bytes b :
  Forall (Forall byte) b -> Forall byte (vertical_diffs b).
Proof.
  intros H. unfold vertical_diffs.
  assert (G : forall l1 l2,
             Forall (Forall byte) l1 -> Forall (Forall byte) l2 ->
             Forall byte (concat (map difference_row (combine l1 l2)))).
  { intros l1 l2 H1. revert l2.
    induction H1 as [|r1 l1 Hr1 Hl1 IH]; intros l2 H2; [constructor|].
    destruct H2 as [|r2 l2 Hr2 Hl2]; [constructor|].
    cbn [combine map concat]. apply Forall_app. split; [|now apply IH].
    now apply difference_row_bytes. }
  apply G; [now apply Forall_tl|exact H].
Qed.

Lemma sum2_bytes l :
  Forall byte l -> (sum2 l <= 65025 * Z.of_nat (length l))%Z.
Proof.
  intros H. induction H as [|v l Hv Hl IH]; cbn [sum2 fold_right length].
  - lia.
  - fold (sum2 l). unfold byte in Hv. nia.
Qed.

Lemma rms_bytes l : Forall byte l -> 0 <= rms_of l <= 255.
Proof.
  intros H. split; [apply rms_nonneg|].
  unfold rms_of, count.
  replace 255 with (sqrt (255 * 255)) by (apply sqrt_square; lra).
  apply sqrt_le_1_alt.
  pose proof (sum2_bytes l H) as Hs. apply IZR_le in Hs.
  rewrite mult_IZR in Hs.
  destruct l as [|v l].
  - cbn. unfold Rdiv. rewrite Rmult_0_l. lra.
  - assert (Hn : 0 < IZR (Z.of_nat (length (v :: l))))
      by (apply IZR_lt; cbn [length]; lia).
    apply (Rmult_le_reg_r (IZR (Z.of_nat (length (v :: l))))); [exact Hn|].
    unfold Rdiv. rewrite Rmult_assoc, Rinv_l by lra. lra.
Qed.

(** The measurement of a frame that the camera delivers is emitted. *)
Lemma emitted_measurement image r g b :
  wf_image image = true -> bands image = [r; g; b] ->
  forall (FP : Arith) cam w OK score,
    cam (Handler.shots w) = (OK, Some image) -> (Gp.GP_OK <= OK)%Z ->
    focus_measure image = Some score ->
    In (Handler.NewFocus score)
       (Handler.trace (Handler.world_of (Handler._do_capture cam w))).
Proof.
  intros Hwf Hb FP cam w OK score Hcam HOK Hf.
  assert (Hmode : mode image = RGB).
  { unfold wf_image in Hwf. rewrite Hb in Hwf.
    apply andb_true_iff in Hwf. destruct Hwf as [Hm _].
    now destruct (mode image). }
  destruct (HistogramFacts.clipping_of_frame image r g b Hb)
    as (q & cl & Hh & _).
  exact (proj2 (proj2 (EmittedFacts.rgb_frame_emits cam w OK image r g b
                         q cl Hcam HOK Hmode Hb Hh)) score Hf).
Qed.

(** X19. For an RGB frame of at least 2 x 2 pixels with samples in
    0..255, each of the three focus values lies between 0 and 510 (each
    of the two root mean squares it adds is at most 255); these are the
    values that [_do_capture] emits for the frame. *)
Theorem focus_bounded image r g b :
  wf_image image = true -> bands image = [r; g; b] ->
  (2 <= size_w image)%nat -> (2 <= size_h image)%nat ->
  exists score,
    focus_measure image = Some score
    /\ length score = 3%nat
    /\ Forall (fun s => 0 <= s <= 510) score
    /\ forall (FP : Arith) cam w OK,
         cam (Handler.shots w) = (OK, Some image) -> (Gp.GP_OK <= OK)%Z ->
         In (Handler.NewFocus score)
            (Handler.trace (Handler.world_of (Handler._do_capture cam w))).
Proof.
  intros Hwf Hb Hw Hh.
  destruct (FocusFacts.wf_image_rgb image r g b Hwf Hb) as (Wr & Wg & Wb).
  eexists. split; [now apply (focus_measure_good image r g b)|].
  split; [reflexivity|].
  split; [|intros FP cam w OK Hcam HOK;
           apply (emitted_measurement image r g b Hwf Hb FP cam w OK _
                    Hcam HOK);
           now apply (focus_measure_good image r g b)].
  assert (B : forall band, wf_band (size_w image) (size_h image) band = true ->
                           0 <= focus_score_band band <= 510).
  { intros band W. unfold focus_score_band.
    pose proof (wf_band_bytes _ _ band W) as Hbytes.
    pose proof (rms_bytes _ (vertical_bytes band Hbytes)).
    pose proof (rms_bytes _ (horizontal_bytes band Hbytes)). lra. }
  constructor; [now apply B|]. constructor; [now apply B|].
  constructor; [now apply B|]. constructor.
Qed.

Lemma focus_bounded_witness :
  wf_image Examples.picture = true
  /\ exists score,
       focus_measure Examples.picture = Some score
       /\ Forall (fun s => 0 <= s <= 510) score.
Proof.
  split; [reflexivity|].
  destruct (focus_bounded Examples.picture _ _ _ eq_refl eq_refl
              (le_S _ _ (le_n 2)) (le_n 2))
    as (score & H & _ & B & _).
  now exists score.
Defined.

End SharpnessFacts.

(* ================================================================== *)
(** * Frames without neighbouring pixels *)

Module EdgeFacts.
Import Gp Pil Qt Metrics Handler.

Section Arithmetic.
Context {FP : Metrics.Arith}.

Lemma thin_no_horizontal w h b :
  wf_band w h b = true -> w <= 1 -> horizontal_diffs b = [].
Proof.
  intros Hwf Hw. destruct (FocusFacts.wf_band_spec w h b Hwf) as [_ Hrows].
  unfold horizontal_diffs. clear Hwf.
  induction b as [|row l IH]; [reflexivity|].
  cbn [map concat]. rewrite IH by (intros r Hr; apply Hrows; now right).
  assert (Hlen : length row = w) by (apply Hrows; now left).
  destruct row as [|x [|y t]]; try reflexivity. cbn in Hlen. lia.
Qed.

Lemma low_no_vertical w h b :
  wf_band w h b = true -> h <= 1 -> vertical_diffs b = [].
Proof.
  intros Hwf Hh. destruct (FocusFacts.wf_band_spec w h b Hwf) as [Hlen _].
  destruct b as [|r0 [|r1 l]]; try reflexivity. cbn in Hlen. lia.
Qed.

Lemma degenerate_focus image r g b :
  wf_image image = true -> bands image = [r; g; b] ->
  size_w image <= 1 \/ size_h image <= 1 ->
  focus_measure image = None.
Proof.
  intros Hwf Hb Hsize.
  destruct (FocusFacts.wf_image_rgb image r g b Hwf Hb) as (Wr & _).
  rewrite (FocusFacts.focus_measure_rgb image r g b Hwf Hb).
  destruct Hsize as [Hw|Hh].
  - now rewrite (thin_no_horizontal _ _ r Wr Hw).
  - rewrite (low_no_vertical _ _ r Wr Hh).
    now destruct (traverse _).
Qed.

Lemma rgb_frame_results image r g b :
  wf_image image = true -> bands image = [r; g; b] ->
  exists data q_image clipping,
    tobytes_raw_RGB image = Some data
    /\ draw_histogram (histogram image) = Some (q_image, clipping).
Proof.
  intros Hwf Hb.
  assert (Hmode : mode image = RGB).
  { unfold wf_image in Hwf. rewrite Hb in Hwf.
    apply andb_true_iff in Hwf. destruct Hwf as [Hm _].
    now destruct (mode image). }
  destruct (HistogramFacts.py_max_some (band_histogram r)) as [mr Hr];
    [apply HistogramFacts.nonempty_256,
       HistogramFacts.length_band_histogram|].
  destruct (HistogramFacts.py_max_some (band_histogram g)) as [mg Hg];
    [apply HistogramFacts.nonempty_256,
       HistogramFacts.length_band_histogram|].
  destruct (HistogramFacts.py_max_some (band_histogram b)) as [mb Hbl];
    [apply HistogramFacts.nonempty_256,
       HistogramFacts.length_band_histogram|].
  eexists. eexists. eexists. split.
  - unfold tobytes_raw_RGB. rewrite Hmode, Hb. reflexivity.
  - rewrite (HistogramFacts.histogram_rgb image r g b Hb).
    apply (HistogramFacts.draw_histogram_rgb _ _ _ mr mg mb);
      auto using HistogramFacts.length_band_histogram.
Qed.

(** X20. An RGB frame that is only one pixel wide or one pixel high has
    no neighbouring pixels in that direction: the statistics divide by
    zero, so [_do_capture] raises after it has emitted [new_image],
    [new_histogram] and [new_clipping]; [new_focus] is not emitted, and
    [running] and the queue are left as they were. *)
Theorem degenerate_frame_raises cam w OK image r g b :
  cam (shots w) = (OK, Some image) -> (GP_OK <= OK)%Z ->
  wf_image image = true -> bands image = [r; g; b] ->
  size_w image <= 1 \/ size_h image <= 1 ->
  exists w' data q_image clipping,
    _do_capture cam w = Raise "ZeroDivisionError" w'
    /\ trace w'
       = trace w ++ [CapturePreview;
                     NewImage (size_w image) (size_h image) data;
                     NewHistogram q_image; NewClipping clipping]
    /\ running w' = running w /\ queue w' = queue w.
Proof.
  intros Hcam HOK Hwf Hb Hsize.
  destruct (rgb_frame_results image r g b Hwf Hb)
    as (data & q_image & clipping & Hd & Hh).
  pose proof (degenerate_focus image r g b Hwf Hb Hsize) as Hf.
  eexists. exists data, q_image, clipping.
  unfold _do_capture, bind, gp_camera_capture_preview. rewrite Hcam.
  assert (Hlt : (OK <? GP_OK)%Z = false) by (apply Z.ltb_ge; exact HOK).
  rewrite Hlt, Hd. unfold set_image_data, effect. cbn.
  rewrite Hh. cbn. rewrite Hf. cbn.
  split; [reflexivity|]. cbn. rewrite <- !app_assoc. now repeat split.
Qed.

End Arithmetic.

(** ** The theorems at concrete inputs, in exact arithmetic *)

#[local] Existing Instance Metrics.exact.

Lemma degenerate_frame_raises_witness :
  wf_image Examples.thin_picture = true
  /\ (size_w Examples.thin_picture <= 1 \/ size_h Examples.thin_picture <= 1)
  /\ exists w',
       _do_capture Examples.cam_thin (Examples.idle Examples.jpeg_config)
       = Raise "ZeroDivisionError" w'.
Proof.
  split; [reflexivity|]. split; [left; apply le_n|].
  destruct (degenerate_frame_raises Examples.cam_thin
              (Examples.idle Examples.jpeg_config) GP_OK
              Examples.thin_picture _ _ _ eq_refl ltac:(discriminate)
              eq_refl eq_refl (or_introl (le_n 1)))
    as (w' & _ & _ & _ & H & _).
  now exists w'.
Defined.

End EdgeFacts.

(* ================================================================== *)
(** * Properties of the clipping label *)

Module DisplayFacts.
Import MainWindow.
Local Open Scope string_scope.

Section Arithmetic.
Context {FP : Metrics.Arith}.

Lemma append_empty s : s ++ "" = s.
Proof. induction s as [|c s IH]; cbn; [reflexivity|now rewrite IH]. Qed.

Lemma push_nonempty c ts : push c ts <> [].
Proof. destruct ts; discriminate. Qed.

Lemma tokens_nonempty s : tokens s <> [].
Proof.
  destruct s as [|c [|c' s'']]; cbn [tokens]; try discriminate.
  destruct ((c =? ",") && (c' =? " "))%char; [discriminate|].
  apply push_nonempty.
Qed.

Lemma tokens_cons c s :
  c <> ","%char -> tokens (String c s) = push c (tokens s).
Proof.
  intros Hc. destruct s as [|c' s'']; cbn [tokens]; [reflexivity|].
  destruct (Ascii.eqb_spec c ","); [contradiction|reflexivity].
Qed.

Lemma tokens_free_app x rest :
  comma_free x -> tokens (x ++ rest) = prepend x (tokens rest).
Proof.
  induction x as [|c x IH]; intros Hx.
  - cbn. pose proof (tokens_nonempty rest). now destruct (tokens rest).
  - destruct Hx as [Hc Hx]. cbn [append].
    rewrite (tokens_cons c _ Hc), (IH Hx).
    pose proof (tokens_nonempty rest). now destruct (tokens rest).
Qed.

Lemma tokens_sep rest : tokens (", " ++ rest) = "" :: tokens rest.
Proof. reflexivity. Qed.

Lemma tokens_join x xs :
  Forall comma_free (x :: xs) -> tokens (join ", " (x :: xs)) = x :: xs.
Proof.
  revert x. induction xs as [|y ys IH]; intros x H.
  - cbn [join]. rewrite <- (append_empty x) at 1.
    rewrite tokens_free_app by now inversion H.
    cbn. now rewrite append_empty.
  - inversion H as [|? ? Hx Hrest]; subst.
    change (join ", " (x :: y :: ys))
      with (x ++ ", " ++ join ", " (y :: ys)).
    rewrite (tokens_free_app x _ Hx).
    rewrite tokens_sep, (IH y Hrest). cbn [prepend].
    now rewrite append_empty.
Qed.

Lemma uint_comma_free d :
  comma_free (DecimalString.NilEmpty.string_of_uint d).
Proof.
  induction d; cbn; try exact I; (split; [discriminate|assumption]).
Qed.

Lemma format_d_comma_free x : comma_free (format_d x).
Proof.
  unfold format_d, DecimalString.NilZero.string_of_int,
    DecimalString.NilZero.string_of_uint.
  destruct (Z.to_int x) as [d|d]; destruct d; cbn;
    repeat (split; [discriminate|]); try exact I; apply uint_comma_free.
Qed.

Lemma format_d_nonempty x : format_d x <> "".
Proof.
  unfold format_d, DecimalString.NilZero.string_of_int,
    DecimalString.NilZero.string_of_uint.
  destruct (Z.to_int x) as [d|d]; destruct d; discriminate.
Qed.

Lemma parse_format x : parse_d (format_d x) = Some x.
Proof.
  unfold parse_d, format_d.
  rewrite DecimalString.NilZero.isi.
  - cbn. now rewrite DecimalZ.of_to.
  - destruct x; cbn; try discriminate.
    intros H. injection H as H.
    now apply DecimalPos.Unsigned.to_uint_nonnil in H.
  - destruct x; cbn; try discriminate.
    intros H. injection H as H.
    now apply DecimalPos.Unsigned.to_uint_nonnil in H.
Qed.

Lemma traverse_parse l :
  Pil.traverse (map parse_d (map format_d l)) = Some l.
Proof.
  induction l as [|x l IH]; [reflexivity|].
  cbn [map Pil.traverse]. now rewrite parse_format, IH.
Qed.

(** X21. The text that [new_clipping] puts on the label determines the
    counts it was given: cut at every [", "] and read as decimal
    numbers, it gives back the list, whatever its length; for three
    counts it is the three decimal numbers with two separators. *)
Theorem clipping_label_reads_back clipping :
  read_clipping (new_clipping clipping) = Some clipping
  /\ (forall a b c,
         clipping = [a; b; c] ->
         new_clipping clipping
         = format_d a ++ ", " ++ format_d b ++ ", " ++ format_d c).
Proof.
  split.
  - unfold read_clipping, new_clipping.
    destruct clipping as [|x l]; [reflexivity|].
    assert (Hne : join ", " (map format_d (x :: l)) <> "").
    { cbn [map join]. pose proof (format_d_nonempty x) as Hx.
      destruct (map format_d l); [exact Hx|].
      destruct (format_d x); [congruence|discriminate]. }
    destruct (join ", " (map format_d (x :: l))) as [|c s] eqn:E;
      [congruence|].
    rewrite <- E. cbn [map]. rewrite tokens_join.
    + exact (traverse_parse (x :: l)).
    + change (Forall comma_free (map format_d (x :: l))).
      apply Forall_forall. intros s' Hs'. apply in_map_iff in Hs'.
      destruct Hs' as (z & <- & _). apply format_d_comma_free.
  - intros a b c ->. reflexivity.
Qed.

(** ** From the frame to the label *)

(** X22. After a capture of an RGB frame (of any size), the list that
    [new_clipping] receives through the connected signal makes the label
    read the numbers of samples equal to 255 in the red, the green and
    the blue channel, in decimal, separated by [", "]; the signal comes
    right after [new_image] and [new_histogram], before any focus
    measurement. *)
Theorem label_shows_saturated_counts cam w OK image r g b :
  cam (Handler.shots w) = (OK, Some image) -> (Gp.GP_OK <= OK)%Z ->
  Pil.wf_image image = true -> Pil.bands image = [r; g; b] ->
  exists data q_image clipping rest,
    Handler.trace (Handler.world_of (Handler._do_capture cam w))
    = (Handler.trace w
       ++ [Handler.CapturePreview;
           Handler.NewImage (Pil.size_w image) (Pil.size_h image) data;
           Handler.NewHistogram q_image; Handler.NewClipping clipping]
       ++ rest)%list
    /\ new_clipping clipping
       = format_d (Pil.count_value r 255) ++ ", "
         ++ format_d (Pil.count_value g 255) ++ ", "
         ++ format_d (Pil.count_value b 255).
Proof.
  intros Hcam HOK Hwf Hb.
  assert (Hmode : Pil.mode image = Pil.RGB).
  { unfold Pil.wf_image in Hwf. rewrite Hb in Hwf.
    apply andb_true_iff in Hwf. destruct Hwf as [Hm _].
    now destruct (Pil.mode image). }
  destruct (HistogramFacts.py_max_some (Pil.band_histogram r)) as [mr Hr];
    [apply HistogramFacts.nonempty_256,
       HistogramFacts.length_band_histogram|].
  destruct (HistogramFacts.py_max_some (Pil.band_histogram g)) as [mg Hg];
    [apply HistogramFacts.nonempty_256,
       HistogramFacts.length_band_histogram|].
  destruct (HistogramFacts.py_max_some (Pil.band_histogram b)) as [mb Hbl];
    [apply HistogramFacts.nonempty_256,
       HistogramFacts.length_band_histogram|].
  pose proof (HistogramFacts.draw_histogram_rgb _ _ _ mr mg mb
                (HistogramFacts.length_band_histogram r)
                (HistogramFacts.length_band_histogram g)
                (HistogramFacts.length_band_histogram b) Hr Hg Hbl) as Hh.
  rewrite <- (HistogramFacts.histogram_rgb image r g b Hb) in Hh.
  rewrite !HistogramFacts.nth_band_histogram in Hh by lia.
  assert (Hd : exists data, Pil.tobytes_raw_RGB image = Some data).
  { unfold Pil.tobytes_raw_RGB. rewrite Hmode, Hb. eexists. reflexivity. }
  destruct Hd as [data Hd].
  assert (Hlt : (OK <? Gp.GP_OK)%Z = false) by (apply Z.ltb_ge; exact HOK).
  exists data. eexists. eexists.
  destruct (Metrics.focus_measure image) as [rms|] eqn:Hf.
  - exists [Handler.NewFocus rms].
    rewrite (CaptureFacts.do_capture_emits cam w OK image data _ _ rms
               Hcam HOK Hd Hh Hf).
    split; reflexivity.
  - exists [].
    unfold Handler._do_capture, Handler.bind,
      Handler.gp_camera_capture_preview. rewrite Hcam, Hlt, Hd.
    unfold Handler.set_image_data, Handler.effect.
    cbn [Handler.world_of Handler.trace Handler.running Handler.config
         Handler.image_data Handler.shots Handler.queue].
    rewrite Hh.
    cbn [Handler.world_of Handler.trace Handler.running Handler.config
         Handler.image_data Handler.shots Handler.queue].
    rewrite Hf.
    cbn [Handler.world_of Handler.trace Handler.raise].
    rewrite <- !app_assoc. split; reflexivity.
Qed.

End Arithmetic.

(** ** The theorems at concrete inputs, in exact arithmetic *)

#[local] Existing Instance Metrics.exact.

Lemma label_shows_saturated_counts_witness :
  Pil.wf_image Examples.picture = true
  /\ exists data q_image clipping rest,
       Handler.trace
         (Handler.world_of
            (Handler._do_capture Examples.cam_ok
               (Examples.idle Examples.jpeg_config)))
       = ([Handler.CapturePreview;
           Handler.NewImage 3 2 data;
           Handler.NewHistogram q_image; Handler.NewClipping clipping]
          ++ rest)%list
       /\ new_clipping clipping = "1, 0, 5".
Proof.
  split; [reflexivity|].
  destruct (label_shows_saturated_counts Examples.cam_ok
              (Examples.idle Examples.jpeg_config) Gp.GP_OK
              Examples.picture _ _ _ eq_refl ltac:(discriminate)
              eq_refl eq_refl)
    as (data & q_image & clipping & rest & Ht & Hc).
  exists data, q_image, clipping, rest. split; [exact Ht|].
  rewrite Hc. reflexivity.
Defined.

End DisplayFacts.
